(** * I2C master driver (I2C.c / I2C.h): model and verified properties

    The driver keeps one transfer descriptor (the static struct [I2C]),
    armed by [PutI2C] / [GetI2C] and advanced by the TWI interrupt
    handler [ISR(TWI_vect)], one bus condition per interrupt.

    Conventions of the model:
    - a [uint8_t] is a [Z]; where the C computes a value that may leave
      the range 0..255 and stores it in a [uint8_t], the wrap-around
      [u8] is written out;
    - the caller's buffer lives in a byte-addressed memory [ram]; the
      pointer [I2C.Buffer] is the address of the next byte (pointer
      arithmetic inside an object does not wrap);
    - the TWI registers are fields of the machine state; every access to
      the control register TWCR and to the data register TWDR is also
      appended to [actions], in program order;
    - the build is the default one: neither [DEBUG_I2C] nor
      [CALL_I2CISR] is defined in I2C.h, so [ADD_DEBUG], [INIT_DEBUG]
      and the [I2CISR] hook expand to nothing. *)

From Stdlib Require Import ZArith List Bool Lia.
From Stdlib Require Import Ascii.
From Stdlib Require String.
Import String.StringSyntax.
Import ListNotations.
Local Open Scope Z_scope.

(** ** Data model *)

(** [I2C_STATUS] of I2C.h. *)
Inductive I2C_STATUS : Type :=
| I2C_COMPLETE
| I2C_WORKING
| I2C_NO_SLAVE_ACK
| I2C_SLAVE_DATA_NACK
| I2C_REP_START
| I2C_ARB_LOST
| I2C_BUS_ERROR.

Definition I2C_STATUS_eqb (a b : I2C_STATUS) : bool :=
  match a, b with
  | I2C_COMPLETE, I2C_COMPLETE
  | I2C_WORKING, I2C_WORKING
  | I2C_NO_SLAVE_ACK, I2C_NO_SLAVE_ACK
  | I2C_SLAVE_DATA_NACK, I2C_SLAVE_DATA_NACK
  | I2C_REP_START, I2C_REP_START
  | I2C_ARB_LOST, I2C_ARB_LOST
  | I2C_BUS_ERROR, I2C_BUS_ERROR => true
  | _, _ => false
  end.

(** The static struct [I2C] of I2C.c. *)
Record descriptor : Type := mkI2C {
  SlaveAddr : Z;          (* uint8_t: slave address byte *)
  nBytes    : Z;          (* uint8_t: bytes left to process *)
  Buffer    : Z;          (* uint8_t *: address of the next byte *)
  NoStop    : bool;       (* don't send stop after request *)
  Status    : I2C_STATUS  (* status of request *)
}.

(** Accesses to the control and data registers, as the macros of I2C.c
    perform them. *)
Inductive hw_action : Type :=
| SET_MASK_TWCR (mask : Z)   (* _SET_MASK(TWCR,mask) *)
| SET_BIT_TWCR (bit : Z)     (* _SET_BIT(TWCR,bit)   *)
| CLR_BIT_TWCR (bit : Z)     (* _CLR_BIT(TWCR,bit)   *)
| WRITE_TWDR (v : Z)         (* TWDR = v             *)
| READ_TWDR (v : Z).         (* ... = TWDR           *)

Record machine : Type := mkMachine {
  I2C     : descriptor;
  ram     : Z -> Z;
  TWSR    : Z;
  TWDR    : Z;
  TWCR    : Z;
  TWAR    : Z;
  actions : list hw_action
}.

(** Wrap-around of a value stored into a [uint8_t]. *)
Definition u8 (x : Z) : Z := x mod 256.

(** ** Constants *)

(** TWSR values (I2C.c, "assumes prescaler bits have been zeroed"). *)
Definition TW_START : Z := 0x08.
Definition TW_REP_START : Z := 0x10.
Definition TW_ARB_LOST : Z := 0x38.
Definition TW_MT_SLA_ACK : Z := 0x18.
Definition TW_MT_SLA_NACK : Z := 0x20.
Definition TW_MT_DATA_ACK : Z := 0x28.
Definition TW_MT_DATA_NACK : Z := 0x30.
Definition TW_MR_SLA_ACK : Z := 0x40.
Definition TW_MR_SLA_NACK : Z := 0x48.
Definition TW_MR_DATA_ACK : Z := 0x50.
Definition TW_MR_DATA_NACK : Z := 0x58.
Definition TW_ST_SLA_ACK : Z := 0xA8.
Definition TW_ST_ARB_LOST_SLA_ACK : Z := 0xB0.
Definition TW_ST_DATA_ACK : Z := 0xB8.
Definition TW_ST_DATA_NACK : Z := 0xC0.
Definition TW_ST_LAST_DATA : Z := 0xC8.
Definition TW_SR_SLA_ACK : Z := 0x60.
Definition TW_SR_ARB_LOST_SLA_ACK : Z := 0x68.
Definition TW_SR_GCALL_ACK : Z := 0x70.
Definition TW_SR_ARB_LOST_GCALL_ACK : Z := 0x78.
Definition TW_SR_DATA_ACK : Z := 0x80.
Definition TW_SR_DATA_NACK : Z := 0x88.
Definition TW_SR_GCALL_DATA_ACK : Z := 0x90.
Definition TW_SR_GCALL_DATA_NACK : Z := 0x98.
Definition TW_SR_STOP : Z := 0xA0.
Definition TW_NO_INFO : Z := 0xF8.
Definition TW_BUS_ERROR : Z := 0x00.

(** Modelled from the spec: the bit numbers of the control register TWCR
    and of the prescaler field of TWSR come from the device header, which
    is not among the sources.  The spec names the control bits
    (start, stop, continue, acknowledge-enable, interrupt-enable); the
    numbers are the ones of the ATmega168 the driver is written for. *)
Definition TWINT : Z := 7.
Definition TWEA  : Z := 6.
Definition TWSTA : Z := 5.
Definition TWSTO : Z := 4.
Definition TWEN  : Z := 2.
Definition TWIE  : Z := 0.
Definition TWPS1 : Z := 1.
Definition TWPS0 : Z := 0.

(** Modelled from the spec: PortMacros.h is not among the sources.
    [_PIN_MASK(b)] is the mask with only bit [b] set; [_SET_MASK],
    [_SET_BIT] and [_CLR_BIT] are read-modify-write accesses that set the
    bits of a mask, set one bit and clear one bit of a register. *)
Definition _PIN_MASK (b : Z) : Z := Z.shiftl 1 b.

(** ** A state monad over the machine *)

Definition M (A : Type) : Type := machine -> A * machine.

Definition ret {A : Type} (a : A) : M A := fun m => (a, m).

Definition bind {A B : Type} (c : M A) (k : A -> M B) : M B :=
  fun m => let (a, m') := c m in k a m'.

Definition exec {A : Type} (c : M A) (m : machine) : machine := snd (c m).

Declare Scope drv_scope.
Delimit Scope drv_scope with drv.
Notation "x <- c ;; k" := (bind c (fun x => k))
  (at level 61, c at next level, right associativity) : drv_scope.
Notation "c ;; k" := (bind c (fun _ => k))
  (at level 61, right associativity) : drv_scope.
Local Open Scope drv_scope.

(** Descriptor fields. *)
Definition get_I2C {A : Type} (f : descriptor -> A) : M A :=
  fun m => (f (I2C m), m).

Definition put_I2C (d : descriptor) : M unit :=
  fun m => (tt, mkMachine d (ram m) (TWSR m) (TWDR m) (TWCR m) (TWAR m)
                          (actions m)).

Definition set_SlaveAddr (v : Z) : M unit :=
  d <- get_I2C id ;;
  put_I2C (mkI2C v (nBytes d) (Buffer d) (NoStop d) (Status d)).

Definition set_nBytes (v : Z) : M unit :=
  d <- get_I2C id ;;
  put_I2C (mkI2C (SlaveAddr d) v (Buffer d) (NoStop d) (Status d)).

Definition set_Buffer (v : Z) : M unit :=
  d <- get_I2C id ;;
  put_I2C (mkI2C (SlaveAddr d) (nBytes d) v (NoStop d) (Status d)).

Definition set_NoStop (v : bool) : M unit :=
  d <- get_I2C id ;;
  put_I2C (mkI2C (SlaveAddr d) (nBytes d) (Buffer d) v (Status d)).

Definition set_Status (v : I2C_STATUS) : M unit :=
  d <- get_I2C id ;;
  put_I2C (mkI2C (SlaveAddr d) (nBytes d) (Buffer d) (NoStop d) v).

(** Memory. *)
Definition load (p : Z) : M Z := fun m => (ram m p, m).

Definition store (p v : Z) : M unit :=
  fun m => (tt, mkMachine (I2C m)
                          (fun a => if a =? p then v else ram m a)
                          (TWSR m) (TWDR m) (TWCR m) (TWAR m) (actions m)).

(** Registers. *)
Definition read_TWSR : M Z := fun m => (TWSR m, m).

Definition put_TWCR (a : hw_action) (v : Z) : M unit :=
  fun m => (tt, mkMachine (I2C m) (ram m) (TWSR m) (TWDR m) v (TWAR m)
                          (actions m ++ [a])).

Definition _SET_MASK_TWCR (mask : Z) : M unit :=
  fun m => put_TWCR (SET_MASK_TWCR mask) (Z.lor (TWCR m) mask) m.

Definition _SET_BIT_TWCR (b : Z) : M unit :=
  fun m => put_TWCR (SET_BIT_TWCR b) (Z.lor (TWCR m) (_PIN_MASK b)) m.

Definition _CLR_BIT_TWCR (b : Z) : M unit :=
  fun m => put_TWCR (CLR_BIT_TWCR b)
                    (Z.land (TWCR m) (Z.lnot (_PIN_MASK b))) m.

Definition write_TWDR (v : Z) : M unit :=
  fun m => (tt, mkMachine (I2C m) (ram m) (TWSR m) v (TWCR m) (TWAR m)
                          (actions m ++ [WRITE_TWDR v])).

Definition read_TWDR : M Z :=
  fun m => (TWDR m, mkMachine (I2C m) (ram m) (TWSR m) (TWDR m) (TWCR m)
                              (TWAR m) (actions m ++ [READ_TWDR (TWDR m)])).

Definition write_TWAR (v : Z) : M unit :=
  fun m => (tt, mkMachine (I2C m) (ram m) (TWSR m) (TWDR m) (TWCR m) v
                          (actions m)).

Definition write_TWSR (v : Z) : M unit :=
  fun m => (tt, mkMachine (I2C m) (ram m) v (TWDR m) (TWCR m) (TWAR m)
                          (actions m)).

(** The macros of I2C.c. *)
Definition START_MASK : Z := Z.lor (_PIN_MASK TWINT) (_PIN_MASK TWSTA).
Definition STOP_MASK : Z := Z.lor (_PIN_MASK TWINT) (_PIN_MASK TWSTO).

Definition START_I2C : M unit := _SET_MASK_TWCR START_MASK.
Definition STOP_I2C : M unit := _SET_MASK_TWCR STOP_MASK.
Definition STEP_I2C : M unit := _SET_BIT_TWCR TWINT.

(** ** The driver *)

(** [I2CInit].  The power-reduction register, the pull-up setting of the
    port and the bit-rate register TWBR (computed from [F_CPU], which is
    not among the sources) are outside the machine state; everything the
    routine does to the descriptor and to TWSR, TWCR and TWAR is here. *)
Definition I2CInit (KHz OurAddr : Z) (UseInternalPullups : bool) : M unit :=
  put_I2C (mkI2C 0 0 0 false I2C_COMPLETE) ;;      (* memset(&I2C,0,...) *)
  sr <- read_TWSR ;;
  write_TWSR (Z.land sr (Z.lnot (_PIN_MASK TWPS0))) ;;
  sr <- read_TWSR ;;
  write_TWSR (Z.land sr (Z.lnot (_PIN_MASK TWPS1))) ;;
  set_Status I2C_COMPLETE ;;
  _SET_BIT_TWCR TWEN ;;
  _SET_BIT_TWCR TWIE ;;
  write_TWAR OurAddr ;;
  _CLR_BIT_TWCR TWEA.

(** [PutI2C]: initiate block write. *)
Definition PutI2C (SlaveAddr_ nBytes_ Buffer_ : Z) (NoStop_ : bool) : M unit :=
  set_SlaveAddr (u8 (Z.shiftl SlaveAddr_ 1)) ;;
  set_nBytes nBytes_ ;;
  set_Buffer Buffer_ ;;
  set_Status I2C_WORKING ;;
  set_NoStop NoStop_ ;;
  START_I2C.

(** [GetI2C]: initiate block read. *)
Definition GetI2C (SlaveAddr_ nBytes_ Buffer_ : Z) : M unit :=
  set_SlaveAddr (u8 (Z.lor (Z.shiftl SlaveAddr_ 1) 1)) ;;
  set_nBytes nBytes_ ;;
  set_Buffer Buffer_ ;;
  set_Status I2C_WORKING ;;
  START_I2C.

Definition I2CBusy (m : machine) : bool :=
  I2C_STATUS_eqb (Status (I2C m)) I2C_WORKING.

Definition I2CStatus (m : machine) : I2C_STATUS := Status (I2C m).

(** The bus-condition code the handler switches on:
    [TWSR & ~(_PIN_MASK(TWPS0) | _PIN_MASK(TWPS1))], stored in a
    [uint8_t]. *)
Definition twi_status (m : machine) : Z :=
  u8 (Z.land (TWSR m)
             (Z.lnot (Z.lor (_PIN_MASK TWPS0) (_PIN_MASK TWPS1)))).

(** [ISR(TWI_vect)]: one step of the TWI state machine.  The [switch]
    has no [default]: a code that matches no [case] falls out of it. *)
Definition ISR : M unit :=
  sr <- read_TWSR ;;
  let Status_ :=
    u8 (Z.land sr (Z.lnot (Z.lor (_PIN_MASK TWPS0) (_PIN_MASK TWPS1)))) in
  if (Status_ =? TW_START) || (Status_ =? TW_REP_START) then
    a <- get_I2C SlaveAddr ;;
    write_TWDR a ;;
    _CLR_BIT_TWCR TWSTA
  else if (Status_ =? TW_MT_SLA_ACK) || (Status_ =? TW_MT_DATA_ACK) then
    n <- get_I2C nBytes ;;
    if n =? 0 then
      set_Status I2C_COMPLETE ;;
      ns <- get_I2C NoStop ;;
      if negb ns then STOP_I2C else ret tt
    else
      p <- get_I2C Buffer ;;
      set_Buffer (p + 1) ;;
      b <- load p ;;
      write_TWDR b ;;
      n <- get_I2C nBytes ;;
      set_nBytes (u8 (n - 1)) ;;
      STEP_I2C
  else if (Status_ =? TW_MT_SLA_NACK) || (Status_ =? TW_MR_SLA_NACK) then
    set_Status I2C_NO_SLAVE_ACK ;;
    STOP_I2C
  else if Status_ =? TW_MT_DATA_NACK then
    set_Status I2C_SLAVE_DATA_NACK ;;
    STOP_I2C
  else if Status_ =? TW_ARB_LOST then
    set_Status I2C_ARB_LOST ;;
    STEP_I2C
  else if Status_ =? TW_MR_SLA_ACK then
    n <- get_I2C nBytes ;;
    if n =? 0 then
      set_Status I2C_COMPLETE ;;
      STOP_I2C
    else
      (if n =? 1 then _CLR_BIT_TWCR TWEA else _SET_BIT_TWCR TWEA) ;;
      STEP_I2C
  else if (Status_ =? TW_MR_DATA_ACK) || (Status_ =? TW_MR_DATA_NACK) then
    v <- read_TWDR ;;
    p <- get_I2C Buffer ;;
    set_Buffer (p + 1) ;;
    store p v ;;
    n <- get_I2C nBytes ;;
    set_nBytes (u8 (n - 1)) ;;
    n <- get_I2C nBytes ;;
    (if n =? 1 then _CLR_BIT_TWCR TWEA else ret tt) ;;
    n <- get_I2C nBytes ;;
    if n =? 0 then
      set_Status I2C_COMPLETE ;;
      STOP_I2C
    else
      STEP_I2C
  else if Status_ =? TW_BUS_ERROR then
    set_Status I2C_BUS_ERROR ;;
    STOP_I2C
  else
    ret tt.

(** ** The hardware side: one interrupt per bus condition *)

(** A bus condition raised by the peripheral: the content of the status
    register and of the data register when the interrupt fires. *)
Record event : Type := mkEvent { ev_TWSR : Z; ev_TWDR : Z }.

Definition latch (e : event) (m : machine) : machine :=
  mkMachine (I2C m) (ram m) (ev_TWSR e) (ev_TWDR e) (TWCR m) (TWAR m)
            (actions m).

(** The peripheral latches the condition, then the handler runs. *)
Definition raise (e : event) (m : machine) : machine :=
  exec ISR (latch e m).

Fixpoint run (evs : list event) (m : machine) : machine :=
  match evs with
  | [] => m
  | e :: evs' => run evs' (raise e m)
  end.

(** What the handler adds to the log of register accesses. *)
Definition done_by (m m' : machine) (l : list hw_action) : Prop :=
  actions m' = actions m ++ l.

(** The driver as its callers and the peripheral see it: a history of
    calls of the API and of interrupts. *)
Inductive call : Type :=
| Call_I2CInit (KHz OurAddr : Z) (UseInternalPullups : bool)
| Call_PutI2C (SlaveAddr_ nBytes_ Buffer_ : Z) (NoStop_ : bool)
| Call_GetI2C (SlaveAddr_ nBytes_ Buffer_ : Z)
| Interrupt (e : event).

Definition do_call (c : call) (m : machine) : machine :=
  match c with
  | Call_I2CInit k o p => exec (I2CInit k o p) m
  | Call_PutI2C a n b ns => exec (PutI2C a n b ns) m
  | Call_GetI2C a n b => exec (GetI2C a n b) m
  | Interrupt e => raise e m
  end.

Fixpoint history (cs : list call) (m : machine) : machine :=
  match cs with
  | [] => m
  | c :: cs' => history cs' (do_call c m)
  end.

(** ** Vocabulary of the statements *)

(** The code of an event after the prescaler bits are masked off. *)
Definition ev_code (e : event) : Z :=
  u8 (Z.land (ev_TWSR e)
             (Z.lnot (Z.lor (_PIN_MASK TWPS0) (_PIN_MASK TWPS1)))).

(** The handler's effect on a machine [m]: new descriptor, memory, data
    and control register, and the accesses [l] it appended to the log. *)
Definition effect (m : machine) (d : descriptor) (r : Z -> Z) (dr cr : Z)
    (l : list hw_action) : machine :=
  mkMachine d r (TWSR m) dr cr (TWAR m) (actions m ++ l).

Definition STOP : hw_action := SET_MASK_TWCR STOP_MASK.
Definition STEP : hw_action := SET_BIT_TWCR TWINT.
Definition START : hw_action := SET_MASK_TWCR START_MASK.

(** Acknowledge-enable, as the control register holds it. *)
Definition ack_enabled (m : machine) : bool := Z.testbit (TWCR m) TWEA.

(** The terminal values of [I2C_STATUS] the spec lists. *)
Definition terminal (s : I2C_STATUS) : bool :=
  match s with
  | I2C_COMPLETE | I2C_NO_SLAVE_ACK | I2C_SLAVE_DATA_NACK
  | I2C_ARB_LOST | I2C_BUS_ERROR => true
  | I2C_WORKING | I2C_REP_START => false
  end.

(** The codes that have a [case] in the handler's [switch]. *)
Definition handled_codes : list Z :=
  [TW_START; TW_REP_START; TW_MT_SLA_ACK; TW_MT_DATA_ACK; TW_MT_SLA_NACK;
   TW_MR_SLA_NACK; TW_MT_DATA_NACK; TW_ARB_LOST; TW_MR_SLA_ACK;
   TW_MR_DATA_ACK; TW_MR_DATA_NACK; TW_BUS_ERROR].

(** The slave-mode codes and the no-information code. *)
Definition unhandled_codes : list Z :=
  [TW_ST_SLA_ACK; TW_ST_ARB_LOST_SLA_ACK; TW_ST_DATA_ACK; TW_ST_DATA_NACK;
   TW_ST_LAST_DATA; TW_SR_SLA_ACK; TW_SR_ARB_LOST_SLA_ACK; TW_SR_GCALL_ACK;
   TW_SR_ARB_LOST_GCALL_ACK; TW_SR_DATA_ACK; TW_SR_DATA_NACK;
   TW_SR_GCALL_DATA_ACK; TW_SR_GCALL_DATA_NACK; TW_SR_STOP; TW_NO_INFO].

(** [I2CBusy] answers true before every event of [evs] and after the
    last one. *)
Fixpoint busy_throughout (evs : list event) (m : machine) : bool :=
  I2CBusy m &&
  match evs with
  | [] => true
  | e :: evs' => busy_throughout evs' (raise e m)
  end.

(** Either the driver is busy throughout [evs], or it is busy up to an
    event at which the handler sets a terminal status. *)
Definition busy_until_terminal (evs : list event) (m : machine) : Prop :=
  busy_throughout evs m = true \/
  exists evs1 e evs2,
    evs = evs1 ++ e :: evs2 /\
    busy_throughout evs1 m = true /\
    terminal (I2CStatus (raise e (run evs1 m))) = true.

(** A data-received event: the byte was ACKed or NACKed by the driver. *)
Definition data_event (e : event) : Prop :=
  ev_code e = TW_MR_DATA_ACK \/ ev_code e = TW_MR_DATA_NACK.

(** An event of the read path of the handler. *)
Definition read_event (e : event) : Prop :=
  ev_code e = TW_MR_SLA_ACK \/ data_event e.

(** The machine with the [NoStop] field replaced. *)
Definition with_NoStop (ns : bool) (m : machine) : machine :=
  exec (set_NoStop ns) m.

(** A machine to evaluate the driver on: descriptor as [I2CInit] leaves
    it, memory and registers cleared. *)
Definition m0 : machine :=
  mkMachine (mkI2C 0 0 0 false I2C_COMPLETE) (fun _ => 0) 0 0 0 0 [].

(** ** The blocking wrappers of I2C.h *)

(** [while( I2CBusy() );] with the interrupts that arrive while the
    mainline spins: the handler runs for each pending bus condition
    until the driver is idle.  The wait has no timeout: [None] says the
    mainline is still spinning when the conditions in [evs] are used up;
    [Some (m, rest)] says the loop was left in machine [m], the
    conditions [rest] not yet raised. *)
Fixpoint wait_idle (evs : list event) (m : machine)
    : option (machine * list event) :=
  if I2CBusy m then
    match evs with
    | [] => None
    | e :: evs' => wait_idle evs' (raise e m)
    end
  else Some (m, evs).

(** [PutI2CW(_s_,_n_,_b_,_p_)]. *)
Definition PutI2CW (SlaveAddr_ nBytes_ Buffer_ : Z) (NoStop_ : bool)
    (evs : list event) (m : machine) : option (machine * list event) :=
  wait_idle evs (exec (PutI2C SlaveAddr_ nBytes_ Buffer_ NoStop_) m).

(** [GetI2CW(_s_,_n_,_b_)]. *)
Definition GetI2CW (SlaveAddr_ nBytes_ Buffer_ : Z)
    (evs : list event) (m : machine) : option (machine * list event) :=
  wait_idle evs (exec (GetI2C SlaveAddr_ nBytes_ Buffer_) m).

(** A data-ACK(write) or address-ACK(write) event. *)
Definition write_ack (e : event) : Prop :=
  ev_code e = TW_MT_SLA_ACK \/ ev_code e = TW_MT_DATA_ACK.

(** The bytes the handler wrote to the data register, oldest first. *)
Fixpoint sent_bytes (l : list hw_action) : list Z :=
  match l with
  | [] => []
  | WRITE_TWDR v :: l' => v :: sent_bytes l'
  | _ :: l' => sent_bytes l'
  end.

(** How many STOPs a log of register accesses holds. *)
Fixpoint count_STOP (l : list hw_action) : nat :=
  match l with
  | [] => 0
  | SET_MASK_TWCR mask :: l' =>
      if mask =? STOP_MASK then S (count_STOP l') else count_STOP l'
  | _ :: l' => count_STOP l'
  end.

(** The memory cells [p], [p+1], ..., [p+n-1]. *)
Fixpoint ram_bytes (r : Z -> Z) (p : Z) (n : nat) : list Z :=
  match n with
  | O => []
  | S n' => r p :: ram_bytes r (p + 1) n'
  end.

(** ** Characters and C strings (GetLine.c, I2CCmd.c) *)

(** A [char] is its code.  A C string is the list of its characters
    before the terminating NUL; an array of [char] is the list of its
    cells. *)
Definition chr (c : ascii) : Z := Z.of_N (N_of_ascii c).

Definition str (s : String.string) : list Z :=
  map chr (String.list_ascii_of_string s).

Delimit Scope string_scope with string.
Arguments chr c%_char.
Arguments str s%_string.

(** The classification functions of <ctype.h>, in the C locale. *)
Definition isupper (c : Z) : bool := (chr "A" <=? c) && (c <=? chr "Z").
Definition islower (c : Z) : bool := (chr "a" <=? c) && (c <=? chr "z").
Definition isdigit (c : Z) : bool := (chr "0" <=? c) && (c <=? chr "9").
Definition isalpha (c : Z) : bool := isupper c || islower c.
Definition isxdigit (c : Z) : bool :=
  isdigit c || (chr "A" <=? c) && (c <=? chr "F")
            || (chr "a" <=? c) && (c <=? chr "f").
Definition toupper (c : Z) : Z := if islower c then c - 32 else c.
Definition tolower (c : Z) : Z := if isupper c then c + 32 else c.

(** [*String2++] on a pointer into a C string: the character read and
    the pointer after it.  [Some s] points at the characters [s], the
    NUL after them included; [None] points past that NUL, where nothing
    may be read. *)
Definition next_char (String2 : option (list Z))
    : option (Z * option (list Z)) :=
  match String2 with
  | None => None
  | Some [] => Some (0, None)
  | Some (c :: s) => Some (c, Some s)
  end.

(** [if( *String2 != 0 ) return(false); return(true);] *)
Definition at_end (String2 : option (list Z)) : option bool :=
  match String2 with
  | None => None
  | Some [] => Some true
  | Some (c2 :: _) => Some (c2 =? 0)
  end.

(** [StrEQ] of GetLine.c.  A NUL among the characters of [String1] ends
    the string there.  [None]: a character was read past the end of
    [String2]. *)
Fixpoint StrEQ (String1 : list Z) (String2 : option (list Z))
    : option bool :=
  match String1 with
  | [] => at_end String2
  | c1 :: String1' =>
      if c1 =? 0 then at_end String2
      else
        match next_char String2 with
        | None => None
        | Some (c2, String2') =>
            if c1 =? chr " " then Some true
            else
              let c1 := if isalpha c1 then toupper c1 else c1 in
              let c2 := if isalpha c2 then toupper c2 else c2 in
              if negb (c1 =? c2) then Some false
              else StrEQ String1' String2'
        end
  end.

(** Both characters folded to upper case, as [StrEQ] compares them. *)
Definition upcase (s : list Z) : list Z :=
  map (fun c => if isalpha c then toupper c else c) s.

(** ** Line input (GetLine.c) *)

Definition MAX_CMD_LENGTH : Z := 100.
Definition BACKSPACE : Z := 8.     (* '\b' *)
Definition ESC : Z := 27.          (* '\033' *)
Definition CR : Z := 13.           (* '\r' *)
Definition LF : Z := 10.           (* '\n' *)
Definition PROMPT : list Z := str "Cmd> ".
Definition ESC_CMD : list Z := [ESC].

(** Calls of functions that are defined outside the sources: the serial
    output routines, the terminal macro [ClearEOL], and the command
    handler [SerialCommand] that GetLine.c declares [extern]. *)
Inductive ext_call : Type :=
| PrintString (s : list Z)
| PrintStringP (s : list Z)
| PrintH (v : Z)
| PrintD (v w : Z)
| PrintB (v : Z)
| PrintCRLF
| ClearEOL
| Call_SerialCommand (Line : list Z).

(** The static data of GetLine.c and the calls made so far. *)
Record console : Type := mkConsole {
  LineBuffer : list Z;      (* char LineBuffer[MAX_CMD_LENGTH+1] *)
  nChars     : Z;           (* int *)
  calls      : list ext_call
}.

(** [a[i] = v]; [None] if [i] is not an index of the array. *)
Definition array_set (a : list Z) (i v : Z) : option (list Z) :=
  if (0 <=? i) && (i <? Z.of_nat (length a)) then
    Some (firstn (Z.to_nat i) a ++ v :: skipn (S (Z.to_nat i)) a)
  else None.

(** The C string an array holds: its cells up to the first NUL. *)
Fixpoint cstr (a : list Z) : list Z :=
  match a with
  | [] => []
  | c :: a' => if c =? 0 then [] else c :: cstr a'
  end.

Definition emit (x : ext_call) (c : console) : console :=
  mkConsole (LineBuffer c) (nChars c) (calls c ++ [x]).

Definition InitLineBuffer (c : console) : console :=
  mkConsole (repeat 0 (Z.to_nat (MAX_CMD_LENGTH + 1))) 0 (calls c).

(** [LINE_BASED] is defined in GetLine.h: no cursor positioning. *)
Definition Prompt (c : console) : console :=
  emit (PrintString PROMPT) (emit ClearEOL c).

Definition PlotCursor (c : console) : console := c.

Definition GetLineInit (c : console) : console := Prompt (InitLineBuffer c).

(** [strcpy(LineBuffer,src)]: the characters of [src], then a NUL. *)
Fixpoint strcpy (a : list Z) (i : Z) (src : list Z) : option (list Z) :=
  match src with
  | [] => array_set a i 0
  | ch :: src' =>
      match array_set a i ch with
      | None => None
      | Some a' => strcpy a' (i + 1) src'
      end
  end.

(** [ProcessSerialInput]; [None]: an access outside [LineBuffer]. *)
Definition ProcessSerialInput (InChar : Z) (c : console) : option console :=
  if InChar =? 0 then Some c
  else if InChar =? BACKSPACE then
    if negb (nChars c =? 0) then
      let c := PlotCursor c in
      let n := nChars c - 1 in
      match array_set (LineBuffer c) n 0 with
      | None => None
      | Some a =>
          Some (emit (PrintString [BACKSPACE; chr " "; BACKSPACE])
                     (mkConsole a n (calls c)))
      end
    else Some c
  else
    let TempOutLine :=
      if InChar =? CR then [CR; LF]
      else if negb (InChar =? LF) then [InChar]
      else [] in
    let c := emit (PrintString TempOutLine) (PlotCursor c) in
    if (InChar =? CR) || (InChar =? ESC) then
      match (if InChar =? ESC then strcpy (LineBuffer c) 0 ESC_CMD
             else Some (LineBuffer c)) with
      | None => None
      | Some a =>
          let c := mkConsole a (nChars c) (calls c) in
          let c := emit (Call_SerialCommand (cstr (LineBuffer c))) c in
          Some (Prompt (InitLineBuffer c))
      end
    else if InChar =? LF then Some c
    else if nChars c <? MAX_CMD_LENGTH then
      match array_set (LineBuffer c) (nChars c) InChar with
      | None => None
      | Some a => Some (mkConsole a (nChars c + 1) (calls c))
      end
    else Some c.

(** The characters of [input], one call of [ProcessSerialInput] each. *)
Fixpoint type_chars (input : list Z) (c : console) : option console :=
  match input with
  | [] => Some c
  | ch :: input' =>
      match ProcessSerialInput ch c with
      | None => None
      | Some c' => type_chars input' c'
      end
  end.

(** A character that [ProcessSerialInput] adds to the line. *)
Definition plain_char (ch : Z) : bool :=
  negb ((ch =? 0) || (ch =? BACKSPACE) || (ch =? CR) || (ch =? LF)
        || (ch =? ESC)).

(** The array holds the line typed so far: the characters of [line],
    none of them NUL, then NULs up to the end of the array, and [nChars]
    counts them. *)
Definition holds (line : list Z) (c : console) : Prop :=
  LineBuffer c = line ++ repeat 0 (101 - length line)%nat /\
  nChars c = Z.of_nat (length line) /\
  (length line <= 100)%nat /\
  Forall (fun ch => ch <> 0) line.

(** A C string: no NUL among its characters. *)
Definition c_string (s : list Z) : Prop := Forall (fun ch => ch <> 0) s.

(** A word: a C string without a space. *)
Definition word (s : list Z) : Prop :=
  Forall (fun ch => ch <> 0 /\ ch <> chr " ") s.

(** The state [GetLineInit] leaves, nothing called yet. *)
Definition console0 : console := InitLineBuffer (mkConsole [] 0 []).

(** ** Command parsing (I2CCmd.c) *)

Module Cmd.

Definition MAX_RWBYTES : Z := 0xF0.

(** The globals of I2CCmd.c that the parsing routines use, and the
    calls of the output routines. *)
Record globals : Type := mkGlobals {
  Token  : list Z;       (* char *Token: the string it points to *)
  Value  : Z;            (* uint8_t *)
  nBytes : Z;            (* uint8_t *)
  out    : list ext_call
}.

Definition print (x : ext_call) (g : globals) : globals :=
  mkGlobals (Token g) (Value g) (nBytes g) (out g ++ [x]).

(** [Token[i]]: a character of the string, or its terminating NUL. *)
Definition at_ (s : list Z) (i : nat) : Z := nth i s 0.

(** The value of a hexadecimal digit, as [ParseValue] computes it. *)
Definition digit (c : Z) : Z :=
  if toupper c >? chr "9" then toupper c - chr "A" + 10 else c - chr "0".

(** [ParseValue].  [tok] is the string [ParseToken()] returned; Parse.c
    is not among the sources. *)
Definition ParseValue (tok : list Z) (g : globals) : bool * globals :=
  let Token_ :=
    if (at_ tok 0 =? chr "0") && (tolower (at_ tok 1) =? chr "x")
    then skipn 2 tok else tok in
  let g := mkGlobals Token_ (Value g) (nBytes g) (out g) in
  if (length Token_ =? 0)%nat || (2 <? length Token_)%nat then (false, g)
  else if negb (isxdigit (at_ Token_ 0)) then (false, g)
  else
    let g := mkGlobals Token_ (u8 (digit (at_ Token_ 0))) (nBytes g) (out g) in
    if (length Token_ =? 1)%nat then (true, g)
    else if negb (isxdigit (at_ Token_ 1)) then (false, g)
    else
      let v := u8 (Z.shiftl (Value g) 4) in
      let v := u8 (v + digit (at_ Token_ 1)) in
      (true, mkGlobals Token_ v (nBytes g) (out g)).

Definition CRLF : list Z := [CR; LF].

(** [ParseNBytes]. *)
Definition ParseNBytes (tok : list Z) (g : globals) : bool * globals :=
  let (ok, g) := ParseValue tok g in
  if negb ok then
    (false,
     print PrintCRLF
       (print (PrintString (str "Type '?' for help" ++ CRLF))
          (print (PrintString (str "), must 2 hex chars." ++ CRLF))
             (print (PrintString (Token g))
                (print (PrintString (str "Unrecognized nBytes (")) g)))))
  else if Value g >? MAX_RWBYTES then
    (false,
     print PrintCRLF
       (print (PrintString (str "Type '?' for help" ++ CRLF))
          (print (PrintString (str "." ++ CRLF))
             (print (PrintH MAX_RWBYTES)
                (print (PrintString (str "), must <= "))
                   (print (PrintString (Token g))
                      (print (PrintString (str "nBytes too big (")) g)))))))
  else if Value g =? 0 then
    (false,
     print PrintCRLF
       (print (PrintString (str "Type '?' for help" ++ CRLF))
          (print (PrintString
                    (str "nBytes cannot be zero! Causes hang!" ++ CRLF))
             g)))
  else
    (true, mkGlobals (Token g) (Value g) (Value g) (out g)).

(** The value of a string of hexadecimal digits. *)
Definition hex_value (ds : list Z) : Z :=
  fold_left (fun acc d => 16 * acc + digit d) ds 0.

(** The upper-case and the lower-case digit of a value below 16. *)
Definition hex_upper (v : Z) : Z :=
  if v <? 10 then chr "0" + v else chr "A" + (v - 10).
Definition hex_lower (v : Z) : Z :=
  if v <? 10 then chr "0" + v else chr "a" + (v - 10).

(** Whether [ParseValue] accepts a token, and the value it gives. *)
Definition is_value (tok : list Z) : bool :=
  fst (ParseValue tok (mkGlobals [] 0 0 [])).

Definition value_of (tok : list Z) : Z :=
  Value (snd (ParseValue tok (mkGlobals [] 0 0 []))).

(** *** The command handler *)

(** [I2C_STATUS] as the integer the enumeration gives it. *)
Definition status_code (s : I2C_STATUS) : Z :=
  match s with
  | I2C_COMPLETE => 0
  | I2C_WORKING => 1
  | I2C_NO_SLAVE_ACK => 2
  | I2C_SLAVE_DATA_NACK => 3
  | I2C_REP_START => 4
  | I2C_ARB_LOST => 5
  | I2C_BUS_ERROR => 6
  end.

Definition I2C_LAST_ERROR : Z := status_code I2C_BUS_ERROR.

(** [StatusText[s - I2C_COMPLETE]]. *)
Definition StatusText (s : I2C_STATUS) : list Z :=
  match s with
  | I2C_COMPLETE => str "I2C_COMPLETE"
  | I2C_WORKING => str "I2C_WORKING"
  | I2C_NO_SLAVE_ACK => str "I2C_NO_SLAVE_ACK"
  | I2C_SLAVE_DATA_NACK => str "I2C_SLAVE_DATA_NACK"
  | I2C_REP_START => str "I2C_REP_START"
  | I2C_ARB_LOST => str "I2C_MT_ARB_LOST"
  | I2C_BUS_ERROR => str "I2C_BUS_ERROR"
  end.

Definition HELP_SCREEN : list Z :=
  str "R <slave> <nBytes>                Read  data bytes from slave" ++ CRLF ++
  str "W <slave> <Byte1> [<Byte2>] ...   Write data bytes to   slave" ++ CRLF ++
  str "S                                 Scan for slaves on bus" ++ CRLF ++
  str "D <slave> <reg> <nBytes>          Dump slave registers starting at <reg>" ++ CRLF ++
  str "G <slave> <reg> <nBytes>          Dump slave registers using repeated start" ++ CRLF ++
  CRLF ++
  str "H           Show this help panel" ++ CRLF ++
  str "?           Show this help panel" ++ CRLF ++
  CRLF ++
  str "All values hex, lead 0x may be omitted." ++ CRLF ++
  str "Get  command uses repeated start." ++ CRLF ++
  str "Dump command uses full write followed by read." ++ CRLF.

Definition BEEP : list Z := [7].

(** [StrEQ(Command,literal)]: [StrEQ] never reads past the end of its
    second argument, so the answer is always there. *)
Definition streq (Command literal : list Z) : bool :=
  match StrEQ Command (Some literal) with
  | Some b => b
  | None => false
  end.

(** A write of one memory cell by the mainline. *)
Definition poke (a v : Z) (m : machine) : machine :=
  mkMachine (I2C m) (fun x => if x =? a then v else ram m x)
            (TWSR m) (TWDR m) (TWCR m) (TWAR m) (actions m).

(** [memset(p,v,n)]. *)
Definition memset (p v n : Z) (m : machine) : machine :=
  mkMachine (I2C m)
            (fun x => if (p <=? x) && (x <? p + n) then v else ram m x)
            (TWSR m) (TWDR m) (TWCR m) (TWAR m) (actions m).

Section Shell.

(** Parse.c is not among the sources: the tokenizer is a parameter.
    [ParseInit] starts on a line and [ParseToken] returns the next token
    as a C string. *)
Variable tokens : Type.
Variable ParseInit : list Z -> tokens.
Variable ParseToken : tokens -> list Z * tokens.

(** The addresses of the arrays [Buffer] and of the variable [Reg], the
    two objects of I2CCmd.c that are handed to the driver. *)
Variable Buffer_addr : Z.
Variable Reg_addr : Z.

(** The state of the program: the globals of I2CCmd.c, the tokenizer,
    the driver and its peripheral, and the bus conditions that the
    peripheral will raise while the mainline waits. *)
Record shell : Type := mkShell {
  glob      : globals;
  SlaveAddr : Z;             (* uint8_t *)
  nSlaves   : Z;             (* uint8_t *)
  Status    : I2C_STATUS;
  tk        : tokens;
  hw        : machine;
  pending   : list event
}.

Definition with_glob (g : globals) (s : shell) : shell :=
  mkShell g (SlaveAddr s) (nSlaves s) (Status s) (tk s) (hw s) (pending s).

Definition with_hw (m : machine) (evs : list event) (s : shell) : shell :=
  mkShell (glob s) (SlaveAddr s) (nSlaves s) (Status s) (tk s) m evs.

Definition say (x : ext_call) (s : shell) : shell :=
  with_glob (print x (glob s)) s.

Fixpoint say_all (xs : list ext_call) (s : shell) : shell :=
  match xs with
  | [] => s
  | x :: xs' => say_all xs' (say x s)
  end.

(** The tokenizer, started in [t], returns the tokens [toks] one after
    the other and is then in [t']. *)
Fixpoint yields (t : tokens) (toks : list (list Z)) (t' : tokens) : Prop :=
  match toks with
  | [] => t = t'
  | tok :: toks' =>
      exists t1, ParseToken t = (tok, t1) /\ yields t1 toks' t'
  end.

(** [ParseValue()] on the next token. *)
Definition next_value (s : shell) : bool * shell :=
  let (tok, t) := ParseToken (tk s) in
  let (ok, g) := ParseValue tok (glob s) in
  (ok, mkShell g (SlaveAddr s) (nSlaves s) (Status s) t (hw s) (pending s)).

(** [ParseNBytes()] on the next token. *)
Definition next_nbytes (s : shell) : bool * shell :=
  let (tok, t) := ParseToken (tk s) in
  let (ok, g) := ParseNBytes tok (glob s) in
  (ok, mkShell g (SlaveAddr s) (nSlaves s) (Status s) t (hw s) (pending s)).

(** The message of a rejected slave address or register. *)
Definition unrecognized (what : list Z) (s : shell) : shell :=
  say_all [PrintString (str "Unrecognized " ++ what ++ str " (");
           PrintString (Token (glob s));
           PrintString (str "), must 2 hex chars." ++ CRLF);
           PrintString (str "Type '?' for help" ++ CRLF);
           PrintCRLF] s.

Definition set_SlaveAddr (v : Z) (s : shell) : shell :=
  mkShell (glob s) v (nSlaves s) (Status s) (tk s) (hw s) (pending s).

Definition set_nSlaves (v : Z) (s : shell) : shell :=
  mkShell (glob s) (SlaveAddr s) v (Status s) (tk s) (hw s) (pending s).

Definition set_Status (v : I2C_STATUS) (s : shell) : shell :=
  mkShell (glob s) (SlaveAddr s) (nSlaves s) v (tk s) (hw s) (pending s).

Definition set_nBytes (v : Z) (s : shell) : shell :=
  with_glob (mkGlobals (Token (glob s)) (Value (glob s)) v (out (glob s))) s.

(** The lines of [PrintResults] for [Buffer[i]], [i < nBytes]. *)
Definition data_lines (s : shell) : list ext_call :=
  flat_map
    (fun i =>
       [PrintString (str "  0x"); PrintH i; PrintString (str ": 0x");
        PrintH (ram (hw s) (Buffer_addr + i)); PrintString (str "  0b");
        PrintB (ram (hw s) (Buffer_addr + i)); PrintCRLF])
    (map Z.of_nat (seq 0 (Z.to_nat (nBytes (glob s))))).

(** [PrintResults]. *)
Definition PrintResults (PrintBuffer : bool) (s : shell) : shell :=
  let s := set_Status (I2CStatus (hw s)) s in
  let s :=
    if status_code (Status s) <=? I2C_LAST_ERROR
    then say (PrintString (StatusText (Status s))) s
    else say (PrintString (str "????")) s in
  let s := say_all [PrintString (str " ("); PrintH (status_code (Status s));
                    PrintString (str ")" ++ CRLF)] s in
  if PrintBuffer && I2C_STATUS_eqb (Status s) I2C_COMPLETE then
    say PrintCRLF
        (say_all (data_lines s) (say (PrintString (str "Data:" ++ CRLF)) s))
  else s.

(** [GetI2CW] and [PutI2CW] from the shell: [None] if the wait never
    ends. *)
Definition do_GetI2CW (a n p : Z) (s : shell) : option shell :=
  match GetI2CW a n p (pending s) (hw s) with
  | None => None
  | Some (m, rest) => Some (with_hw m rest s)
  end.

Definition do_PutI2CW (a n p : Z) (ns : bool) (s : shell) : option shell :=
  match PutI2CW a n p ns (pending s) (hw s) with
  | None => None
  | Some (m, rest) => Some (with_hw m rest s)
  end.

(** The loop of the W command:
    [for( nBytes = 0; nBytes < MAX_RWBYTES; nBytes++ )], entered with
    [left] iterations to go. *)
Fixpoint W_loop (left : nat) (s : shell) : shell :=
  match left with
  | O => s
  | S left' =>
      let (ok, s) := next_value s in
      if negb ok then s
      else
        let s := with_hw (poke (Buffer_addr + nBytes (glob s))
                               (Value (glob s)) (hw s)) (pending s) s in
        W_loop left' (set_nBytes (u8 (nBytes (glob s) + 1)) s)
  end.

(** The loop of the S command:
    [for( SlaveAddr = 0; SlaveAddr <= 127; SlaveAddr++ )], entered with
    [left] iterations to go. *)
Fixpoint S_loop (left : nat) (s : shell) : option shell :=
  match left with
  | O => Some s
  | S left' =>
      match do_GetI2CW (SlaveAddr s) 1 Buffer_addr s with
      | None => None
      | Some s =>
          let s := set_Status (I2CStatus (hw s)) s in
          let s :=
            if I2C_STATUS_eqb (Status s) I2C_NO_SLAVE_ACK then s
            else
              let s := say_all [PrintH (SlaveAddr s);
                                PrintString (str "  : ");
                                PrintString (StatusText (Status s));
                                PrintCRLF] s in
              if negb (I2C_STATUS_eqb (Status s) I2C_NO_SLAVE_ACK)
              then set_nSlaves (u8 (nSlaves s + 1)) s
              else s in
          S_loop left' (set_SlaveAddr (u8 (SlaveAddr s + 1)) s)
      end
  end.

(** The body shared by the D command and by the block labelled G. *)
Definition dump (NoStop_ : bool) (s : shell) : option shell :=
  let (ok, s) := next_value s in
  if negb ok then Some (unrecognized (str "slave addr") s)
  else
    let s := set_SlaveAddr (Value (glob s)) s in
    let (ok, s) := next_value s in
    if negb ok then Some (unrecognized (str "reg") s)
    else
      let s := with_hw (poke Reg_addr (Value (glob s)) (hw s)) (pending s) s in
      let (ok, s) := next_nbytes s in
      if negb ok then Some s
      else
        let s := with_hw (memset Buffer_addr 0xFF MAX_RWBYTES (hw s))
                         (pending s) s in
        match do_PutI2CW (SlaveAddr s) 1 Reg_addr NoStop_ s with
        | None => None
        | Some s =>
            let s := PrintResults false (say (PrintString (str "Write: ")) s) in
            match do_GetI2CW (SlaveAddr s) (nBytes (glob s)) Buffer_addr s with
            | None => None
            | Some s =>
                Some (PrintResults true
                        (say (PrintString (str "Read:  ")) s))
            end
        end.

(** [SerialCommand]; [None] if a blocking wrapper never returns. *)
Definition SerialCommand (Line : list Z) (s : shell) : option shell :=
  let s := mkShell (glob s) (SlaveAddr s) (nSlaves s) (Status s)
                   (ParseInit Line) (hw s) (pending s) in
  let (Command, t) := ParseToken (tk s) in
  let s := mkShell (glob s) (SlaveAddr s) (nSlaves s) (Status s) t (hw s)
                   (pending s) in
  if streq Command (str "R") then
    let (ok, s) := next_value s in
    if negb ok then Some (unrecognized (str "slave addr") s)
    else
      let s := set_SlaveAddr (Value (glob s)) s in
      let (ok, s) := next_nbytes s in
      if negb ok then Some s
      else
        let s := with_hw (memset Buffer_addr 0xFF MAX_RWBYTES (hw s))
                         (pending s) s in
        match do_GetI2CW (SlaveAddr s) (nBytes (glob s)) Buffer_addr s with
        | None => None
        | Some s => Some (PrintResults true s)
        end
  else if streq Command (str "W") then
    let (ok, s) := next_value s in
    if negb ok then Some (unrecognized (str "slave addr") s)
    else
      let s := set_SlaveAddr (Value (glob s)) s in
      let s := W_loop (Z.to_nat MAX_RWBYTES) (set_nBytes 0 s) in
      let (ok, s) := next_value s in
      if ok then
        Some (say_all [PrintString (str "Too much data (");
                       PrintString (Token (glob s));
                       PrintString (str "), must <= ");
                       PrintH MAX_RWBYTES;
                       PrintString (str "." ++ CRLF);
                       PrintString (str "Type '?' for help" ++ CRLF);
                       PrintCRLF] s)
      else
        match do_PutI2CW (SlaveAddr s) (nBytes (glob s)) Buffer_addr false s
        with
        | None => None
        | Some s => Some (PrintResults false s)
        end
  else if streq Command (str "S") then
    let s := say (PrintString (str "Addr: Result" ++ CRLF))
                 (set_nSlaves 0 s) in
    match S_loop 128 (set_SlaveAddr 0 s) with
    | None => None
    | Some s =>
        Some (say_all [PrintD (nSlaves s) 0;
                       PrintString (str " responses" ++ CRLF);
                       PrintCRLF] s)
    end
  else if streq Command (str "D") then dump false s
  else if streq Command (str "D") then dump true s
  else if streq Command (str "H") || streq Command (str "?") then
    Some (say_all [PrintCRLF; PrintString HELP_SCREEN; PrintCRLF] s)
  else
    Some (say_all [PrintStringP BEEP;
                   PrintStringP (str "Unrecognized Command " ++ [34]);
                   PrintString Command;
                   PrintStringP ([34] ++ CRLF);
                   PrintString (str "Type '?' for help" ++ CRLF);
                   PrintCRLF] s).

End Shell.

Arguments mkShell {tokens}.
Arguments glob {tokens}.
Arguments SlaveAddr {tokens}.
Arguments nSlaves {tokens}.
Arguments Status {tokens}.
Arguments tk {tokens}.
Arguments hw {tokens}.
Arguments pending {tokens}.
Arguments with_glob {tokens}.
Arguments with_hw {tokens}.
Arguments say {tokens}.
Arguments say_all {tokens}.
Arguments yields {tokens}.
Arguments next_value {tokens}.
Arguments next_nbytes {tokens}.
Arguments unrecognized {tokens}.
Arguments set_SlaveAddr {tokens}.
Arguments set_nSlaves {tokens}.
Arguments set_Status {tokens}.
Arguments set_nBytes {tokens}.
Arguments data_lines {tokens}.
Arguments PrintResults {tokens}.
Arguments do_GetI2CW {tokens}.
Arguments do_PutI2CW {tokens}.
Arguments W_loop {tokens}.
Arguments S_loop {tokens}.
Arguments dump {tokens}.
Arguments SerialCommand {tokens}.

(** A tokenizer to run the shell on: the words of the line, separated
    by single spaces, are given one by one, and the empty string when
    they are used up. *)
Fixpoint words_of (line word_ : list Z) : list (list Z) :=
  match line with
  | [] => [rev word_]
  | ch :: line' =>
      if ch =? chr " " then rev word_ :: words_of line' []
      else words_of line' (ch :: word_)
  end.

Definition list_ParseInit (line : list Z) : list (list Z) :=
  words_of line [].

Definition list_ParseToken (t : list (list Z)) : list Z * list (list Z) :=
  match t with
  | [] => ([], [])
  | tok :: t' => (tok, t')
  end.

End Cmd.

(** ** Bus scenarios for the scan *)

(** What one probe of the scan meets on the bus: a slave that
    acknowledges its address and sends the byte [d] ([Some d]), or no
    slave ([None]).  The bus conditions are those the peripheral raises
    for a one-byte read, the last byte being answered with NACK. *)
Definition probe_events (answer : option Z) : list event :=
  match answer with
  | Some d => [mkEvent TW_START 0; mkEvent TW_MR_SLA_ACK 0;
               mkEvent TW_MR_DATA_NACK d]
  | None => [mkEvent TW_START 0; mkEvent TW_MR_SLA_NACK 0]
  end.

Definition present (answer : option Z) : bool :=
  match answer with
  | Some _ => true
  | None => false
  end.

(** The lines the scan prints for the addresses [a], [a+1], ... whose
    probes meet [answers]. *)
Fixpoint scan_report (a : Z) (answers : list (option Z)) : list ext_call :=
  match answers with
  | [] => []
  | answer :: answers' =>
      (if present answer
       then [PrintH a; PrintString (str "  : ");
             PrintString (str "I2C_COMPLETE"); PrintCRLF]
       else []) ++ scan_report (a + 1) answers'
  end.

(** The shell as [main] leaves it before the first command, on the
    tokenizer [Cmd.list_ParseToken]: globals zeroed, the driver idle;
    [evs] are the bus conditions to come. *)
Definition shell0 (evs : list event) : Cmd.shell (list (list Z)) :=
  Cmd.mkShell (Cmd.mkGlobals [] 0 0 []) 0 0 I2C_COMPLETE [] m0 evs.

(** ** The handler, case by case *)

Ltac isr_enter m :=
  unfold raise, exec, ISR, bind, read_TWSR;
  change (u8 (Z.land (TWSR m)
                     (Z.lnot (Z.lor (_PIN_MASK TWPS0) (_PIN_MASK TWPS1)))))
    with (twi_status m).

Ltac isr_body :=
  cbv beta iota zeta delta
    [get_I2C set_Status set_nBytes set_Buffer set_SlaveAddr set_NoStop
     put_I2C load store write_TWDR read_TWDR write_TWSR write_TWAR
     START_I2C STOP_I2C STEP_I2C _SET_MASK_TWCR _SET_BIT_TWCR _CLR_BIT_TWCR
     put_TWCR ret bind effect id STOP STEP START negb
     fst snd I2C ram TWSR TWDR TWCR TWAR actions
     SlaveAddr nBytes Buffer NoStop Status].

Ltac isr_case m H :=
  isr_enter m; rewrite H;
  cbn [Z.eqb Pos.eqb orb TW_START TW_REP_START TW_MT_SLA_ACK TW_MT_DATA_ACK
       TW_MT_SLA_NACK TW_MR_SLA_NACK TW_MT_DATA_NACK TW_ARB_LOST
       TW_MR_SLA_ACK TW_MR_DATA_ACK TW_MR_DATA_NACK TW_BUS_ERROR];
  clear H; destruct m as [[sa n p ns st] r sr dr cr ar l];
  isr_body.

Ltac conjs := repeat apply conj.

Lemma ISR_START (m : machine) :
  twi_status m = TW_START \/ twi_status m = TW_REP_START ->
  exec ISR m =
  effect m (I2C m) (ram m) (SlaveAddr (I2C m))
         (Z.land (TWCR m) (Z.lnot (_PIN_MASK TWSTA)))
         [WRITE_TWDR (SlaveAddr (I2C m)); CLR_BIT_TWCR TWSTA].
Proof.
  intros [H | H]; isr_case m H; rewrite <- ?app_assoc; reflexivity.
Qed.

Lemma ISR_MT_ACK (m : machine) :
  twi_status m = TW_MT_SLA_ACK \/ twi_status m = TW_MT_DATA_ACK ->
  exec ISR m =
  if nBytes (I2C m) =? 0 then
    effect m
      (mkI2C (SlaveAddr (I2C m)) (nBytes (I2C m)) (Buffer (I2C m))
             (NoStop (I2C m)) I2C_COMPLETE)
      (ram m) (TWDR m)
      (if NoStop (I2C m) then TWCR m else Z.lor (TWCR m) STOP_MASK)
      (if NoStop (I2C m) then [] else [STOP])
  else
    effect m
      (mkI2C (SlaveAddr (I2C m)) (u8 (nBytes (I2C m) - 1))
             (Buffer (I2C m) + 1) (NoStop (I2C m)) (Status (I2C m)))
      (ram m) (ram m (Buffer (I2C m)))
      (Z.lor (TWCR m) (_PIN_MASK TWINT))
      [WRITE_TWDR (ram m (Buffer (I2C m))); STEP].
Proof.
  intros [H | H]; isr_case m H;
    (destruct (n =? 0);
     [ destruct ns; cbn [negb snd]; rewrite ?app_nil_r; reflexivity
     | cbn [snd]; rewrite <- ?app_assoc; reflexivity ]).
Qed.

Lemma ISR_SLA_NACK (m : machine) :
  twi_status m = TW_MT_SLA_NACK \/ twi_status m = TW_MR_SLA_NACK ->
  exec ISR m =
  effect m
    (mkI2C (SlaveAddr (I2C m)) (nBytes (I2C m)) (Buffer (I2C m))
           (NoStop (I2C m)) I2C_NO_SLAVE_ACK)
    (ram m) (TWDR m) (Z.lor (TWCR m) STOP_MASK) [STOP].
Proof.
  intros [H | H]; isr_case m H; reflexivity.
Qed.

Lemma ISR_MT_DATA_NACK (m : machine) :
  twi_status m = TW_MT_DATA_NACK ->
  exec ISR m =
  effect m
    (mkI2C (SlaveAddr (I2C m)) (nBytes (I2C m)) (Buffer (I2C m))
           (NoStop (I2C m)) I2C_SLAVE_DATA_NACK)
    (ram m) (TWDR m) (Z.lor (TWCR m) STOP_MASK) [STOP].
Proof.
  intros H; isr_case m H; reflexivity.
Qed.

Lemma ISR_ARB_LOST (m : machine) :
  twi_status m = TW_ARB_LOST ->
  exec ISR m =
  effect m
    (mkI2C (SlaveAddr (I2C m)) (nBytes (I2C m)) (Buffer (I2C m))
           (NoStop (I2C m)) I2C_ARB_LOST)
    (ram m) (TWDR m) (Z.lor (TWCR m) (_PIN_MASK TWINT)) [STEP].
Proof.
  intros H; isr_case m H; reflexivity.
Qed.

Lemma ISR_BUS_ERROR (m : machine) :
  twi_status m = TW_BUS_ERROR ->
  exec ISR m =
  effect m
    (mkI2C (SlaveAddr (I2C m)) (nBytes (I2C m)) (Buffer (I2C m))
           (NoStop (I2C m)) I2C_BUS_ERROR)
    (ram m) (TWDR m) (Z.lor (TWCR m) STOP_MASK) [STOP].
Proof.
  intros H; isr_case m H; reflexivity.
Qed.

Lemma ISR_MR_SLA_ACK (m : machine) :
  twi_status m = TW_MR_SLA_ACK ->
  exec ISR m =
  if nBytes (I2C m) =? 0 then
    effect m
      (mkI2C (SlaveAddr (I2C m)) (nBytes (I2C m)) (Buffer (I2C m))
             (NoStop (I2C m)) I2C_COMPLETE)
      (ram m) (TWDR m) (Z.lor (TWCR m) STOP_MASK) [STOP]
  else if nBytes (I2C m) =? 1 then
    effect m (I2C m) (ram m) (TWDR m)
      (Z.lor (Z.land (TWCR m) (Z.lnot (_PIN_MASK TWEA))) (_PIN_MASK TWINT))
      [CLR_BIT_TWCR TWEA; STEP]
  else
    effect m (I2C m) (ram m) (TWDR m)
      (Z.lor (Z.lor (TWCR m) (_PIN_MASK TWEA)) (_PIN_MASK TWINT))
      [SET_BIT_TWCR TWEA; STEP].
Proof.
  intros H; isr_case m H.
  destruct (n =? 0); [reflexivity|].
  destruct (n =? 1); cbn [snd TWCR actions]; rewrite <- ?app_assoc;
    reflexivity.
Qed.

Lemma ISR_MR_DATA (m : machine) :
  twi_status m = TW_MR_DATA_ACK \/ twi_status m = TW_MR_DATA_NACK ->
  exec ISR m =
  let n' := u8 (nBytes (I2C m) - 1) in
  let r' := fun a => if a =? Buffer (I2C m) then TWDR m else ram m a in
  let cr := if n' =? 1 then Z.land (TWCR m) (Z.lnot (_PIN_MASK TWEA))
            else TWCR m in
  let ea := if n' =? 1 then [CLR_BIT_TWCR TWEA] else [] in
  if n' =? 0 then
    effect m
      (mkI2C (SlaveAddr (I2C m)) n' (Buffer (I2C m) + 1) (NoStop (I2C m))
             I2C_COMPLETE)
      r' (TWDR m) (Z.lor cr STOP_MASK) (READ_TWDR (TWDR m) :: ea ++ [STOP])
  else
    effect m
      (mkI2C (SlaveAddr (I2C m)) n' (Buffer (I2C m) + 1) (NoStop (I2C m))
             (Status (I2C m)))
      r' (TWDR m) (Z.lor cr (_PIN_MASK TWINT))
      (READ_TWDR (TWDR m) :: ea ++ [STEP]).
Proof.
  intros [H | H]; isr_case m H; cbv zeta;
    destruct (u8 (n - 1) =? 1); destruct (u8 (n - 1) =? 0);
    cbn [snd I2C ram TWSR TWDR TWCR TWAR actions nBytes SlaveAddr Buffer
         NoStop Status app];
    rewrite <- ?app_assoc; reflexivity.
Qed.

Lemma ISR_other (m : machine) :
  ~ In (twi_status m) handled_codes -> ISR m = (tt, m).
Proof.
  intros H. isr_enter m.
  assert (E : forall c, In c handled_codes -> (twi_status m =? c) = false).
  { intros c Hc. apply Z.eqb_neq. intros Heq. apply H. now rewrite Heq. }
  rewrite !E by (cbn; tauto). reflexivity.
Qed.

Lemma twi_status_latch (e : event) (m : machine) :
  twi_status (latch e m) = ev_code e.
Proof. reflexivity. Qed.

Lemma raise_eq (e : event) (m : machine) : raise e m = exec ISR (latch e m).
Proof. reflexivity. Qed.

Ltac on_event L H :=
  rewrite raise_eq;
  rewrite L by (rewrite twi_status_latch; first [exact H | tauto]);
  unfold effect, latch, done_by, I2CStatus, I2CBusy;
  cbn [I2C ram TWSR TWDR TWCR TWAR actions
       SlaveAddr nBytes Buffer NoStop Status].

(** ** Submission: the address byte *)

Lemma shiftl1_byte (a : Z) : 0 <= a < 128 -> u8 (Z.shiftl a 1) = 2 * a.
Proof.
  intros H. unfold u8. rewrite Z.shiftl_mul_pow2 by lia.
  change (2 ^ 1) with 2. rewrite Z.mod_small; lia.
Qed.

Lemma lor_double_1 (a : Z) : Z.lor (2 * a) 1 = 2 * a + 1.
Proof.
  assert (H : Z.land (2 * a) 1 = 0).
  { change 1 with (Z.ones 1). rewrite Z.land_ones by lia.
    change (2 ^ 1) with 2. rewrite Z.mul_comm. apply Z.mod_mul. lia. }
  rewrite <- Z.lxor_lor by exact H.
  symmetry. apply Z.add_nocarry_lxor. exact H.
Qed.

Lemma shiftl1_lor1_byte (a : Z) :
  0 <= a < 128 -> u8 (Z.lor (Z.shiftl a 1) 1) = 2 * a + 1.
Proof.
  intros H. rewrite Z.shiftl_mul_pow2 by lia. change (2 ^ 1) with 2.
  rewrite (Z.mul_comm a 2), lor_double_1.
  unfold u8. rewrite Z.mod_small; lia.
Qed.

Lemma PutI2C_eq (a n b : Z) (ns : bool) (m : machine) :
  exec (PutI2C a n b ns) m =
  mkMachine (mkI2C (u8 (Z.shiftl a 1)) n b ns I2C_WORKING)
            (ram m) (TWSR m) (TWDR m) (Z.lor (TWCR m) START_MASK) (TWAR m)
            (actions m ++ [START]).
Proof. destruct m as [[sa n0 p ns0 st] r sr dr cr ar l]. reflexivity. Qed.

Lemma GetI2C_eq (a n b : Z) (m : machine) :
  exec (GetI2C a n b) m =
  mkMachine (mkI2C (u8 (Z.lor (Z.shiftl a 1) 1)) n b (NoStop (I2C m))
                   I2C_WORKING)
            (ram m) (TWSR m) (TWDR m) (Z.lor (TWCR m) START_MASK) (TWAR m)
            (actions m ++ [START]).
Proof. destruct m as [[sa n0 p ns0 st] r sr dr cr ar l]. reflexivity. Qed.

Lemma I2CInit_eq (k o : Z) (pu : bool) (m : machine) :
  I2C (exec (I2CInit k o pu) m) = mkI2C 0 0 0 false I2C_COMPLETE.
Proof. destruct m as [[sa n0 p ns0 st] r sr dr cr ar l]. reflexivity. Qed.

Ltac submit_body :=
  rewrite ?PutI2C_eq, ?GetI2C_eq, ?I2CInit_eq;
  unfold done_by, I2CStatus, I2CBusy;
  cbn [I2C ram TWSR TWDR TWCR TWAR actions
       SlaveAddr nBytes Buffer NoStop Status].

(** C3.  For a 7-bit slave address [a], [PutI2C] stores [a << 1] in the
    descriptor's address byte, with the direction bit (bit 0) clear, and
    [GetI2C] stores [(a << 1) | 1], with the direction bit set: the address
    byte is [(address << 1) | direction]. *)
Theorem submit_address_byte (a n b : Z) (ns : bool) (m : machine) :
  0 <= a < 128 ->
  let w := SlaveAddr (I2C (exec (PutI2C a n b ns) m)) in
  let r := SlaveAddr (I2C (exec (GetI2C a n b) m)) in
  w = Z.lor (Z.shiftl a 1) 0 /\ Z.testbit w 0 = false /\
  r = Z.lor (Z.shiftl a 1) 1 /\ Z.testbit r 0 = true.
Proof.
  intros Ha. submit_body.
  rewrite shiftl1_byte, shiftl1_lor1_byte by exact Ha.
  rewrite Z.lor_0_r, Z.shiftl_mul_pow2 by lia. change (2 ^ 1) with 2.
  rewrite (Z.mul_comm a 2), lor_double_1.
  rewrite Z.testbit_even_0, Z.testbit_odd_0. conjs; reflexivity.
Qed.

Lemma submit_address_byte_witness :
  0 <= 0x50 < 128 /\
  SlaveAddr (I2C (exec (PutI2C 0x50 1 100 false) m0)) = 0xA0 /\
  SlaveAddr (I2C (exec (GetI2C 0x50 1 100) m0)) = 0xA1.
Proof.
  assert (Ha : 0 <= 0x50 < 128) by lia.
  split; [exact Ha|].
  destruct (submit_address_byte 0x50 1 100 false m0 Ha)
    as (Hw & _ & Hr & _).
  split; [exact Hw | exact Hr].
Defined.

(** ** Write transactions *)

(** C2.  At an address-ACK(write) or data-ACK(write) event: with no byte
    left the handler marks the transfer COMPLETE and issues STOP unless
    [NoStop] is set (then it touches no register); otherwise it writes
    the byte under the cursor to the data register, advances the cursor,
    decrements the count and steps the bus, leaving the status as it was.
    A zero-byte write is COMPLETE at the address-ACK: the only byte ever
    written to the data register is the address byte, and the count ends
    at 0. *)
Theorem write_ack_event (m : machine) (e : event) :
  ev_code e = TW_MT_SLA_ACK \/ ev_code e = TW_MT_DATA_ACK ->
  let d := I2C m in
  let m' := raise e m in
  let d' := I2C m' in
  (if nBytes d =? 0 then
     Status d' = I2C_COMPLETE /\
     done_by m m' (if NoStop d then [] else [STOP]) /\
     nBytes d' = 0 /\ Buffer d' = Buffer d /\ ram m' = ram m
   else
     done_by m m' [WRITE_TWDR (ram m (Buffer d)); STEP] /\
     TWDR m' = ram m (Buffer d) /\
     Buffer d' = Buffer d + 1 /\
     nBytes d' = u8 (nBytes d - 1) /\
     (0 < nBytes d < 256 -> nBytes d' = nBytes d - 1) /\
     Status d' = Status d /\ ram m' = ram m) /\
  (forall (a p : Z) (ns : bool) (s : event),
      ev_code s = TW_START -> ev_code e = TW_MT_SLA_ACK ->
      let mz := run [s; e] (exec (PutI2C a 0 p ns) m) in
      I2CStatus mz = I2C_COMPLETE /\ nBytes (I2C mz) = 0 /\
      ram mz = ram m /\
      done_by m mz ([START; WRITE_TWDR (u8 (Z.shiftl a 1));
                     CLR_BIT_TWCR TWSTA]
                    ++ if ns then [] else [STOP])).
Proof.
  intros H. cbv zeta. split.
  - on_event ISR_MT_ACK H.
    destruct (nBytes (I2C m) =? 0) eqn:En.
    + apply Z.eqb_eq in En.
      cbn [I2C ram TWDR actions Status nBytes Buffer].
      destruct (NoStop (I2C m)); conjs; try reflexivity; exact En.
    + cbn [I2C ram TWDR actions Status nBytes Buffer].
      conjs; try reflexivity.
      intros Hr. unfold u8. rewrite Z.mod_small; lia.
  - intros a p ns s Hs He. cbv zeta. cbn [run].
    rewrite PutI2C_eq.
    set (m1 := mkMachine _ _ _ _ _ _ _).
    assert (E1 : raise s m1 =
                 effect (latch s m1) (I2C m1) (ram m) (SlaveAddr (I2C m1))
                        (Z.land (TWCR m1) (Z.lnot (_PIN_MASK TWSTA)))
                        [WRITE_TWDR (SlaveAddr (I2C m1));
                         CLR_BIT_TWCR TWSTA]).
    { rewrite raise_eq, ISR_START by (rewrite twi_status_latch; tauto).
      reflexivity. }
    rewrite E1. set (m2 := effect _ _ _ _ _ _).
    rewrite raise_eq, ISR_MT_ACK by (rewrite twi_status_latch; tauto).
    unfold done_by, I2CStatus.
    destruct ns; cbn; rewrite <- !app_assoc; conjs; reflexivity.
Qed.

Lemma write_ack_event_witness :
  let e := mkEvent 0x18 0xA0 in
  let s := mkEvent 0x08 0 in
  let m1 := raise s (exec (PutI2C 0x50 1 100 false) m0) in
  (ev_code e = TW_MT_SLA_ACK \/ ev_code e = TW_MT_DATA_ACK) /\
  nBytes (I2C (raise e m1)) = nBytes (I2C m1) - 1 /\
  I2CStatus (run [s; e] (exec (PutI2C 0x50 0 100 false) m1)) = I2C_COMPLETE.
Proof.
  intros e s m1.
  assert (H : ev_code e = TW_MT_SLA_ACK \/ ev_code e = TW_MT_DATA_ACK)
    by (left; reflexivity).
  split; [exact H|].
  destruct (write_ack_event m1 e H) as [T1 T2].
  split.
  - change (nBytes (I2C m1) =? 0) with false in T1. cbv iota in T1.
    destruct T1 as (_ & _ & _ & _ & Hdec & _).
    apply Hdec. change (nBytes (I2C m1)) with 1. lia.
  - apply (T2 0x50 100 false s); reflexivity.
Defined.

(** ** Zero-byte reads *)

Lemma lor_keeps_bit (x mask i : Z) :
  Z.testbit mask i = false -> Z.testbit (Z.lor x mask) i = Z.testbit x i.
Proof. intros H. now rewrite Z.lor_spec, H, orb_false_r. Qed.

(** C4.  A read with byte count 0: at the address-ACK(read) event the
    handler marks the transfer COMPLETE and issues STOP, and nothing
    else: no acknowledge-enable access, no step, no access to the data
    register; memory, cursor and count (0) are as they were. *)
Theorem read_zero_bytes (m : machine) (e : event) :
  ev_code e = TW_MR_SLA_ACK ->
  (nBytes (I2C m) = 0 ->
   let m' := raise e m in
   I2CStatus m' = I2C_COMPLETE /\ done_by m m' [STOP] /\
   ram m' = ram m /\ nBytes (I2C m') = 0 /\
   Buffer (I2C m') = Buffer (I2C m) /\
   ack_enabled m' = ack_enabled m) /\
  (forall (a p : Z) (s : event),
      ev_code s = TW_START ->
      let mz := run [s; e] (exec (GetI2C a 0 p) m) in
      I2CStatus mz = I2C_COMPLETE /\ nBytes (I2C mz) = 0 /\
      Buffer (I2C mz) = p /\ ram mz = ram m /\
      done_by m mz [START; WRITE_TWDR (u8 (Z.lor (Z.shiftl a 1) 1));
                    CLR_BIT_TWCR TWSTA; STOP]).
Proof.
  intros He. split.
  - intros Hn. cbv zeta. on_event ISR_MR_SLA_ACK He.
    rewrite Hn. cbn [Z.eqb I2C ram actions TWCR Status nBytes Buffer].
    conjs; try reflexivity.
    unfold ack_enabled. cbn [TWCR]. now apply lor_keeps_bit.
  - intros a p s Hs. cbv zeta. cbn [run].
    on_event ISR_MR_SLA_ACK He. on_event ISR_START Hs.
    submit_body. cbn [Z.eqb I2C ram actions TWCR Status nBytes Buffer].
    rewrite <- !app_assoc. conjs; reflexivity.
Qed.

Lemma read_zero_bytes_witness :
  let e := mkEvent 0x40 0xA1 in
  let s := mkEvent 0x08 0 in
  ev_code e = TW_MR_SLA_ACK /\ nBytes (I2C m0) = 0 /\
  ev_code s = TW_START /\
  I2CStatus (raise e m0) = I2C_COMPLETE /\
  I2CStatus (run [s; e] (exec (GetI2C 0x50 0 100) m0)) = I2C_COMPLETE.
Proof.
  intros e s.
  assert (He : ev_code e = TW_MR_SLA_ACK) by reflexivity.
  assert (Hn : nBytes (I2C m0) = 0) by reflexivity.
  assert (Hs : ev_code s = TW_START) by reflexivity.
  destruct (read_zero_bytes m0 e He) as [T1 T2].
  conjs; try assumption.
  - apply (T1 Hn).
  - apply (T2 0x50 100 s Hs).
Defined.

(** ** Error events *)

(** C5.  At an address-NACK event, of a write or of a read, the handler
    sets the status to NO_SLAVE_ACK and issues STOP, and does nothing
    else: memory, cursor and count are unchanged and the data register
    is neither written nor read. *)
Theorem address_nack_event (m : machine) (e : event) :
  ev_code e = TW_MT_SLA_NACK \/ ev_code e = TW_MR_SLA_NACK ->
  let m' := raise e m in
  I2CStatus m' = I2C_NO_SLAVE_ACK /\ done_by m m' [STOP] /\
  ram m' = ram m /\ nBytes (I2C m') = nBytes (I2C m) /\
  Buffer (I2C m') = Buffer (I2C m) /\ TWDR m' = ev_TWDR e.
Proof.
  intros H. cbv zeta. on_event ISR_SLA_NACK H. conjs; reflexivity.
Qed.

Lemma address_nack_event_witness :
  let e := mkEvent 0x48 0xA1 in
  let m := raise (mkEvent 0x08 0) (exec (GetI2C 0x50 3 100) m0) in
  (ev_code e = TW_MT_SLA_NACK \/ ev_code e = TW_MR_SLA_NACK) /\
  I2CStatus (raise e m) = I2C_NO_SLAVE_ACK /\
  nBytes (I2C (raise e m)) = nBytes (I2C m).
Proof.
  intros e m.
  assert (H : ev_code e = TW_MT_SLA_NACK \/ ev_code e = TW_MR_SLA_NACK)
    by (right; reflexivity).
  destruct (address_nack_event m e H) as (T1 & _ & _ & T2 & _).
  conjs; assumption.
Defined.

(** C6.  At an arbitration-lost event the handler sets the status to
    ARB_LOST and steps the bus; that step is its only register access,
    so no STOP is issued.  Count, cursor and memory are unchanged. *)
Theorem arbitration_lost_event (m : machine) (e : event) :
  ev_code e = TW_ARB_LOST ->
  let m' := raise e m in
  I2CStatus m' = I2C_ARB_LOST /\ done_by m m' [STEP] /\
  (forall l, done_by m m' l -> ~ In STOP l) /\
  nBytes (I2C m') = nBytes (I2C m) /\
  Buffer (I2C m') = Buffer (I2C m) /\ ram m' = ram m.
Proof.
  intros H. cbv zeta. on_event ISR_ARB_LOST H.
  conjs; try reflexivity.
  intros l Hl. apply app_inv_head in Hl. subst l.
  intros [Hin | []]. discriminate Hin.
Qed.

Lemma arbitration_lost_event_witness :
  let e := mkEvent 0x38 0 in
  let m := raise (mkEvent 0x08 0) (exec (PutI2C 0x50 2 100 false) m0) in
  ev_code e = TW_ARB_LOST /\
  I2CStatus (raise e m) = I2C_ARB_LOST /\ ~ In STOP [STEP].
Proof.
  intros e m.
  assert (H : ev_code e = TW_ARB_LOST) by reflexivity.
  destruct (arbitration_lost_event m e H) as (T1 & T2 & T3 & _).
  conjs; try assumption.
  apply T3. exact T2.
Defined.

(** ** Codes without a case *)

(** C10.  A code outside the master-mode set the [switch] handles makes
    the handler return at once: the descriptor, the memory and the
    registers are what they were when the interrupt fired and no
    register access is logged.  Every slave-mode code and the
    no-information code are such codes. *)
Theorem unhandled_code_ignored (m : machine) (e : event) :
  ~ In (ev_code e) handled_codes ->
  let m' := raise e m in
  m' = latch e m /\ I2C m' = I2C m /\ done_by m m' [] /\
  ram m' = ram m /\ TWCR m' = TWCR m /\ TWDR m' = ev_TWDR e /\
  (forall c d, In c unhandled_codes ->
               ev_code (mkEvent c d) = c /\ ~ In c handled_codes).
Proof.
  intros H. cbv zeta. rewrite raise_eq. unfold exec.
  rewrite ISR_other by (rewrite twi_status_latch; exact H).
  unfold done_by. cbn [snd latch I2C ram TWCR TWDR actions].
  rewrite app_nil_r. do 6 (split; [reflexivity|]).
  intros c d Hc. cbn in Hc.
  repeat (destruct Hc as [<- | Hc];
          [ split; [reflexivity | cbn; intuition discriminate] |]).
  destruct Hc.
Qed.

Lemma unhandled_code_ignored_witness :
  let e := mkEvent TW_SR_SLA_ACK 0 in
  let m := exec (PutI2C 0x50 2 100 false) m0 in
  ~ In (ev_code e) handled_codes /\
  I2C (raise e m) = I2C m /\ actions (raise e m) = actions m.
Proof.
  intros e m.
  assert (H : ~ In (ev_code e) handled_codes)
    by (vm_compute; intuition discriminate).
  destruct (unhandled_code_ignored m e H) as (_ & T1 & T2 & _).
  unfold done_by in T2. rewrite app_nil_r in T2.
  conjs; assumption.
Defined.

(** ** What the handler never touches, and the values it gives the status *)

Ltac split_ifs :=
  repeat match goal with
         | |- context [if ?b then _ else _] => destruct b
         end.

Lemma ISR_frame (m : machine) :
  let m' := exec ISR m in
  NoStop (I2C m') = NoStop (I2C m) /\
  SlaveAddr (I2C m') = SlaveAddr (I2C m) /\
  (Status (I2C m') = Status (I2C m) \/ terminal (Status (I2C m')) = true).
Proof.
  cbv zeta.
  destruct (In_dec Z.eq_dec (twi_status m) handled_codes) as [Hin | Hout].
  - cbn in Hin.
    repeat (destruct Hin as [E | Hin]; [symmetry in E |]);
      try contradiction;
      first [ rewrite ISR_START by tauto
            | rewrite ISR_MT_ACK by tauto
            | rewrite ISR_SLA_NACK by tauto
            | rewrite (ISR_MT_DATA_NACK m E)
            | rewrite (ISR_ARB_LOST m E)
            | rewrite (ISR_MR_SLA_ACK m E)
            | rewrite ISR_MR_DATA by tauto
            | rewrite (ISR_BUS_ERROR m E) ];
      cbv zeta; split_ifs; unfold effect;
      cbn [I2C NoStop SlaveAddr Status terminal]; tauto.
  - unfold exec. rewrite (ISR_other m Hout). cbn [snd]. tauto.
Qed.

Lemma raise_status (e : event) (m : machine) :
  I2CStatus (raise e m) = I2CStatus m \/
  terminal (I2CStatus (raise e m)) = true.
Proof.
  rewrite raise_eq. unfold I2CStatus.
  destruct (ISR_frame (latch e m)) as (_ & _ & H). exact H.
Qed.

Lemma raise_NoStop (e : event) (m : machine) :
  NoStop (I2C (raise e m)) = NoStop (I2C m).
Proof.
  rewrite raise_eq. destruct (ISR_frame (latch e m)) as (H & _). exact H.
Qed.

Lemma run_NoStop (evs : list event) (m : machine) :
  NoStop (I2C (run evs m)) = NoStop (I2C m).
Proof.
  revert m. induction evs as [| e evs IH]; intros m; cbn [run].
  - reflexivity.
  - rewrite IH. apply raise_NoStop.
Qed.

Lemma run_status (evs : list event) (m : machine) :
  I2CStatus (run evs m) = I2CStatus m \/
  terminal (I2CStatus (run evs m)) = true.
Proof.
  revert m. induction evs as [| e evs IH]; intros m; cbn [run].
  - now left.
  - destruct (IH (raise e m)) as [H | H]; [| now right].
    rewrite H. apply raise_status.
Qed.

Lemma run_app (evs1 evs2 : list event) (m : machine) :
  run (evs1 ++ evs2) m = run evs2 (run evs1 m).
Proof.
  revert m. induction evs1 as [| e evs1 IH]; intros m; cbn [run app].
  - reflexivity.
  - apply IH.
Qed.

Lemma submit_status (m : machine) (a n b : Z) (ns : bool) (k o : Z)
    (pu : bool) :
  I2CStatus (exec (PutI2C a n b ns) m) = I2C_WORKING /\
  I2CStatus (exec (GetI2C a n b) m) = I2C_WORKING /\
  I2CStatus (exec (I2CInit k o pu) m) = I2C_COMPLETE.
Proof. submit_body. conjs; reflexivity. Qed.

Lemma do_call_status (c : call) (m : machine) :
  I2CStatus m <> I2C_REP_START -> I2CStatus (do_call c m) <> I2C_REP_START.
Proof.
  intros H. destruct c as [k o pu | a n b ns | a n b | e]; cbn [do_call].
  - destruct (submit_status m 0 0 0 false k o pu) as (_ & _ & E).
    rewrite E. discriminate.
  - destruct (submit_status m a n b ns 0 0 false) as (E & _).
    rewrite E. discriminate.
  - destruct (submit_status m a n b false 0 0 false) as (_ & E & _).
    rewrite E. discriminate.
  - destruct (raise_status e m) as [E | E].
    + now rewrite E.
    + intros E'. rewrite E' in E. discriminate E.
Qed.

Lemma history_status (cs : list call) (m : machine) :
  I2CStatus m <> I2C_REP_START -> I2CStatus (history cs m) <> I2C_REP_START.
Proof.
  revert m. induction cs as [| c cs IH]; intros m H; cbn [history].
  - exact H.
  - apply IH. now apply do_call_status.
Qed.

(** C8.  The handler never gives the status the value REP_START: after
    any sequence of interrupts the status is the one it had before or
    one of COMPLETE, NO_SLAVE_ACK, SLAVE_DATA_NACK, ARB_LOST, BUS_ERROR.
    So from [I2CInit] on, whatever the calls and interrupts, [I2CStatus]
    never returns REP_START. *)
Theorem status_never_REP_START (m : machine) (evs : list event)
    (cs : list call) (k o : Z) (pu : bool) :
  (I2CStatus (run evs m) = I2CStatus m \/
   In (I2CStatus (run evs m))
      [I2C_COMPLETE; I2C_NO_SLAVE_ACK; I2C_SLAVE_DATA_NACK; I2C_ARB_LOST;
       I2C_BUS_ERROR]) /\
  I2CStatus (history cs (exec (I2CInit k o pu) m)) <> I2C_REP_START.
Proof.
  split.
  - destruct (run_status evs m) as [H | H]; [now left | right].
    destruct (I2CStatus (run evs m)); cbn in *; try discriminate H; tauto.
  - apply history_status.
    destruct (submit_status m 0 0 0 false k o pu) as (_ & _ & E).
    rewrite E. discriminate.
Qed.

(** ** Busy until the handler reaches a terminal status *)

Lemma busy_run (evs : list event) (m : machine) :
  I2CBusy m = true -> busy_until_terminal evs m.
Proof.
  revert m. induction evs as [| e evs IH]; intros m Hb.
  - left. cbn [busy_throughout]. now rewrite Hb.
  - destruct (raise_status e m) as [Hs | Ht].
    + assert (Hb' : I2CBusy (raise e m) = true).
      { unfold I2CBusy in *. unfold I2CStatus in Hs. now rewrite Hs. }
      destruct (IH (raise e m) Hb') as [H | (evs1 & e' & evs2 & H1 & H2 & H3)].
      * left. cbn [busy_throughout]. now rewrite Hb, H.
      * right. exists (e :: evs1), e', evs2. subst evs.
        split; [reflexivity|]. split; [| exact H3].
        cbn [busy_throughout]. now rewrite Hb, H2.
    + right. exists [], e, evs. split; [reflexivity|].
      split; [| exact Ht]. cbn [busy_throughout]. now rewrite Hb.
Qed.

(** C7.  [PutI2C] and [GetI2C] set the status to WORKING and [I2CInit]
    sets it to COMPLETE; an interrupt leaves the status as it was or
    sets one of the terminal values.  So after a submission [I2CBusy]
    answers true, and keeps answering true through any sequence of
    interrupts up to the one at which the handler sets a terminal
    status. *)
Theorem busy_after_submission (m : machine) (a n b : Z) (ns : bool)
    (k o : Z) (pu : bool) (e : event) (evs : list event) :
  let mw := exec (PutI2C a n b ns) m in
  let mr := exec (GetI2C a n b) m in
  I2CStatus mw = I2C_WORKING /\ I2CStatus mr = I2C_WORKING /\
  I2CStatus (exec (I2CInit k o pu) m) = I2C_COMPLETE /\
  I2CBusy mw = true /\ I2CBusy mr = true /\
  (I2CStatus (raise e m) = I2CStatus m \/
   terminal (I2CStatus (raise e m)) = true) /\
  busy_until_terminal evs mw /\ busy_until_terminal evs mr.
Proof.
  cbv zeta.
  destruct (submit_status m a n b ns k o pu) as (Hw & Hr & Hi).
  assert (Bw : I2CBusy (exec (PutI2C a n b ns) m) = true).
  { unfold I2CBusy. unfold I2CStatus in Hw. now rewrite Hw. }
  assert (Br : I2CBusy (exec (GetI2C a n b) m) = true).
  { unfold I2CBusy. unfold I2CStatus in Hr. now rewrite Hr. }
  conjs; try assumption.
  - apply raise_status.
  - now apply busy_run.
  - now apply busy_run.
Qed.

(** ** Read transactions *)

Lemma step_keeps_ack (x : Z) :
  Z.testbit (Z.lor x (_PIN_MASK TWINT)) TWEA = Z.testbit x TWEA.
Proof. now apply lor_keeps_bit. Qed.

Lemma stop_keeps_ack (x : Z) :
  Z.testbit (Z.lor x STOP_MASK) TWEA = Z.testbit x TWEA.
Proof. now apply lor_keeps_bit. Qed.

Lemma clr_ack (x : Z) :
  Z.testbit (Z.land x (Z.lnot (_PIN_MASK TWEA))) TWEA = false.
Proof. rewrite Z.land_spec. apply andb_false_r. Qed.

Lemma set_ack (x : Z) : Z.testbit (Z.lor x (_PIN_MASK TWEA)) TWEA = true.
Proof. rewrite Z.lor_spec. apply orb_true_r. Qed.

Lemma u8_pred (n : Z) : 0 < n < 256 -> u8 (n - 1) = n - 1.
Proof. intros H. unfold u8. apply Z.mod_small. lia. Qed.

(** One data-received event in the course of a transfer: [n] bytes are
    still expected, with [0 < n < 256]. *)
Lemma data_step (m : machine) (e : event) :
  data_event e -> 0 < nBytes (I2C m) < 256 ->
  let n' := nBytes (I2C m) - 1 in
  raise e m =
  mkMachine
    (mkI2C (SlaveAddr (I2C m)) n' (Buffer (I2C m) + 1) (NoStop (I2C m))
           (if n' =? 0 then I2C_COMPLETE else Status (I2C m)))
    (fun a => if a =? Buffer (I2C m) then ev_TWDR e else ram m a)
    (ev_TWSR e) (ev_TWDR e)
    (Z.lor (if n' =? 1 then Z.land (TWCR m) (Z.lnot (_PIN_MASK TWEA))
            else TWCR m)
           (if n' =? 0 then STOP_MASK else _PIN_MASK TWINT))
    (TWAR m)
    (actions m ++
     READ_TWDR (ev_TWDR e)
     :: (if n' =? 1 then [CLR_BIT_TWCR TWEA] else [])
     ++ [if n' =? 0 then STOP else STEP]).
Proof.
  intros He Hn. cbv zeta. on_event ISR_MR_DATA He. cbv zeta.
  rewrite (u8_pred _ Hn).
  destruct (nBytes (I2C m) - 1 =? 0); reflexivity.
Qed.

Lemma data_phase_prefix (pre : list event) :
  forall (m : machine) (e : event) (post : list event),
    Forall data_event (pre ++ e :: post) ->
    nBytes (I2C m) = Z.of_nat (length (pre ++ e :: post)) ->
    nBytes (I2C m) < 256 ->
    ack_enabled m = (1 <? nBytes (I2C m)) ->
    let mk := run pre m in
    nBytes (I2C mk) = Z.of_nat (length (e :: post)) /\
    ack_enabled mk = (1 <? nBytes (I2C mk)) /\
    Buffer (I2C mk) = Buffer (I2C m) + Z.of_nat (length pre) /\
    (forall a, a < Buffer (I2C m) -> ram mk a = ram m a) /\
    (forall i, (i < length pre)%nat ->
               ram mk (Buffer (I2C m) + Z.of_nat i) = ev_TWDR (nth i pre e)).
Proof.
  induction pre as [| x pre IH]; intros m e post Hall Hn Hlt Hack; cbv zeta.
  - cbn [run app length] in *. rewrite Z.add_0_r.
    conjs; try assumption; try reflexivity.
    intros i Hi. inversion Hi.
  - cbn [run]. cbn [app] in Hall, Hn. inversion Hall as [| ? ? Hx Hall']; subst.
    assert (Hr : 0 < nBytes (I2C m) < 256) by (cbn [length] in Hn; lia).
    assert (Hlen : nBytes (I2C m) - 1 =
                   Z.of_nat (length (pre ++ e :: post))).
    { cbn [length] in Hn. lia. }
    assert (Hpos : 0 < nBytes (I2C m) - 1).
    { rewrite Hlen, length_app. cbn [length]. lia. }
    pose proof (data_step m x Hx Hr) as Hstep. cbv zeta in Hstep.
    destruct (IH (raise x m) e post Hall') as (I1 & I2 & I3 & I4 & I5).
    { rewrite Hstep. cbn [I2C nBytes]. exact Hlen. }
    { rewrite Hstep. cbn [I2C nBytes]. lia. }
    { rewrite Hstep. unfold ack_enabled. cbn [TWCR I2C nBytes].
      replace (nBytes (I2C m) - 1 =? 0) with false by (symmetry; lia).
      rewrite step_keeps_ack.
      destruct (nBytes (I2C m) - 1 =? 1) eqn:E1.
      - rewrite clr_ack. symmetry. lia.
      - fold (ack_enabled m). rewrite Hack. lia. }
    assert (Hb : Buffer (I2C (raise x m)) = Buffer (I2C m) + 1)
      by (rewrite Hstep; reflexivity).
    rewrite Hb in I3, I4, I5.
    assert (Hram : forall a, a <> Buffer (I2C m) ->
                             ram (raise x m) a = ram m a).
    { intros a Ha. rewrite Hstep. cbn [ram].
      apply Z.eqb_neq in Ha. now rewrite Ha. }
    assert (Hram0 : ram (raise x m) (Buffer (I2C m)) = ev_TWDR x).
    { rewrite Hstep. cbn [ram]. now rewrite Z.eqb_refl. }
    conjs.
    + exact I1.
    + exact I2.
    + rewrite I3. cbn [length]. lia.
    + intros a Ha. rewrite I4 by lia. apply Hram. lia.
    + intros [| i] Hi.
      * cbn [nth]. rewrite Z.add_0_r, I4 by lia. exact Hram0.
      * cbn [nth length] in *.
        replace (Buffer (I2C m) + Z.of_nat (S i))
          with (Buffer (I2C m) + 1 + Z.of_nat i) by lia.
        apply I5. lia.
Qed.

Lemma sla_ack_step (m : machine) (sla : event) :
  ev_code sla = TW_MR_SLA_ACK -> 0 < nBytes (I2C m) ->
  let m1 := raise sla m in
  I2C m1 = I2C m /\ ram m1 = ram m /\
  done_by m m1 [if nBytes (I2C m) =? 1 then CLR_BIT_TWCR TWEA
                else SET_BIT_TWCR TWEA; STEP] /\
  ack_enabled m1 = negb (nBytes (I2C m) =? 1).
Proof.
  intros Hs Hn. cbv zeta. on_event ISR_MR_SLA_ACK Hs.
  replace (nBytes (I2C m) =? 0) with false by (symmetry; lia).
  unfold ack_enabled.
  destruct (nBytes (I2C m) =? 1); cbn [I2C ram actions TWCR negb];
    rewrite step_keeps_ack; [rewrite clr_ack | rewrite set_ack];
    conjs; reflexivity.
Qed.

(** C1.  A read of [n > 0] bytes, from the address-ACK(read) event on.
    At the address-ACK the handler clears acknowledge-enable if [n = 1]
    and sets it otherwise, then steps.  At each data-received event it
    stores the byte under the cursor, decrements the count, and clears
    acknowledge-enable when the count has become 1.  Hence, when a byte
    is about to be received, acknowledge-enable is on exactly if that
    byte is not the final one; and at the end the buffer holds the bytes
    in arrival order, the count is 0 and the status is COMPLETE. *)
Theorem read_transaction (m : machine) (sla : event) (evs : list event) :
  ev_code sla = TW_MR_SLA_ACK ->
  Forall data_event evs ->
  0 < nBytes (I2C m) < 256 ->
  nBytes (I2C m) = Z.of_nat (length evs) ->
  let n := nBytes (I2C m) in
  let p := Buffer (I2C m) in
  let m1 := raise sla m in
  let m' := run evs m1 in
  done_by m m1 [if n =? 1 then CLR_BIT_TWCR TWEA else SET_BIT_TWCR TWEA;
                STEP] /\
  ack_enabled m1 = negb (n =? 1) /\
  (forall pre e post,
      evs = pre ++ e :: post ->
      let mk := run pre m1 in
      let mk' := raise e mk in
      let left := Z.of_nat (length post) in
      ack_enabled mk = negb (left =? 0) /\
      Buffer (I2C mk) = p + Z.of_nat (length pre) /\
      ram mk' (Buffer (I2C mk)) = ev_TWDR e /\
      Buffer (I2C mk') = Buffer (I2C mk) + 1 /\
      nBytes (I2C mk') = nBytes (I2C mk) - 1 /\
      nBytes (I2C mk') = left /\
      done_by mk mk'
        (READ_TWDR (ev_TWDR e)
         :: (if left =? 1 then [CLR_BIT_TWCR TWEA] else [])
         ++ [if left =? 0 then STOP else STEP])) /\
  (forall i, (i < length evs)%nat ->
             ram m' (p + Z.of_nat i) = ev_TWDR (nth i evs sla)) /\
  I2CStatus m' = I2C_COMPLETE /\ nBytes (I2C m') = 0.
Proof.
  intros Hs Hall Hn Hlen. cbv zeta.
  destruct (sla_ack_step m sla Hs (proj1 Hn)) as (Hd & Hr & Hact & Hack).
  assert (Hack1 : ack_enabled (raise sla m) =
                  (1 <? nBytes (I2C (raise sla m)))).
  { rewrite Hack, Hd. destruct (Z.eqb_spec (nBytes (I2C m)) 1); cbn [negb];
      symmetry; lia. }
  assert (Hpre : forall pre e post, evs = pre ++ e :: post ->
            let mk := run pre (raise sla m) in
            0 < nBytes (I2C mk) < 256 /\
            nBytes (I2C mk) - 1 = Z.of_nat (length post) /\
            ack_enabled mk = negb (Z.of_nat (length post) =? 0) /\
            Buffer (I2C mk) = Buffer (I2C m) + Z.of_nat (length pre) /\
            (forall i, (i < length pre)%nat ->
               ram mk (Buffer (I2C m) + Z.of_nat i) =
               ev_TWDR (nth i pre e))).
  { intros pre e post E. cbv zeta.
    assert (Hall' : Forall data_event (pre ++ e :: post))
      by (rewrite <- E; exact Hall).
    assert (Hn1 : nBytes (I2C (raise sla m)) =
                  Z.of_nat (length (pre ++ e :: post)))
      by (rewrite Hd, <- E; exact Hlen).
    assert (Hlt : nBytes (I2C (raise sla m)) < 256) by (rewrite Hd; lia).
    destruct (data_phase_prefix pre (raise sla m) e post Hall' Hn1 Hlt Hack1)
      as (I1 & I2 & I3 & _ & I5).
    rewrite Hd in I3, I5.
    assert (Hk : nBytes (I2C (run pre (raise sla m))) - 1 =
                 Z.of_nat (length post)) by (cbn [length] in I1; lia).
    assert (Hb : Z.of_nat (length (pre ++ e :: post)) < 256)
      by (rewrite <- E; lia).
    rewrite length_app in Hb. cbn [length] in Hb, I1.
    conjs; try assumption; try lia.
    rewrite I2. destruct (Z.eqb_spec (Z.of_nat (length post)) 0);
      cbn [negb]; lia. }
  split; [exact Hact|]. split; [exact Hack|]. split; [| split].
  - intros pre e post E. cbv zeta.
    destruct (Hpre pre e post E) as (K1 & K2 & K3 & K4 & _).
    assert (He : data_event e).
    { subst evs. apply Forall_app in Hall. destruct Hall as [_ Hall].
      now inversion Hall. }
    pose proof (data_step (run pre (raise sla m)) e He K1) as Hstep.
    cbv zeta in Hstep. rewrite Hstep, K2. unfold done_by.
    cbn [I2C ram actions nBytes Buffer]. rewrite Z.eqb_refl.
    conjs; try assumption; try reflexivity; lia.
  - intros i Hi.
    destruct (exists_last (l := evs)) as (pre & e & E).
    { intros ->. cbn in Hi. lia. }
    destruct (Hpre pre e [] E) as (K1 & K2 & _ & K4 & K5).
    assert (He : data_event e).
    { subst evs. apply Forall_app in Hall. destruct Hall as [_ Hall].
      now inversion Hall. }
    pose proof (data_step (run pre (raise sla m)) e He K1) as Hstep.
    cbv zeta in Hstep.
    rewrite E, run_app. cbn [run]. rewrite Hstep. cbn [ram].
    rewrite E, length_app in Hi. cbn [length] in Hi.
    destruct (Nat.eq_dec i (length pre)) as [-> | Hne].
    + rewrite K4, Z.eqb_refl, nth_middle. reflexivity.
    + replace (Buffer (I2C m) + Z.of_nat i =?
               Buffer (I2C (run pre (raise sla m)))) with false
        by (symmetry; rewrite K4; lia).
      rewrite app_nth1 by lia. rewrite K5 by lia.
      f_equal. apply nth_indep. lia.
  - destruct (exists_last (l := evs)) as (pre & e & E).
    { intros ->. cbn [length] in Hlen. lia. }
    destruct (Hpre pre e [] E) as (K1 & K2 & _).
    assert (He : data_event e).
    { subst evs. apply Forall_app in Hall. destruct Hall as [_ Hall].
      now inversion Hall. }
    pose proof (data_step (run pre (raise sla m)) e He K1) as Hstep.
    cbv zeta in Hstep.
    rewrite E, run_app. cbn [run]. rewrite Hstep. unfold I2CStatus.
    cbn [I2C Status nBytes]. rewrite K2. cbn [length Z.of_nat Z.eqb].
    split; reflexivity.
Qed.

Lemma read_transaction_witness :
  let m := raise (mkEvent 0x08 0) (exec (GetI2C 0x50 3 100) m0) in
  let sla := mkEvent 0x40 0xA1 in
  let b1 := mkEvent 0x50 11 in
  let b2 := mkEvent 0x50 12 in
  let b3 := mkEvent 0x58 13 in
  let m' := run [b1; b2; b3] (raise sla m) in
  (ev_code sla = TW_MR_SLA_ACK /\ Forall data_event [b1; b2; b3] /\
   0 < nBytes (I2C m) < 256 /\ nBytes (I2C m) = 3) /\
  (ram m' 100 = 11 /\ ram m' 101 = 12 /\ ram m' 102 = 13) /\
  (ack_enabled (run [] (raise sla m)) = true /\
   ack_enabled (run [b1] (raise sla m)) = true /\
   ack_enabled (run [b1; b2] (raise sla m)) = false) /\
  I2CStatus m' = I2C_COMPLETE.
Proof.
  intros m sla b1 b2 b3 m'.
  assert (Hs : ev_code sla = TW_MR_SLA_ACK) by reflexivity.
  assert (Hall : Forall data_event [b1; b2; b3]).
  { repeat constructor; first [now left | now right]. }
  assert (E3 : nBytes (I2C m) = 3) by (vm_compute; reflexivity).
  assert (Hn : 0 < nBytes (I2C m) < 256) by (rewrite E3; lia).
  assert (Hlen : nBytes (I2C m) = Z.of_nat (length [b1; b2; b3]))
    by exact E3.
  destruct (read_transaction m sla [b1; b2; b3] Hs Hall Hn Hlen)
    as (_ & _ & Hev & Hbuf & Hst & _).
  assert (L0 : (0 < length [b1; b2; b3])%nat) by (cbn; lia).
  assert (L1 : (1 < length [b1; b2; b3])%nat) by (cbn; lia).
  assert (L2 : (2 < length [b1; b2; b3])%nat) by (cbn; lia).
  pose proof (Hbuf 0%nat L0) as B0.
  pose proof (Hbuf 1%nat L1) as B1.
  pose proof (Hbuf 2%nat L2) as B2.
  pose proof (proj1 (Hev [] b1 [b2; b3] eq_refl)) as A0.
  pose proof (proj1 (Hev [b1] b2 [b3] eq_refl)) as A1.
  pose proof (proj1 (Hev [b1; b2] b3 [] eq_refl)) as A2.
  clear Hev Hbuf.
  split; [conjs; solve [assumption | lia] |].
  split; [| split].
  - vm_compute in B0, B1, B2 |- *. conjs; assumption.
  - vm_compute in A0, A1, A2 |- *. conjs; assumption.
  - exact Hst.
Defined.

(** ** The stale NoStop of a read *)

Lemma read_event_NoStop (m : machine) (e : event) (ns : bool) :
  read_event e -> raise e (with_NoStop ns m) = with_NoStop ns (raise e m).
Proof.
  intros [He | He].
  - rewrite (raise_eq e (with_NoStop ns m)).
    rewrite ISR_MR_SLA_ACK by (rewrite twi_status_latch; exact He).
    on_event ISR_MR_SLA_ACK He.
    destruct m as [[sa n p ns0 st] r sr dr cr ar l].
    unfold with_NoStop, exec, set_NoStop, bind, get_I2C, put_I2C, id, effect,
      latch.
    cbn [fst snd I2C ram TWSR TWDR TWCR TWAR actions
         SlaveAddr nBytes Buffer NoStop Status].
    destruct (n =? 0); [reflexivity|]. destruct (n =? 1); reflexivity.
  - rewrite (raise_eq e (with_NoStop ns m)).
    rewrite ISR_MR_DATA by (rewrite twi_status_latch; exact He).
    on_event ISR_MR_DATA He.
    destruct m as [[sa n p ns0 st] r sr dr cr ar l].
    unfold with_NoStop, exec, set_NoStop, bind, get_I2C, put_I2C, id, effect,
      latch.
    cbn [fst snd I2C ram TWSR TWDR TWCR TWAR actions
         SlaveAddr nBytes Buffer NoStop Status].
    destruct (u8 (n - 1) =? 0); reflexivity.
Qed.

Lemma read_event_STOP (m : machine) (e : event) :
  read_event e ->
  let m' := raise e m in
  (I2CStatus m' = I2C_COMPLETE /\ exists l, done_by m m' (l ++ [STOP])) \/
  (I2CStatus m' = I2CStatus m /\ forall l, done_by m m' l -> ~ In STOP l).
Proof.
  intros [He | He]; cbv zeta.
  - on_event ISR_MR_SLA_ACK He.
    destruct (nBytes (I2C m) =? 0); [| destruct (nBytes (I2C m) =? 1)];
      cbn [I2C Status actions].
    + left. split; [reflexivity|]. now exists [].
    + right. split; [reflexivity|]. intros l Hl.
      apply app_inv_head in Hl. subst l. cbn. intuition discriminate.
    + right. split; [reflexivity|]. intros l Hl.
      apply app_inv_head in Hl. subst l. cbn. intuition discriminate.
  - on_event ISR_MR_DATA He. cbv zeta.
    destruct (u8 (nBytes (I2C m) - 1) =? 0); cbn [I2C Status actions].
    + left. split; [reflexivity|].
      now exists (READ_TWDR (ev_TWDR e)
                  :: (if u8 (nBytes (I2C m) - 1) =? 1
                      then [CLR_BIT_TWCR TWEA] else [])).
    + right. split; [reflexivity|]. intros l Hl.
      apply app_inv_head in Hl. subst l.
      destruct (u8 (nBytes (I2C m) - 1) =? 1); cbn; intuition discriminate.
Qed.

(** C9.  [GetI2C] arms the address byte, the count, the cursor and the
    status, and leaves [NoStop] as it finds it; the handler never writes
    [NoStop] either.  So a read submitted after a write with [NoStop]
    set runs with [NoStop] still set.  The read path of the handler
    (address-ACK(read) and data-received events) does not consult the
    field: its effect is the same whatever [NoStop] holds, and whenever
    it marks the transfer COMPLETE, STOP is the last thing it issues. *)
Theorem read_runs_with_stale_NoStop (m : machine) (a n p a' n' p' : Z)
    (evs : list event) (e : event) (ns : bool) :
  read_event e ->
  let mr := exec (GetI2C a n p) m in
  let mwr := exec (GetI2C a n p) (run evs (exec (PutI2C a' n' p' true) m)) in
  (SlaveAddr (I2C mr) = u8 (Z.lor (Z.shiftl a 1) 1) /\
   nBytes (I2C mr) = n /\ Buffer (I2C mr) = p /\
   Status (I2C mr) = I2C_WORKING /\ NoStop (I2C mr) = NoStop (I2C m)) /\
  NoStop (I2C mwr) = true /\
  NoStop (I2C (run evs mwr)) = true /\
  raise e (with_NoStop ns m) = with_NoStop ns (raise e m) /\
  ((I2CStatus (raise e m) = I2C_COMPLETE /\
    exists l, done_by m (raise e m) (l ++ [STOP])) \/
   (I2CStatus (raise e m) = I2CStatus m /\
    forall l, done_by m (raise e m) l -> ~ In STOP l)).
Proof.
  intros He. cbv zeta.
  assert (Hget : forall m1, NoStop (I2C (exec (GetI2C a n p) m1)) =
                            NoStop (I2C m1)).
  { intros m1. submit_body. reflexivity. }
  assert (Hput : NoStop (I2C (exec (PutI2C a' n' p' true) m)) = true).
  { submit_body. reflexivity. }
  split; [| split; [| split; [| split]]].
  - submit_body. conjs; reflexivity.
  - now rewrite Hget, run_NoStop.
  - now rewrite run_NoStop, Hget, run_NoStop.
  - now apply read_event_NoStop.
  - now apply read_event_STOP.
Qed.

Lemma read_runs_with_stale_NoStop_witness :
  let s := mkEvent 0x08 0 in
  let w := [s; mkEvent 0x18 0xA0; mkEvent 0x28 7] in
  let e := mkEvent 0x58 42 in
  let mr := run [mkEvent 0x10 0; mkEvent 0x40 0xA1]
                (exec (GetI2C 0x50 1 200)
                      (run w (exec (PutI2C 0x50 1 100 true) m0))) in
  read_event e /\ NoStop (I2C mr) = true /\
  I2CStatus (raise e mr) = I2C_COMPLETE /\
  exists l, done_by mr (raise e mr) (l ++ [STOP]).
Proof.
  intros s w e mr.
  assert (He : read_event e) by (right; right; reflexivity).
  destruct (read_runs_with_stale_NoStop mr 0x50 1 200 0x50 1 100 w e true He)
    as (_ & _ & _ & _ & [[Hc Hl] | [Hc _]]).
  - conjs; [exact He | reflexivity | exact Hc | exact Hl].
  - exfalso. revert Hc. vm_compute. discriminate.
Defined.

(** ** The address phase *)

Lemma clr_start (x : Z) :
  Z.testbit (Z.land x (Z.lnot (_PIN_MASK TWSTA))) TWSTA = false.
Proof. rewrite Z.land_spec. apply andb_false_r. Qed.

Lemma start_step (m : machine) (s : event) :
  ev_code s = TW_START \/ ev_code s = TW_REP_START ->
  raise s m =
  mkMachine (I2C m) (ram m) (ev_TWSR s) (SlaveAddr (I2C m))
            (Z.land (TWCR m) (Z.lnot (_PIN_MASK TWSTA))) (TWAR m)
            (actions m ++ [WRITE_TWDR (SlaveAddr (I2C m));
                           CLR_BIT_TWCR TWSTA]).
Proof. intros H. on_event ISR_START H. reflexivity. Qed.

(** X1.  After a submission for the 7-bit address [a], the START (or
    repeated START) event makes the handler put [2a] (write) or [2a+1]
    (read) in the data register and clear the start flag that the
    submission had set; the descriptor is left as submitted. *)
Theorem start_sends_address (m : machine) (a n p : Z) (ns : bool)
    (s : event) :
  0 <= a < 128 ->
  ev_code s = TW_START \/ ev_code s = TW_REP_START ->
  let sw := exec (PutI2C a n p ns) m in
  let sr := exec (GetI2C a n p) m in
  let mw := raise s sw in
  let mr := raise s sr in
  Z.testbit (TWCR sw) TWSTA = true /\ Z.testbit (TWCR sr) TWSTA = true /\
  TWDR mw = 2 * a /\ TWDR mr = 2 * a + 1 /\
  Z.testbit (TWCR mw) TWSTA = false /\ Z.testbit (TWCR mr) TWSTA = false /\
  done_by m mw [START; WRITE_TWDR (2 * a); CLR_BIT_TWCR TWSTA] /\
  done_by m mr [START; WRITE_TWDR (2 * a + 1); CLR_BIT_TWCR TWSTA] /\
  I2C mw = I2C sw /\ I2C mr = I2C sr.
Proof.
  intros Ha Hs. cbv zeta. rewrite !(start_step _ s Hs).
  rewrite PutI2C_eq, GetI2C_eq. unfold done_by.
  cbn [I2C SlaveAddr TWCR TWDR actions].
  rewrite shiftl1_byte, shiftl1_lor1_byte by exact Ha.
  rewrite !clr_start, <- !app_assoc.
  assert (Hb : forall x, Z.testbit (Z.lor x START_MASK) TWSTA = true).
  { intros x. rewrite Z.lor_spec. apply orb_true_r. }
  rewrite !Hb. conjs; reflexivity.
Qed.

Lemma start_sends_address_witness :
  let s := mkEvent 0x08 0 in
  0 <= 0x68 < 128 /\
  (ev_code s = TW_START \/ ev_code s = TW_REP_START) /\
  TWDR (raise s (exec (PutI2C 0x68 1 100 false) m0)) = 0xD0 /\
  TWDR (raise s (exec (GetI2C 0x68 1 100) m0)) = 0xD1.
Proof.
  intros s.
  assert (Ha : 0 <= 0x68 < 128) by lia.
  assert (Hs : ev_code s = TW_START \/ ev_code s = TW_REP_START)
    by (left; reflexivity).
  destruct (start_sends_address m0 0x68 1 100 false s Ha Hs)
    as (_ & _ & Hw & Hr & _).
  split; [exact Ha|]. split; [exact Hs|]. split; [exact Hw | exact Hr].
Defined.

(** ** Faults *)

(** X2.  A data byte NACKed by the slave, and a bus error: the handler
    sets SLAVE_DATA_NACK, respectively BUS_ERROR, and issues STOP as its
    only register access.  Count and cursor are left where the transfer
    stopped and memory is untouched. *)
Theorem fault_event (m : machine) (e : event) :
  ev_code e = TW_MT_DATA_NACK \/ ev_code e = TW_BUS_ERROR ->
  let m' := raise e m in
  I2CStatus m' = (if ev_code e =? TW_BUS_ERROR then I2C_BUS_ERROR
                  else I2C_SLAVE_DATA_NACK) /\
  done_by m m' [STOP] /\
  nBytes (I2C m') = nBytes (I2C m) /\ Buffer (I2C m') = Buffer (I2C m) /\
  ram m' = ram m /\ TWDR m' = ev_TWDR e.
Proof.
  intros [H | H]; cbv zeta; rewrite H.
  - on_event ISR_MT_DATA_NACK H. conjs; reflexivity.
  - on_event ISR_BUS_ERROR H. conjs; reflexivity.
Qed.

Lemma fault_event_witness :
  let e := mkEvent 0x30 7 in
  let m := run [mkEvent 0x08 0; mkEvent 0x18 0xA0]
               (exec (PutI2C 0x50 2 100 false) m0) in
  (ev_code e = TW_MT_DATA_NACK \/ ev_code e = TW_BUS_ERROR) /\
  I2CStatus (raise e m) = I2C_SLAVE_DATA_NACK /\
  nBytes (I2C (raise e m)) = nBytes (I2C m).
Proof.
  intros e m.
  assert (H : ev_code e = TW_MT_DATA_NACK \/ ev_code e = TW_BUS_ERROR)
    by (left; reflexivity).
  destruct (fault_event m e H) as (T1 & _ & T2 & _).
  split; [exact H|]. split; [exact T1 | exact T2].
Defined.

(** ** What an interrupt can and cannot change *)

Lemma raise_frame (e : event) (m : machine) :
  let m' := raise e m in
  SlaveAddr (I2C m') = SlaveAddr (I2C m) /\
  NoStop (I2C m') = NoStop (I2C m) /\
  TWAR m' = TWAR m /\ TWSR m' = ev_TWSR e /\
  (forall a, a <> Buffer (I2C m) -> ram m' a = ram m a) /\
  (~ data_event e -> ram m' = ram m) /\
  (Buffer (I2C m') = Buffer (I2C m) \/
   Buffer (I2C m') = Buffer (I2C m) + 1).
Proof.
  cbv zeta. rewrite raise_eq.
  destruct (In_dec Z.eq_dec (ev_code e) handled_codes) as [Hin | Hout].
  - cbn in Hin.
    repeat (destruct Hin as [E | Hin]; [symmetry in E |]);
      try contradiction;
      first [ rewrite ISR_START by (rewrite twi_status_latch; tauto)
            | rewrite ISR_MT_ACK by (rewrite twi_status_latch; tauto)
            | rewrite ISR_SLA_NACK by (rewrite twi_status_latch; tauto)
            | rewrite ISR_MT_DATA_NACK by (rewrite twi_status_latch; tauto)
            | rewrite ISR_ARB_LOST by (rewrite twi_status_latch; tauto)
            | rewrite ISR_MR_SLA_ACK by (rewrite twi_status_latch; tauto)
            | rewrite ISR_MR_DATA by (rewrite twi_status_latch; tauto)
            | rewrite ISR_BUS_ERROR by (rewrite twi_status_latch; tauto) ];
      cbv zeta; unfold effect, latch;
      cbn [I2C ram TWSR TWAR NoStop SlaveAddr Buffer];
      split_ifs;
      cbn [I2C ram TWSR TWAR NoStop SlaveAddr Buffer];
      conjs; try reflexivity; try tauto;
      try (intros a Ha; apply Z.eqb_neq in Ha; now rewrite Ha);
      try (intros Hd; exfalso; apply Hd; unfold data_event; tauto).
  - unfold exec. rewrite ISR_other by (rewrite twi_status_latch; exact Hout).
    cbn [snd latch I2C ram TWSR TWAR]. conjs; try reflexivity; tauto.
Qed.

(** X3.  Whatever the bus condition, the handler never changes the
    address byte, [NoStop] or the own-address register; it writes memory
    only at a data-received event and only in the cell under the cursor;
    and it moves the cursor by at most one cell. *)
Theorem handler_frame (m : machine) (e : event) (a : Z) :
  let m' := raise e m in
  SlaveAddr (I2C m') = SlaveAddr (I2C m) /\
  NoStop (I2C m') = NoStop (I2C m) /\
  TWAR m' = TWAR m /\
  (a <> Buffer (I2C m) -> ram m' a = ram m a) /\
  (~ data_event e -> ram m' = ram m) /\
  (Buffer (I2C m') = Buffer (I2C m) \/
   Buffer (I2C m') = Buffer (I2C m) + 1).
Proof.
  cbv zeta.
  destruct (raise_frame e m) as (H1 & H2 & H3 & _ & H5 & H6 & H7).
  conjs; try assumption. apply H5.
Qed.

Lemma handler_frame_witness :
  let e := mkEvent 0x18 0xA0 in
  let m := raise (mkEvent 0x08 0) (exec (PutI2C 0x50 2 100 false) m0) in
  101 <> Buffer (I2C m) /\ ~ data_event e /\
  ram (raise e m) 101 = ram m 101 /\ ram (raise e m) = ram m.
Proof.
  intros e m.
  assert (Ha : 101 <> Buffer (I2C m)) by (vm_compute; discriminate).
  assert (Hd : ~ data_event e).
  { unfold data_event. vm_compute. intuition discriminate. }
  destruct (handler_frame m e 101) as (_ & _ & _ & T1 & T2 & _).
  split; [exact Ha|]. split; [exact Hd|].
  split; [exact (T1 Ha) | exact (T2 Hd)].
Defined.

(** ** Idle stays idle *)

Lemma raise_not_busy (e : event) (m : machine) :
  I2CBusy m = false -> I2CBusy (raise e m) = false.
Proof.
  unfold I2CBusy. intros H.
  destruct (raise_status e m) as [E | E]; unfold I2CStatus in E.
  - now rewrite E.
  - destruct (Status (I2C (raise e m))); try reflexivity; discriminate E.
Qed.

(** X4.  The handler never marks the driver busy: if [I2CBusy] answers
    false, it keeps answering false through any sequence of interrupts;
    only a submission makes the driver busy again. *)
Theorem idle_stays_idle (m : machine) (evs : list event) :
  I2CBusy m = false -> I2CBusy (run evs m) = false.
Proof.
  revert m. induction evs as [| e evs IH]; intros m H; cbn [run].
  - exact H.
  - apply IH. now apply raise_not_busy.
Qed.

Lemma idle_stays_idle_witness :
  let m := exec (I2CInit 100 0x31 true) m0 in
  let evs := [mkEvent 0x08 0; mkEvent 0x40 0; mkEvent 0x50 9] in
  I2CBusy m = false /\ I2CBusy (run evs m) = false.
Proof.
  intros m evs.
  assert (H : I2CBusy m = false) by (vm_compute; reflexivity).
  split; [exact H | exact (idle_stays_idle m evs H)].
Defined.

(** ** A data byte that was not asked for *)

(** X5.  The count is a [uint8_t] and the data-received case decrements
    it without looking: at a data-received event with count 0 the byte
    is stored under the cursor all the same, the count wraps to 255, the
    status is left as it is and the handler steps the bus for the next
    byte. *)
Theorem data_event_at_zero (m : machine) (e : event) :
  data_event e -> nBytes (I2C m) = 0 ->
  let m' := raise e m in
  nBytes (I2C m') = 255 /\
  ram m' (Buffer (I2C m)) = ev_TWDR e /\
  Buffer (I2C m') = Buffer (I2C m) + 1 /\
  I2CStatus m' = I2CStatus m /\
  done_by m m' [READ_TWDR (ev_TWDR e); STEP].
Proof.
  intros He Hn. cbv zeta. on_event ISR_MR_DATA He. cbv zeta.
  rewrite Hn. change (u8 (0 - 1)) with 255. cbn [Z.eqb Pos.eqb].
  cbn [I2C ram actions nBytes Buffer Status app].
  rewrite Z.eqb_refl. conjs; reflexivity.
Qed.

Lemma data_event_at_zero_witness :
  let e := mkEvent 0x50 0x5A in
  let m := run [mkEvent 0x08 0; mkEvent 0x40 0; mkEvent 0x58 1]
               (exec (GetI2C 0x50 1 100) m0) in
  data_event e /\ nBytes (I2C m) = 0 /\
  I2CStatus m = I2C_COMPLETE /\
  nBytes (I2C (raise e m)) = 255 /\
  I2CStatus (raise e m) = I2CStatus m.
Proof.
  intros e m.
  assert (He : data_event e) by (left; reflexivity).
  assert (Hn : nBytes (I2C m) = 0) by (vm_compute; reflexivity).
  assert (Hc : I2CStatus m = I2C_COMPLETE) by (vm_compute; reflexivity).
  destruct (data_event_at_zero m e He Hn) as (T1 & _ & _ & T2 & _).
  conjs; assumption.
Defined.

(** ** Write transactions, from the address-ACK to the end *)

Lemma write_step (m : machine) (e : event) :
  write_ack e -> 0 < nBytes (I2C m) < 256 ->
  raise e m =
  mkMachine
    (mkI2C (SlaveAddr (I2C m)) (nBytes (I2C m) - 1) (Buffer (I2C m) + 1)
           (NoStop (I2C m)) (Status (I2C m)))
    (ram m) (ev_TWSR e) (ram m (Buffer (I2C m)))
    (Z.lor (TWCR m) (_PIN_MASK TWINT)) (TWAR m)
    (actions m ++ [WRITE_TWDR (ram m (Buffer (I2C m))); STEP]).
Proof.
  intros He Hn. on_event ISR_MT_ACK He.
  replace (nBytes (I2C m) =? 0) with false by (symmetry; lia).
  now rewrite (u8_pred _ Hn).
Qed.

Lemma write_done (m : machine) (e : event) :
  write_ack e -> nBytes (I2C m) = 0 ->
  raise e m =
  mkMachine
    (mkI2C (SlaveAddr (I2C m)) 0 (Buffer (I2C m)) (NoStop (I2C m))
           I2C_COMPLETE)
    (ram m) (ev_TWSR e) (ev_TWDR e)
    (if NoStop (I2C m) then TWCR m else Z.lor (TWCR m) STOP_MASK) (TWAR m)
    (actions m ++ if NoStop (I2C m) then [] else [STOP]).
Proof.
  intros He Hn. on_event ISR_MT_ACK He. rewrite Hn. reflexivity.
Qed.

Lemma write_phase (k : nat) :
  forall (m : machine) (acks : list event),
    Forall write_ack acks ->
    nBytes (I2C m) = Z.of_nat k -> (k < 256)%nat -> length acks = S k ->
    let m' := run acks m in
    I2C m' = mkI2C (SlaveAddr (I2C m)) 0 (Buffer (I2C m) + Z.of_nat k)
                   (NoStop (I2C m)) I2C_COMPLETE /\
    ram m' = ram m /\
    actions m' =
      actions m ++
      flat_map (fun b => [WRITE_TWDR b; STEP])
               (ram_bytes (ram m) (Buffer (I2C m)) k) ++
      (if NoStop (I2C m) then [] else [STOP]) /\
    (forall pre post, acks = pre ++ post -> post <> [] ->
                      Status (I2C (run pre m)) = Status (I2C m)).
Proof.
  induction k as [| k IH]; intros m acks Hall Hn Hk Hlen; cbv zeta.
  - destruct acks as [| e [| ? ?]]; try discriminate Hlen.
    inversion Hall as [| ? ? He _]; subst. cbn [run].
    rewrite (write_done m e He Hn). cbn [I2C ram actions ram_bytes flat_map app].
    rewrite Z.add_0_r. conjs; try reflexivity.
    intros [| x pre] post E Hp.
    + reflexivity.
    + destruct pre; cbn in E; inversion E; subst; contradiction.
  - destruct acks as [| e acks]; [discriminate Hlen|].
    inversion Hall as [| ? ? He Hall']; subst. cbn [run].
    assert (Hr : 0 < nBytes (I2C m) < 256) by lia.
    pose proof (write_step m e He Hr) as Hstep.
    destruct (IH (raise e m) acks Hall') as (I1 & I2 & I3 & I4).
    { rewrite Hstep. cbn [I2C nBytes]. lia. }
    { lia. }
    { cbn [length] in Hlen. lia. }
    conjs.
    + rewrite I1, Hstep. cbn [I2C SlaveAddr Buffer NoStop]. f_equal. lia.
    + rewrite I2, Hstep. reflexivity.
    + rewrite I3, Hstep. cbn [I2C ram actions Buffer NoStop ram_bytes flat_map].
      rewrite <- !app_assoc. reflexivity.
    + intros [| x pre] post E Hp.
      * reflexivity.
      * cbn [app] in E. inversion E; subst. cbn [run].
        rewrite (I4 pre post eq_refl Hp). rewrite Hstep. reflexivity.
Qed.

(** X6.  A write of [n] bytes ([0 <= n < 256]) to a slave that
    acknowledges the address and every byte: after those [n + 1] events
    the status is COMPLETE and the count 0, the cursor has advanced by
    [n], memory is untouched, and the handler has sent the [n] bytes of
    the buffer in order, each followed by a step, and then STOP unless
    [NoStop] is set.  Before the last acknowledge the status is the one
    the transfer started with. *)
Theorem write_transaction (m : machine) (acks : list event) :
  Forall write_ack acks ->
  0 <= nBytes (I2C m) < 256 ->
  Z.of_nat (length acks) = nBytes (I2C m) + 1 ->
  let n := nBytes (I2C m) in
  let p := Buffer (I2C m) in
  let m' := run acks m in
  I2CStatus m' = I2C_COMPLETE /\ nBytes (I2C m') = 0 /\
  Buffer (I2C m') = p + n /\ ram m' = ram m /\
  done_by m m'
    (flat_map (fun b => [WRITE_TWDR b; STEP])
              (ram_bytes (ram m) p (Z.to_nat n))
     ++ if NoStop (I2C m) then [] else [STOP]) /\
  (forall pre post, acks = pre ++ post -> post <> [] ->
                    I2CStatus (run pre m) = I2CStatus m).
Proof.
  intros Hall Hn Hlen. cbv zeta.
  destruct (write_phase (Z.to_nat (nBytes (I2C m))) m acks Hall)
    as (I1 & I2 & I3 & I4); try lia.
  unfold I2CStatus, done_by. rewrite I1, Z2Nat.id by lia.
  cbn [Status nBytes Buffer]. conjs; try reflexivity; assumption.
Qed.

Lemma write_transaction_witness :
  let r := fun a => if a =? 100 then 0x11 else if a =? 101 then 0x22 else 0 in
  let m := mkMachine (mkI2C 0xA0 2 100 false I2C_WORKING) r 0 0 0 0 [] in
  let acks := [mkEvent 0x18 0xA0; mkEvent 0x28 0x11; mkEvent 0x28 0x22] in
  (Forall write_ack acks /\ 0 <= nBytes (I2C m) < 256 /\
   Z.of_nat (length acks) = nBytes (I2C m) + 1) /\
  I2CStatus (run acks m) = I2C_COMPLETE /\
  actions (run acks m) =
    [WRITE_TWDR 0x11; STEP; WRITE_TWDR 0x22; STEP; STOP].
Proof.
  intros r m acks.
  assert (Hall : Forall write_ack acks).
  { repeat constructor; first [now left | now right]. }
  assert (Hn : 0 <= nBytes (I2C m) < 256) by (cbn; lia).
  assert (Hlen : Z.of_nat (length acks) = nBytes (I2C m) + 1) by reflexivity.
  destruct (write_transaction m acks Hall Hn Hlen) as (T1 & _ & _ & _ & T2 & _).
  split; [split; [exact Hall | split; [exact Hn | exact Hlen]] |].
  split; [exact T1|].
  unfold done_by in T2. vm_compute in T2 |- *. exact T2.
Defined.

(** ** The blocking wrappers *)

Lemma wait_idle_idle (evs : list event) (m : machine) :
  I2CBusy m = false -> wait_idle evs m = Some (m, evs).
Proof. intros H. destruct evs; cbn [wait_idle]; now rewrite H. Qed.

Lemma wait_idle_cons (e : event) (evs : list event) (m : machine) :
  I2CBusy m = true -> wait_idle (e :: evs) m = wait_idle evs (raise e m).
Proof. intros H. cbn [wait_idle]. now rewrite H. Qed.

Lemma busy_status (m : machine) :
  I2CBusy m = true <-> Status (I2C m) = I2C_WORKING.
Proof.
  unfold I2CBusy. destruct (Status (I2C m)); cbn; split; intros H;
    first [reflexivity | discriminate H].
Qed.

Lemma wait_idle_busy (evs : list event) :
  forall m, I2CBusy m = true ->
  match wait_idle evs m with
  | None => busy_throughout evs m = true
  | Some (m', rest) =>
      terminal (I2CStatus m') = true /\
      exists used e,
        evs = used ++ e :: rest /\ busy_throughout used m = true /\
        m' = raise e (run used m)
  end.
Proof.
  induction evs as [| e evs IH]; intros m Hb.
  - cbn [wait_idle busy_throughout]. now rewrite Hb.
  - rewrite (wait_idle_cons e evs m Hb).
    destruct (I2CBusy (raise e m)) eqn:Hb'.
    + specialize (IH (raise e m) Hb').
      destruct (wait_idle evs (raise e m)) as [[m' rest] |].
      * destruct IH as (Ht & used & e' & E & Hu & Hm).
        split; [exact Ht|]. exists (e :: used), e'. subst evs.
        cbn [app busy_throughout run]. rewrite Hb, Hu. now conjs.
      * cbn [busy_throughout]. now rewrite Hb, IH.
    + rewrite (wait_idle_idle evs _ Hb'). split.
      * destruct (raise_status e m) as [E | E]; [| exact E].
        apply busy_status in Hb. unfold I2CBusy in Hb'.
        unfold I2CStatus in E. rewrite E, Hb in Hb'. discriminate Hb'.
      * exists [], e. cbn [app busy_throughout run]. rewrite Hb. now conjs.
Qed.

(** X7.  [PutI2CW] and [GetI2CW] have no timeout.  They return at the
    first interrupt after which the driver is idle, and the status is
    then a terminal one; the driver was busy at every moment before
    that interrupt, and the bus conditions after it are still pending.
    If no interrupt ends the transfer, the wrapper is still spinning
    when the conditions are used up. *)
Theorem wrappers_return_when_idle (m : machine) (a n p : Z) (ns : bool)
    (evs : list event) :
  match PutI2CW a n p ns evs m with
  | None => busy_throughout evs (exec (PutI2C a n p ns) m) = true
  | Some (m', rest) =>
      terminal (I2CStatus m') = true /\
      exists used e,
        evs = used ++ e :: rest /\
        busy_throughout used (exec (PutI2C a n p ns) m) = true /\
        m' = raise e (run used (exec (PutI2C a n p ns) m))
  end /\
  match GetI2CW a n p evs m with
  | None => busy_throughout evs (exec (GetI2C a n p) m) = true
  | Some (m', rest) =>
      terminal (I2CStatus m') = true /\
      exists used e,
        evs = used ++ e :: rest /\
        busy_throughout used (exec (GetI2C a n p) m) = true /\
        m' = raise e (run used (exec (GetI2C a n p) m))
  end.
Proof.
  unfold PutI2CW, GetI2CW. split; apply wait_idle_busy; apply busy_status.
  - now rewrite PutI2C_eq.
  - now rewrite GetI2C_eq.
Qed.

(** Receiving the expected bytes, without the acknowledge bookkeeping. *)
Lemma data_phase_end (evs : list event) :
  forall (m : machine) (d : event),
    Forall data_event evs -> evs <> [] ->
    nBytes (I2C m) = Z.of_nat (length evs) -> nBytes (I2C m) < 256 ->
    let m' := run evs m in
    let p := Buffer (I2C m) in
    I2C m' = mkI2C (SlaveAddr (I2C m)) 0 (p + nBytes (I2C m))
                   (NoStop (I2C m)) I2C_COMPLETE /\
    (forall i, (i < length evs)%nat ->
               ram m' (p + Z.of_nat i) = ev_TWDR (nth i evs d)) /\
    (forall x, x < p \/ p + nBytes (I2C m) <= x -> ram m' x = ram m x) /\
    (exists l, actions m' = actions m ++ l ++ [STOP] /\
               count_STOP l = 0%nat /\ sent_bytes l = []).
Proof.
  induction evs as [| e evs IH]; intros m d Hall Hne Hn Hlt; cbv zeta.
  - contradiction.
  - inversion Hall as [| ? ? He Hall']; subst.
    assert (Hr : 0 < nBytes (I2C m) < 256) by (cbn [length] in Hn; lia).
    pose proof (data_step m e He Hr) as Hstep. cbv zeta in Hstep.
    cbn [run]. destruct evs as [| e2 evs].
    + cbn [run]. rewrite Hstep. cbn [length] in Hn.
      replace (nBytes (I2C m) - 1) with 0 by lia.
      cbn [Z.eqb I2C ram actions app]. conjs.
      * f_equal. lia.
      * intros [| i] Hi; [| cbn [length] in Hi; lia].
        cbn [nth]. now rewrite Z.add_0_r, Z.eqb_refl.
      * intros x Hx. replace (x =? Buffer (I2C m)) with false
          by (symmetry; lia). reflexivity.
      * exists [READ_TWDR (ev_TWDR e)]. now conjs.
    + assert (Hn1 : nBytes (I2C (raise e m)) =
                    Z.of_nat (length (e2 :: evs))).
      { rewrite Hstep. cbn [I2C nBytes]. cbn [length] in Hn |- *. lia. }
      assert (Hb1 : Buffer (I2C (raise e m)) = Buffer (I2C m) + 1)
        by (rewrite Hstep; reflexivity).
      assert (Hk : (nBytes (I2C m) - 1 =? 0) = false).
      { cbn [length] in Hn. lia. }
      destruct (IH (raise e m) d Hall') as (I1 & I2 & I3 & l & I4 & I5 & I6);
        [discriminate | exact Hn1
         | rewrite Hn1; cbn [length] in Hn |- *; lia |].
      rewrite Hb1 in I1, I2, I3. conjs.
      * rewrite I1, Hn1, Hstep. cbn [I2C SlaveAddr NoStop].
        f_equal. cbn [length] in Hn |- *. lia.
      * intros [| i] Hi.
        -- cbn [nth]. rewrite Z.add_0_r, I3 by lia.
           rewrite Hstep. cbn [ram]. now rewrite Z.eqb_refl.
        -- cbn [nth].
           replace (Buffer (I2C m) + Z.of_nat (S i))
             with (Buffer (I2C m) + 1 + Z.of_nat i) by lia.
           apply I2. cbn [length] in Hi |- *. lia.
      * intros x Hx. rewrite I3 by (rewrite Hn1; cbn [length] in Hn |- *; lia).
        rewrite Hstep. cbn [ram].
        replace (x =? Buffer (I2C m)) with false by (symmetry; lia).
        reflexivity.
      * rewrite I4, Hstep, Hk. cbn [actions].
        exists ((READ_TWDR (ev_TWDR e)
                 :: (if nBytes (I2C m) - 1 =? 1
                     then [CLR_BIT_TWCR TWEA] else []) ++ [STEP]) ++ l).
        rewrite <- !app_assoc. split; [reflexivity|].
        destruct (nBytes (I2C m) - 1 =? 1); cbn; now split.
Qed.

Lemma wait_data_phase (evs : list event) :
  forall (m : machine) (rest : list event),
    Forall data_event evs -> evs <> [] ->
    nBytes (I2C m) = Z.of_nat (length evs) -> nBytes (I2C m) < 256 ->
    I2CBusy m = true ->
    wait_idle (evs ++ rest) m = Some (run evs m, rest).
Proof.
  induction evs as [| e evs IH]; intros m rest Hall Hne Hn Hlt Hb.
  - contradiction.
  - inversion Hall as [| ? ? He Hall']; subst.
    assert (Hr : 0 < nBytes (I2C m) < 256) by (cbn [length] in Hn; lia).
    pose proof (data_step m e He Hr) as Hstep. cbv zeta in Hstep.
    cbn [app run]. rewrite (wait_idle_cons _ _ _ Hb).
    destruct evs as [| e2 evs].
    + cbn [app run]. apply wait_idle_idle. rewrite Hstep.
      cbn [length] in Hn. replace (nBytes (I2C m) - 1) with 0 by lia.
      reflexivity.
    + apply IH; try assumption; try discriminate.
      * rewrite Hstep. cbn [I2C nBytes]. cbn [length] in Hn |- *. lia.
      * rewrite Hstep. cbn [I2C nBytes]. lia.
      * apply busy_status. apply busy_status in Hb. rewrite Hstep.
        cbn [I2C Status].
        replace (nBytes (I2C m) - 1 =? 0) with false
          by (symmetry; cbn [length] in Hn; lia).
        exact Hb.
Qed.

Lemma read_from_submitted (m1 : machine) (sa n p : Z) (ns : bool)
    (s sla : event) (bs rest : list event) :
  I2C m1 = mkI2C sa n p ns I2C_WORKING ->
  ev_code s = TW_START \/ ev_code s = TW_REP_START ->
  ev_code sla = TW_MR_SLA_ACK ->
  Forall data_event bs ->
  0 < n < 256 -> n = Z.of_nat (length bs) ->
  let m' := run (s :: sla :: bs) m1 in
  wait_idle (s :: sla :: bs ++ rest) m1 = Some (m', rest) /\
  I2C m' = mkI2C sa 0 (p + n) ns I2C_COMPLETE /\
  (forall i, (i < length bs)%nat ->
             ram m' (p + Z.of_nat i) = ev_TWDR (nth i bs s)) /\
  (forall x, x < p \/ p + n <= x -> ram m' x = ram m1 x) /\
  (exists l, actions m' =
             actions m1 ++ (WRITE_TWDR sa :: CLR_BIT_TWCR TWSTA :: l)
                        ++ [STOP] /\
             count_STOP l = 0%nat /\ sent_bytes l = []).
Proof.
  intros D1 Hs Hsla Hall Hn Hlen. cbv zeta. cbn [run].
  pose proof (start_step m1 s Hs) as E2.
  assert (B1 : I2CBusy m1 = true) by (apply busy_status; now rewrite D1).
  rewrite (wait_idle_cons _ _ _ B1).
  remember (raise s m1) as m2 eqn:R2. clear R2.
  assert (D2 : I2C m2 = I2C m1) by (rewrite E2; reflexivity).
  assert (B2 : I2CBusy m2 = true) by (apply busy_status; now rewrite D2, D1).
  rewrite (wait_idle_cons _ _ _ B2).
  assert (N2 : 0 < nBytes (I2C m2)) by (rewrite D2, D1; cbn; lia).
  destruct (sla_ack_step m2 sla Hsla N2) as (D3 & R3 & A3 & _).
  unfold done_by in A3.
  remember (raise sla m2) as m3 eqn:R3'. clear R3'.
  assert (Hne : bs <> []) by (intros ->; cbn in Hlen; lia).
  assert (N3 : nBytes (I2C m3) = Z.of_nat (length bs))
    by (rewrite D3, D2, D1; exact Hlen).
  assert (B3 : Buffer (I2C m3) = p) by (rewrite D3, D2, D1; reflexivity).
  destruct (data_phase_end bs m3 s Hall Hne N3)
    as (I1 & I2 & I3 & l & I4 & I5 & I6); [lia|].
  rewrite B3 in I1, I2, I3. rewrite N3, <- Hlen in I3.
  conjs.
  - apply wait_data_phase; try assumption; try lia.
    apply busy_status. now rewrite D3, D2, D1.
  - rewrite I1, N3, <- Hlen, D3, D2, D1. reflexivity.
  - exact I2.
  - intros x Hx. rewrite I3 by exact Hx. rewrite R3, E2. reflexivity.
  - rewrite I4, A3, D2, E2. cbn [actions]. rewrite D1. cbn [SlaveAddr nBytes].
    exists ([if n =? 1 then CLR_BIT_TWCR TWEA else SET_BIT_TWCR TWEA; STEP]
            ++ l).
    rewrite <- !app_assoc. split; [reflexivity|].
    destruct (n =? 1); cbn; now split.
Qed.

Lemma blocking_read (m : machine) (a n p : Z) (s sla : event)
    (bs rest : list event) :
  ev_code s = TW_START \/ ev_code s = TW_REP_START ->
  ev_code sla = TW_MR_SLA_ACK ->
  Forall data_event bs ->
  0 < n < 256 -> n = Z.of_nat (length bs) ->
  let m' := run (s :: sla :: bs) (exec (GetI2C a n p) m) in
  GetI2CW a n p (s :: sla :: bs ++ rest) m = Some (m', rest) /\
  I2C m' = mkI2C (u8 (Z.lor (Z.shiftl a 1) 1)) 0 (p + n) (NoStop (I2C m))
                 I2C_COMPLETE /\
  (forall i, (i < length bs)%nat ->
             ram m' (p + Z.of_nat i) = ev_TWDR (nth i bs s)) /\
  (forall x, x < p \/ p + n <= x -> ram m' x = ram m x) /\
  (exists l, actions m' = actions m ++ l ++ [STOP] /\
             count_STOP l = 0%nat).
Proof.
  intros Hs Hsla Hall Hn Hlen. cbv zeta. unfold GetI2CW.
  rewrite GetI2C_eq.
  match goal with
  | |- context [wait_idle _ ?m1] =>
      destruct (read_from_submitted m1 (u8 (Z.lor (Z.shiftl a 1) 1)) n p
                  (NoStop (I2C m)) s sla bs rest eq_refl Hs Hsla Hall Hn Hlen)
        as (W & D & R1 & R2 & l & A & C & _)
  end.
  cbn [ram actions] in R2, A.
  split; [exact W|]. split; [exact D|]. split; [exact R1|].
  split; [exact R2|].
  exists (START :: WRITE_TWDR (u8 (Z.lor (Z.shiftl a 1) 1))
          :: CLR_BIT_TWCR TWSTA :: l).
  rewrite A, <- !app_assoc. split; [reflexivity | exact C].
Qed.

(** X8.  [GetI2CW] of [n] bytes ([0 < n < 256]) from a slave that
    acknowledges its address and supplies the bytes: the wrapper returns
    after exactly the START, the address-ACK and the [n] data events,
    with status COMPLETE and the bytes in the buffer in arrival order.
    No memory cell outside the [n] cells of the buffer is written, and
    exactly one STOP is issued, as the last register access. *)
Theorem GetI2CW_reads (m : machine) (a n p : Z) (s sla : event)
    (bs rest : list event) :
  ev_code s = TW_START \/ ev_code s = TW_REP_START ->
  ev_code sla = TW_MR_SLA_ACK ->
  Forall data_event bs ->
  0 < n < 256 -> n = Z.of_nat (length bs) ->
  exists m',
    GetI2CW a n p (s :: sla :: bs ++ rest) m = Some (m', rest) /\
    I2CStatus m' = I2C_COMPLETE /\
    (forall i, (i < length bs)%nat ->
               ram m' (p + Z.of_nat i) = ev_TWDR (nth i bs s)) /\
    (forall x, x < p \/ p + n <= x -> ram m' x = ram m x) /\
    (exists l, done_by m m' (l ++ [STOP]) /\ count_STOP l = 0%nat).
Proof.
  intros Hs Hsla Hall Hn Hlen.
  destruct (blocking_read m a n p s sla bs rest Hs Hsla Hall Hn Hlen)
    as (W & D & R1 & R2 & l & A & C).
  exists (run (s :: sla :: bs) (exec (GetI2C a n p) m)).
  split; [exact W|]. split; [unfold I2CStatus; now rewrite D|].
  split; [exact R1|]. split; [exact R2|].
  exists l. unfold done_by. split; [exact A | exact C].
Qed.

Lemma GetI2CW_reads_witness :
  let s := mkEvent 0x08 0 in
  let sla := mkEvent 0x40 0xA1 in
  let bs := [mkEvent 0x50 11; mkEvent 0x58 12] in
  let rest := [mkEvent 0xF8 0] in
  ((ev_code s = TW_START \/ ev_code s = TW_REP_START) /\
   ev_code sla = TW_MR_SLA_ACK /\ Forall data_event bs /\
   0 < 2 < 256 /\ 2 = Z.of_nat (length bs)) /\
  exists m',
    GetI2CW 0x50 2 100 (s :: sla :: bs ++ rest) m0 = Some (m', rest) /\
    I2CStatus m' = I2C_COMPLETE.
Proof.
  intros s sla bs rest.
  assert (Hs : ev_code s = TW_START \/ ev_code s = TW_REP_START)
    by (left; reflexivity).
  assert (Hsla : ev_code sla = TW_MR_SLA_ACK) by reflexivity.
  assert (Hall : Forall data_event bs).
  { repeat constructor; first [now left | now right]. }
  assert (Hn : 0 < 2 < 256) by lia.
  assert (Hlen : 2 = Z.of_nat (length bs)) by reflexivity.
  destruct (GetI2CW_reads m0 0x50 2 100 s sla bs rest Hs Hsla Hall Hn Hlen)
    as (m' & T1 & T2 & _).
  split; [now conjs|]. exists m'. now split.
Defined.

Lemma count_STOP_app (l1 l2 : list hw_action) :
  count_STOP (l1 ++ l2) = (count_STOP l1 + count_STOP l2)%nat.
Proof.
  induction l1 as [| x l1 IH]; cbn [app count_STOP]; [reflexivity|].
  destruct x; try exact IH. destruct (mask =? STOP_MASK); cbn; now rewrite IH.
Qed.

Lemma count_STOP_sent (bytes : list Z) :
  count_STOP (flat_map (fun b => [WRITE_TWDR b; STEP]) bytes) = 0%nat.
Proof. induction bytes as [| b bytes IH]; [reflexivity | exact IH]. Qed.

Lemma wait_write_phase (k : nat) :
  forall (m : machine) (acks rest : list event),
    Forall write_ack acks ->
    nBytes (I2C m) = Z.of_nat k -> (k < 256)%nat -> length acks = S k ->
    I2CBusy m = true ->
    wait_idle (acks ++ rest) m = Some (run acks m, rest).
Proof.
  induction k as [| k IH]; intros m acks rest Hall Hn Hk Hlen Hb.
  - destruct acks as [| e [| ? ?]]; try discriminate Hlen.
    inversion Hall as [| ? ? He _]; subst. cbn [app run].
    rewrite (wait_idle_cons _ _ _ Hb). apply wait_idle_idle.
    now rewrite (write_done m e He Hn).
  - destruct acks as [| e acks]; [discriminate Hlen|].
    inversion Hall as [| ? ? He Hall']; subst. cbn [app run].
    rewrite (wait_idle_cons _ _ _ Hb).
    assert (Hr : 0 < nBytes (I2C m) < 256) by lia.
    pose proof (write_step m e He Hr) as Hstep.
    apply IH; try assumption.
    + rewrite Hstep. cbn [I2C nBytes]. lia.
    + lia.
    + cbn [length] in Hlen. lia.
    + apply busy_status. apply busy_status in Hb. now rewrite Hstep.
Qed.

Lemma write_from_submitted (m1 : machine) (sa n p : Z) (ns : bool)
    (s : event) (acks rest : list event) :
  I2C m1 = mkI2C sa n p ns I2C_WORKING ->
  ev_code s = TW_START \/ ev_code s = TW_REP_START ->
  Forall write_ack acks ->
  0 <= n < 256 -> Z.of_nat (length acks) = n + 1 ->
  let m' := run (s :: acks) m1 in
  wait_idle (s :: acks ++ rest) m1 = Some (m', rest) /\
  I2C m' = mkI2C sa 0 (p + n) ns I2C_COMPLETE /\
  ram m' = ram m1 /\
  actions m' =
    actions m1 ++
    ([WRITE_TWDR sa; CLR_BIT_TWCR TWSTA] ++
     flat_map (fun b => [WRITE_TWDR b; STEP])
              (ram_bytes (ram m1) p (Z.to_nat n))) ++
    (if ns then [] else [STOP]).
Proof.
  intros D1 Hs Hall Hn Hlen. cbv zeta. cbn [run].
  pose proof (start_step m1 s Hs) as E2.
  assert (B1 : I2CBusy m1 = true) by (apply busy_status; now rewrite D1).
  rewrite (wait_idle_cons _ _ _ B1).
  remember (raise s m1) as m2 eqn:R2. clear R2.
  assert (D2 : I2C m2 = I2C m1) by (rewrite E2; reflexivity).
  assert (N2 : nBytes (I2C m2) = Z.of_nat (Z.to_nat n)).
  { rewrite D2, D1. cbn [nBytes]. lia. }
  assert (K : (Z.to_nat n < 256)%nat) by lia.
  assert (L : length acks = S (Z.to_nat n)) by lia.
  destruct (write_phase (Z.to_nat n) m2 acks Hall N2 K L)
    as (I1 & I2 & I3 & _).
  assert (R2 : ram m2 = ram m1) by (rewrite E2; reflexivity).
  conjs.
  - apply (wait_write_phase (Z.to_nat n)); try assumption.
    apply busy_status. now rewrite D2, D1.
  - rewrite I1, D2, D1. cbn [SlaveAddr Buffer NoStop]. f_equal. lia.
  - now rewrite I2.
  - rewrite I3, D2, D1, R2. cbn [Buffer NoStop]. rewrite E2.
    cbn [actions]. rewrite D1. cbn [SlaveAddr].
    rewrite <- !app_assoc. reflexivity.
Qed.

Lemma blocking_write (m : machine) (a n p : Z) (ns : bool) (s : event)
    (acks rest : list event) :
  ev_code s = TW_START \/ ev_code s = TW_REP_START ->
  Forall write_ack acks ->
  0 <= n < 256 -> Z.of_nat (length acks) = n + 1 ->
  let m' := run (s :: acks) (exec (PutI2C a n p ns) m) in
  PutI2CW a n p ns (s :: acks ++ rest) m = Some (m', rest) /\
  I2C m' = mkI2C (u8 (Z.shiftl a 1)) 0 (p + n) ns I2C_COMPLETE /\
  ram m' = ram m /\
  actions m' =
    actions m ++
    ([START; WRITE_TWDR (u8 (Z.shiftl a 1)); CLR_BIT_TWCR TWSTA] ++
     flat_map (fun b => [WRITE_TWDR b; STEP])
              (ram_bytes (ram m) p (Z.to_nat n))) ++
    (if ns then [] else [STOP]).
Proof.
  intros Hs Hall Hn Hlen. cbv zeta. unfold PutI2CW.
  rewrite PutI2C_eq.
  match goal with
  | |- context [wait_idle _ ?m1] =>
      destruct (write_from_submitted m1 (u8 (Z.shiftl a 1)) n p ns s acks
                  rest eq_refl Hs Hall Hn Hlen) as (W & D & R & A)
  end.
  cbn [ram actions] in R, A.
  split; [exact W|]. split; [exact D|]. split; [exact R|].
  rewrite A, <- !app_assoc. reflexivity.
Qed.

Lemma blocking_nack (m1 : machine) (s nack : event) (rest : list event) :
  ev_code s = TW_START \/ ev_code s = TW_REP_START ->
  ev_code nack = TW_MT_SLA_NACK \/ ev_code nack = TW_MR_SLA_NACK ->
  I2CBusy m1 = true ->
  let m' := raise nack (raise s m1) in
  wait_idle (s :: nack :: rest) m1 = Some (m', rest) /\
  I2CStatus m' = I2C_NO_SLAVE_ACK /\ ram m' = ram m1 /\
  nBytes (I2C m') = nBytes (I2C m1) /\
  actions m' = actions m1 ++ [WRITE_TWDR (SlaveAddr (I2C m1));
                              CLR_BIT_TWCR TWSTA; STOP].
Proof.
  intros Hs Hn Hb. cbv zeta.
  pose proof (start_step m1 s Hs) as E2.
  assert (B2 : I2CBusy (raise s m1) = true).
  { apply busy_status. apply busy_status in Hb. now rewrite E2. }
  rewrite (wait_idle_cons _ _ _ Hb), (wait_idle_cons _ _ _ B2).
  rewrite (raise_eq nack).
  rewrite ISR_SLA_NACK by (rewrite twi_status_latch; exact Hn).
  unfold effect, latch, I2CStatus.
  cbn [I2C ram TWSR TWDR TWCR TWAR actions SlaveAddr nBytes Buffer NoStop
       Status].
  rewrite E2. cbn [I2C ram actions nBytes]. rewrite <- app_assoc.
  conjs; try reflexivity. now apply wait_idle_idle.
Qed.

(** X9.  Probing an address where no slave answers: either wrapper
    returns after the START and the address-NACK events with status
    NO_SLAVE_ACK, whatever count was asked for.  Memory is untouched and
    the only byte written to the data register is the address byte. *)
Theorem absent_slave_probe (m : machine) (a n p : Z) (ns : bool)
    (s nack : event) (rest : list event) :
  ev_code s = TW_START \/ ev_code s = TW_REP_START ->
  ev_code nack = TW_MT_SLA_NACK \/ ev_code nack = TW_MR_SLA_NACK ->
  exists mw mr,
    PutI2CW a n p ns (s :: nack :: rest) m = Some (mw, rest) /\
    GetI2CW a n p (s :: nack :: rest) m = Some (mr, rest) /\
    I2CStatus mw = I2C_NO_SLAVE_ACK /\ I2CStatus mr = I2C_NO_SLAVE_ACK /\
    ram mw = ram m /\ ram mr = ram m /\
    done_by m mw [START; WRITE_TWDR (u8 (Z.shiftl a 1));
                  CLR_BIT_TWCR TWSTA; STOP] /\
    done_by m mr [START; WRITE_TWDR (u8 (Z.lor (Z.shiftl a 1) 1));
                  CLR_BIT_TWCR TWSTA; STOP].
Proof.
  intros Hs Hn. unfold PutI2CW, GetI2CW, done_by.
  set (sw := exec (PutI2C a n p ns) m).
  set (sr := exec (GetI2C a n p) m).
  assert (Pw : I2C sw = mkI2C (u8 (Z.shiftl a 1)) n p ns I2C_WORKING /\
               ram sw = ram m /\ actions sw = actions m ++ [START])
    by (unfold sw; rewrite PutI2C_eq; now conjs).
  assert (Pr : I2C sr = mkI2C (u8 (Z.lor (Z.shiftl a 1) 1)) n p
                              (NoStop (I2C m)) I2C_WORKING /\
               ram sr = ram m /\ actions sr = actions m ++ [START])
    by (unfold sr; rewrite GetI2C_eq; now conjs).
  clearbody sw sr.
  destruct Pw as (Dw & Rw & Aw). destruct Pr as (Dr & Rr & Ar).
  assert (Bw : I2CBusy sw = true) by (apply busy_status; now rewrite Dw).
  assert (Br : I2CBusy sr = true) by (apply busy_status; now rewrite Dr).
  destruct (blocking_nack sw s nack rest Hs Hn Bw) as (W1 & S1 & R1 & _ & A1).
  destruct (blocking_nack sr s nack rest Hs Hn Br) as (W2 & S2 & R2 & _ & A2).
  exists (raise nack (raise s sw)), (raise nack (raise s sr)).
  split; [exact W1|]. split; [exact W2|].
  split; [exact S1|]. split; [exact S2|].
  split; [now rewrite R1|]. split; [now rewrite R2|].
  rewrite A1, A2, Aw, Ar, Dw, Dr, <- !app_assoc. split; reflexivity.
Qed.

Lemma absent_slave_probe_witness :
  let s := mkEvent 0x08 0 in
  let nack := mkEvent 0x48 0 in
  ((ev_code s = TW_START \/ ev_code s = TW_REP_START) /\
   (ev_code nack = TW_MT_SLA_NACK \/ ev_code nack = TW_MR_SLA_NACK)) /\
  exists mr,
    GetI2CW 0x33 1 100 [s; nack] m0 = Some (mr, []) /\
    I2CStatus mr = I2C_NO_SLAVE_ACK.
Proof.
  intros s nack.
  assert (Hs : ev_code s = TW_START \/ ev_code s = TW_REP_START)
    by (left; reflexivity).
  assert (Hn : ev_code nack = TW_MT_SLA_NACK \/ ev_code nack = TW_MR_SLA_NACK)
    by (right; reflexivity).
  destruct (absent_slave_probe m0 0x33 1 100 false s nack [] Hs Hn)
    as (mw & mr & _ & W & _ & S & _).
  split; [split; assumption|]. exists mr. split; assumption.
Defined.

(** X10.  The register-read idiom: a write of [n1] bytes with [NoStop]
    set, then a read of [n2 > 0] bytes.  Both wrappers return with status
    COMPLETE; the write issues no STOP, so the START of the read is a
    repeated START on a bus that was never released; over the two
    transfers exactly one STOP is issued, as the very last register
    access. *)
Theorem write_NoStop_then_read (m : machine) (a n1 p1 n2 p2 : Z)
    (s1 s2 sla : event) (acks bs rest : list event) :
  ev_code s1 = TW_START \/ ev_code s1 = TW_REP_START ->
  Forall write_ack acks ->
  0 <= n1 < 256 -> Z.of_nat (length acks) = n1 + 1 ->
  ev_code s2 = TW_START \/ ev_code s2 = TW_REP_START ->
  ev_code sla = TW_MR_SLA_ACK ->
  Forall data_event bs ->
  0 < n2 < 256 -> n2 = Z.of_nat (length bs) ->
  let pending := s2 :: sla :: bs ++ rest in
  exists m1 m2 l,
    PutI2CW a n1 p1 true (s1 :: acks ++ pending) m = Some (m1, pending) /\
    I2CStatus m1 = I2C_COMPLETE /\
    count_STOP (actions m1) = count_STOP (actions m) /\
    GetI2CW a n2 p2 pending m1 = Some (m2, rest) /\
    I2CStatus m2 = I2C_COMPLETE /\
    done_by m m2 (l ++ [STOP]) /\ count_STOP l = 0%nat /\
    (forall i, (i < length bs)%nat ->
               ram m2 (p2 + Z.of_nat i) = ev_TWDR (nth i bs s2)).
Proof.
  intros Hs1 Hacks Hn1 Hl1 Hs2 Hsla Hbs Hn2 Hl2. cbv zeta.
  destruct (blocking_write m a n1 p1 true s1 acks (s2 :: sla :: bs ++ rest)
              Hs1 Hacks Hn1 Hl1) as (W1 & D1 & _ & A1).
  remember (run (s1 :: acks) (exec (PutI2C a n1 p1 true) m)) as m1 eqn:E1.
  clear E1.
  destruct (blocking_read m1 a n2 p2 s2 sla bs rest Hs2 Hsla Hbs Hn2 Hl2)
    as (W2 & D2 & R2 & _ & l & A2 & C2).
  remember (run (s2 :: sla :: bs) (exec (GetI2C a n2 p2) m1)) as m2 eqn:E2.
  clear E2.
  exists m1, m2.
  exists (([START; WRITE_TWDR (u8 (Z.shiftl a 1)); CLR_BIT_TWCR TWSTA] ++
           flat_map (fun b => [WRITE_TWDR b; STEP])
                    (ram_bytes (ram m) p1 (Z.to_nat n1))) ++ l).
  split; [exact W1|]. split; [unfold I2CStatus; now rewrite D1|].
  split.
  { rewrite A1, app_nil_r, !count_STOP_app, count_STOP_sent. cbn. lia. }
  split; [exact W2|]. split; [unfold I2CStatus; now rewrite D2|].
  split.
  { unfold done_by. rewrite A2, A1, app_nil_r, <- !app_assoc. reflexivity. }
  split; [| exact R2].
  rewrite !count_STOP_app, count_STOP_sent, C2. reflexivity.
Qed.

Lemma write_NoStop_then_read_witness :
  let s := mkEvent 0x08 0 in
  let rs := mkEvent 0x10 0 in
  let acks := [mkEvent 0x18 0; mkEvent 0x28 0] in
  let sla := mkEvent 0x40 0 in
  let bs := [mkEvent 0x50 0x12; mkEvent 0x58 0x34] in
  ((ev_code s = TW_START \/ ev_code s = TW_REP_START) /\
   Forall write_ack acks /\ 0 <= 1 < 256 /\
   Z.of_nat (length acks) = 1 + 1 /\
   (ev_code rs = TW_START \/ ev_code rs = TW_REP_START) /\
   ev_code sla = TW_MR_SLA_ACK /\ Forall data_event bs /\
   0 < 2 < 256 /\ 2 = Z.of_nat (length bs)) /\
  exists m1 m2,
    PutI2CW 0x68 1 300 true (s :: acks ++ rs :: sla :: bs ++ []) m0
      = Some (m1, rs :: sla :: bs ++ []) /\
    GetI2CW 0x68 2 100 (rs :: sla :: bs ++ []) m1 = Some (m2, []) /\
    I2CStatus m2 = I2C_COMPLETE.
Proof.
  intros s rs acks sla bs.
  assert (H1 : ev_code s = TW_START \/ ev_code s = TW_REP_START)
    by (left; reflexivity).
  assert (H2 : Forall write_ack acks).
  { repeat constructor; first [now left | now right]. }
  assert (H3 : 0 <= 1 < 256) by lia.
  assert (H4 : Z.of_nat (length acks) = 1 + 1) by reflexivity.
  assert (H5 : ev_code rs = TW_START \/ ev_code rs = TW_REP_START)
    by (right; reflexivity).
  assert (H6 : ev_code sla = TW_MR_SLA_ACK) by reflexivity.
  assert (H7 : Forall data_event bs).
  { repeat constructor; first [now left | now right]. }
  assert (H8 : 0 < 2 < 256) by lia.
  assert (H9 : 2 = Z.of_nat (length bs)) by reflexivity.
  destruct (write_NoStop_then_read m0 0x68 1 300 2 100 s rs sla acks bs []
              H1 H2 H3 H4 H5 H6 H7 H8 H9)
    as (m1 & m2 & l & W1 & _ & _ & W2 & S2 & _).
  split.
  { split; [exact H1|]. split; [exact H2|]. split; [exact H3|].
    split; [exact H4|]. split; [exact H5|]. split; [exact H6|].
    split; [exact H7|]. split; [exact H8 | exact H9]. }
  exists m1, m2. split; [exact W1|]. split; [exact W2 | exact S2].
Defined.

(** ** An address with bit 7 set *)

(** X11.  The submission functions keep seven bits of the address they
    are given: the shift moves bit 7 out of the [uint8_t], so the
    addresses [a] and [a + 128] give the same address byte, and the same
    transfer. *)
Theorem address_bit7_dropped (m : machine) (a n p : Z) (ns : bool) :
  0 <= a < 128 ->
  exec (PutI2C (a + 128) n p ns) m = exec (PutI2C a n p ns) m /\
  exec (GetI2C (a + 128) n p) m = exec (GetI2C a n p) m.
Proof.
  intros Ha. rewrite !PutI2C_eq, !GetI2C_eq.
  assert (E1 : u8 (Z.shiftl (a + 128) 1) = u8 (Z.shiftl a 1)).
  { unfold u8. rewrite !Z.shiftl_mul_pow2 by lia. change (2 ^ 1) with 2.
    replace ((a + 128) * 2) with (a * 2 + 1 * 256) by lia.
    apply Z.mod_add. lia. }
  assert (E2 : u8 (Z.lor (Z.shiftl (a + 128) 1) 1) =
               u8 (Z.lor (Z.shiftl a 1) 1)).
  { unfold u8. rewrite !Z.shiftl_mul_pow2 by lia. change (2 ^ 1) with 2.
    rewrite !(Z.mul_comm _ 2), !lor_double_1.
    replace (2 * (a + 128) + 1) with (2 * a + 1 + 1 * 256) by lia.
    apply Z.mod_add. lia. }
  now rewrite E1, E2.
Qed.

Lemma address_bit7_dropped_witness :
  0 <= 0x50 < 128 /\
  SlaveAddr (I2C (exec (GetI2C 0xD0 1 100) m0)) = 0xA1.
Proof.
  assert (Ha : 0 <= 0x50 < 128) by lia.
  destruct (address_bit7_dropped m0 0x50 1 100 false Ha) as [_ E].
  split; [exact Ha|].
  change 0xD0 with (0x50 + 128). rewrite E. reflexivity.
Defined.

(** ** Character classes *)

Ltac zbool :=
  repeat match goal with
         | H : context [?a <=? ?b] |- _ => destruct (Z.leb_spec a b)
         | H : context [?a <? ?b] |- _ => destruct (Z.ltb_spec a b)
         | H : context [?a =? ?b] |- _ => destruct (Z.eqb_spec a b)
         | |- context [?a <=? ?b] => destruct (Z.leb_spec a b)
         | |- context [?a <? ?b] => destruct (Z.ltb_spec a b)
         | |- context [?a >? ?b] => rewrite (Z.gtb_ltb a b)
         | |- context [?a =? ?b] => destruct (Z.eqb_spec a b)
         end;
  cbn [andb orb negb] in *.

Ltac ctype :=
  unfold Cmd.digit, Cmd.hex_upper, Cmd.hex_lower, isxdigit, isalpha,
    isdigit, toupper, tolower, isupper, islower in *;
  change (chr "A") with 65 in *; change (chr "Z") with 90 in *;
  change (chr "F") with 70 in *; change (chr "a") with 97 in *;
  change (chr "z") with 122 in *; change (chr "f") with 102 in *;
  change (chr "0") with 48 in *; change (chr "9") with 57 in *;
  change (chr "x") with 120 in *; change (chr " ") with 32 in *.

Lemma fold_nonzero (c : Z) :
  c <> 0 -> (if isalpha c then toupper c else c) <> 0.
Proof. intros H. ctype. zbool; lia. Qed.

Lemma fold_idem (c : Z) :
  let f := fun c => if isalpha c then toupper c else c in f (f c) = f c.
Proof. cbv zeta. ctype. zbool; lia. Qed.

(** ** StrEQ *)

Lemma StrEQ_total (s1 : list Z) :
  forall s2, exists b, StrEQ s1 (Some s2) = Some b.
Proof.
  induction s1 as [| c1 s1 IH]; intros s2; cbn [StrEQ].
  - destruct s2; cbn; eauto.
  - destruct (Z.eqb_spec c1 0) as [| Hc]; [destruct s2; cbn; eauto|].
    destruct s2 as [| c2 s2]; cbn [next_char].
    + destruct (c1 =? chr " "); [eauto|].
      pose proof (fold_nonzero c1 Hc) as Hf.
      replace (if isalpha 0 then toupper 0 else 0) with 0 by reflexivity.
      apply Z.eqb_neq in Hf. rewrite Hf. cbn. eauto.
    + destruct (c1 =? chr " "); [eauto|].
      destruct (negb _); [eauto | apply IH].
Qed.

(** X12.  [StrEQ] never reads [String2] past its terminating NUL,
    whatever the two strings: it always returns an answer.  (The source
    relies on this: a shorter [String2] ends the comparison at its
    NUL.) *)
Theorem StrEQ_stays_in_bounds (String1 String2 : list Z) :
  StrEQ String1 (Some String2) = Some true \/
  StrEQ String1 (Some String2) = Some false.
Proof.
  destruct (StrEQ_total String1 String2) as [[|] H]; rewrite H; auto.
Qed.

Lemma StrEQ_word (s1 : list Z) :
  forall s2, word s1 -> c_string s2 ->
    (StrEQ s1 (Some s2) = Some true <-> upcase s1 = upcase s2).
Proof.
  induction s1 as [| c1 s1 IH]; intros s2 H1 H2; cbn [StrEQ].
  - destruct s2 as [| c2 s2]; cbn [at_end upcase map].
    + tauto.
    + inversion H2 as [| ? ? Hc _]; subst. apply Z.eqb_neq in Hc.
      rewrite Hc. split; intros H; discriminate H.
  - inversion H1 as [| ? ? [Hz Hsp] H1']; subst.
    apply Z.eqb_neq in Hz, Hsp. rewrite Hz, Hsp.
    apply Z.eqb_neq in Hz.
    destruct s2 as [| c2 s2]; cbn [next_char upcase map].
    + pose proof (fold_nonzero c1 Hz) as Hf.
      replace (if isalpha 0 then toupper 0 else 0) with 0 by reflexivity.
      apply Z.eqb_neq in Hf. rewrite Hf. cbn [negb].
      split; intros H; discriminate H.
    + inversion H2 as [| ? ? _ H2']; subst.
      destruct (Z.eqb_spec (if isalpha c1 then toupper c1 else c1)
                           (if isalpha c2 then toupper c2 else c2))
        as [E | E]; cbn [negb].
      * rewrite (IH s2 H1' H2'). unfold upcase. rewrite E.
        split; intros H; [now rewrite H | now inversion H].
      * split; intros H; [discriminate H | inversion H; contradiction].
Qed.

(** X13.  On a word (no space in it) [StrEQ] is equality without regard
    to case: it answers TRUE exactly if the two strings, letters folded
    to upper case, are the same. *)
Theorem StrEQ_case_insensitive (String1 String2 : list Z) :
  word String1 -> c_string String2 ->
  (StrEQ String1 (Some String2) = Some true <->
   upcase String1 = upcase String2) /\
  StrEQ String1 (Some String1) = Some true /\
  StrEQ (upcase String1) (Some String2) = StrEQ String1 (Some String2).
Proof.
  intros H1 H2.
  assert (Hw : word String1 -> c_string String1).
  { intros H. unfold word, c_string in *. eapply Forall_impl; [| exact H].
    cbn. tauto. }
  assert (Hu : word (upcase String1)).
  { unfold word, upcase in *. apply Forall_map.
    eapply Forall_impl; [| exact H1]. cbn. intros c [Hz Hs].
    split; [now apply fold_nonzero|]. ctype. zbool; lia. }
  assert (Hi : upcase (upcase String1) = upcase String1).
  { unfold upcase. rewrite map_map. apply map_ext. intros c.
    apply fold_idem. }
  split; [now apply StrEQ_word|]. split.
  - apply StrEQ_word; auto.
  - destruct (StrEQ_total (upcase String1) String2) as [b1 E1].
    destruct (StrEQ_total String1 String2) as [b2 E2].
    rewrite E1, E2. f_equal.
    pose proof (StrEQ_word _ _ Hu H2) as W1.
    pose proof (StrEQ_word _ _ H1 H2) as W2.
    rewrite Hi, E1 in W1. rewrite E2 in W2.
    destruct b1, b2; try reflexivity.
    + assert (Some false = Some true) by (apply W2, W1; reflexivity).
      discriminate.
    + assert (Some false = Some true) by (apply W1, W2; reflexivity).
      discriminate.
Qed.

Lemma StrEQ_case_insensitive_witness :
  (word (str "dump") /\ c_string (str "DuMP")) /\
  StrEQ (str "dump") (Some (str "DuMP")) = Some true.
Proof.
  assert (H1 : word (str "dump")).
  { repeat constructor; discriminate. }
  assert (H2 : c_string (str "DuMP")).
  { repeat constructor; discriminate. }
  destruct (StrEQ_case_insensitive (str "dump") (str "DuMP") H1 H2)
    as (T & _ & _).
  split; [split; assumption|]. apply T. reflexivity.
Defined.

(** X14.  A space in [String1] ends the comparison with TRUE: a
    [String1] that is a word followed by a space matches every
    [String2] that begins with that word (case folded), whatever
    follows in either string. *)
Theorem StrEQ_space_ends (pre rest String2 : list Z) :
  word pre -> c_string String2 ->
  (StrEQ (pre ++ chr " " :: rest) (Some String2) = Some true <->
   exists t, upcase String2 = upcase pre ++ t).
Proof.
  revert String2. induction pre as [| c1 pre IH]; intros s2 H1 H2.
  - cbn [app StrEQ]. change (chr " " =? 0) with false.
    destruct s2; cbn [next_char]; rewrite Z.eqb_refl;
      (split; [intros _; eexists; reflexivity | reflexivity]).
  - inversion H1 as [| ? ? [Hz Hsp] H1']; subst. cbn [app StrEQ].
    apply Z.eqb_neq in Hz, Hsp. rewrite Hz, Hsp. apply Z.eqb_neq in Hz.
    destruct s2 as [| c2 s2]; cbn [next_char upcase map app].
    + pose proof (fold_nonzero c1 Hz) as Hf.
      replace (if isalpha 0 then toupper 0 else 0) with 0 by reflexivity.
      apply Z.eqb_neq in Hf. rewrite Hf. cbn [negb].
      split; [intros H; discriminate H | intros [t H]; discriminate H].
    + inversion H2 as [| ? ? _ H2']; subst.
      destruct (Z.eqb_spec (if isalpha c1 then toupper c1 else c1)
                           (if isalpha c2 then toupper c2 else c2))
        as [E | E]; cbn [negb].
      * rewrite (IH s2 H1' H2'). unfold upcase. rewrite E.
        split; intros [t H]; exists t; [now rewrite H | now inversion H].
      * split; [intros H; discriminate H|].
        intros [t H]. inversion H. congruence.
Qed.

Lemma StrEQ_space_ends_witness :
  (word (str "R") /\ c_string (str "RX")) /\
  StrEQ (str "R" ++ chr " " :: str "50 2") (Some (str "RX")) = Some true.
Proof.
  assert (H1 : word (str "R")) by (repeat constructor; discriminate).
  assert (H2 : c_string (str "RX")) by (repeat constructor; discriminate).
  split; [split; assumption|].
  apply (StrEQ_space_ends (str "R") (str "50 2") (str "RX") H1 H2).
  exists (str "X"). reflexivity.
Defined.

(** ** ParseValue and ParseNBytes *)

Lemma digit_range (c : Z) : isxdigit c = true -> 0 <= Cmd.digit c < 16.
Proof. intros H. ctype. zbool; try discriminate H; lia. Qed.

Lemma u8_small (x : Z) : 0 <= x < 256 -> u8 x = x.
Proof. intros H. unfold u8. now apply Z.mod_small. Qed.

Lemma shiftl4 (x : Z) : Z.shiftl x 4 = 16 * x.
Proof. rewrite Z.shiftl_mul_pow2 by lia. change (2 ^ 4) with 16. lia. Qed.

(** The token after an optional [0x] or [0X]. *)
Lemma ParseValue_Token (tok : list Z) (g : Cmd.globals) :
  Cmd.Token (snd (Cmd.ParseValue tok g)) =
  if (Cmd.at_ tok 0 =? chr "0") && (tolower (Cmd.at_ tok 1) =? chr "x")
  then skipn 2 tok else tok.
Proof.
  unfold Cmd.ParseValue.
  set (T := if (Cmd.at_ tok 0 =? chr "0") && _ then _ else _).
  destruct ((length T =? 0)%nat || (2 <? length T)%nat); [reflexivity|].
  destruct (negb (isxdigit (Cmd.at_ T 0))); [reflexivity|].
  cbn [Cmd.nBytes Cmd.out Cmd.Value].
  destruct (length T =? 1)%nat; [reflexivity|].
  destruct (negb (isxdigit (Cmd.at_ T 1))); reflexivity.
Qed.

(** X15.  [ParseValue] accepts a token exactly if, after an optional
    [0x] or [0X], it is one or two hexadecimal digits; [Value] is then
    the number they denote, below 256.  Whatever the token, the count
    and the output are left alone. *)
Theorem ParseValue_hex (tok : list Z) (g : Cmd.globals) :
  let r := Cmd.ParseValue tok g in
  let T := Cmd.Token (snd r) in
  (fst r = true <->
   (length T = 1 \/ length T = 2)%nat /\ forallb isxdigit T = true) /\
  (fst r = true ->
   Cmd.Value (snd r) = Cmd.hex_value T /\ 0 <= Cmd.Value (snd r) < 256) /\
  Cmd.nBytes (snd r) = Cmd.nBytes g /\ Cmd.out (snd r) = Cmd.out g.
Proof.
  cbv zeta. rewrite ParseValue_Token. unfold Cmd.ParseValue.
  set (T := if (Cmd.at_ tok 0 =? chr "0") && _ then _ else _).
  destruct T as [| d1 [| d2 [| d3 T]]]; cbn [length Nat.eqb Nat.ltb Nat.leb orb
    fst snd Cmd.Value Cmd.nBytes Cmd.out Cmd.at_ nth forallb].
  - split; [| split; [intros H; discriminate H | now split]].
    split; [intros H; discriminate H | intros [[H | H] _]; discriminate H].
  - destruct (isxdigit d1) eqn:X1; cbn [negb fst snd andb Cmd.Value
      Cmd.nBytes Cmd.out].
    + pose proof (digit_range d1 X1) as R1.
      split; [| split; [intros _ | now split]].
      * split; [intros _; split; [now left | reflexivity] | reflexivity].
      * unfold Cmd.hex_value. cbn [fold_left].
        rewrite u8_small by lia. split; lia.
    + split; [| split; [intros H; discriminate H | now split]].
      split; [intros H; discriminate H | intros [_ H]; discriminate H].
  - destruct (isxdigit d1) eqn:X1; cbn [negb fst snd andb Cmd.Value
      Cmd.nBytes Cmd.out].
    + pose proof (digit_range d1 X1) as R1.
      destruct (isxdigit d2) eqn:X2; cbn [negb fst snd andb Cmd.Value
        Cmd.nBytes Cmd.out].
      * pose proof (digit_range d2 X2) as R2.
        split; [| split; [intros _ | now split]].
        -- split; [intros _; split; [now right | reflexivity] | reflexivity].
        -- unfold Cmd.hex_value. cbn [fold_left].
           rewrite (u8_small (Cmd.digit d1)) by lia.
           rewrite shiftl4, (u8_small (16 * _)) by lia.
           rewrite u8_small by lia. split; lia.
      * split; [| split; [intros H; discriminate H | now split]].
        split; [intros H; discriminate H | intros [_ H]; discriminate H].
    + split; [| split; [intros H; discriminate H | now split]].
      split; [intros H; discriminate H | intros [_ H]; discriminate H].
  - split; [| split; [intros H; discriminate H | now split]].
    split; [intros H; discriminate H|].
    intros [[H | H] _]; cbn in H; lia.
Qed.

Lemma ParseValue_hex_witness :
  let r := Cmd.ParseValue (str "0x1f") (Cmd.mkGlobals [] 0 0 []) in
  fst r = true /\ Cmd.Value (snd r) = 31 /\ Cmd.Token (snd r) = str "1f".
Proof.
  intros r.
  destruct (ParseValue_hex (str "0x1f") (Cmd.mkGlobals [] 0 0 []))
    as (_ & T & _).
  assert (H : fst r = true) by reflexivity.
  destruct (T H) as [V _].
  split; [exact H|]. split; [exact V | reflexivity].
Defined.

Lemma hex_digit_facts (d : Z) :
  0 <= d < 16 ->
  (isxdigit (Cmd.hex_upper d) = true /\ Cmd.digit (Cmd.hex_upper d) = d /\
   tolower (Cmd.hex_upper d) <> chr "x") /\
  (isxdigit (Cmd.hex_lower d) = true /\ Cmd.digit (Cmd.hex_lower d) = d /\
   tolower (Cmd.hex_lower d) <> chr "x").
Proof.
  intros H.
  assert (E : In d [0; 1; 2; 3; 4; 5; 6; 7; 8; 9; 10; 11; 12; 13; 14; 15])
    by (cbn [In]; lia).
  cbn [In] in E.
  repeat (destruct E as [<- | E];
          [vm_compute; conjs; solve [reflexivity | discriminate] |]).
  destruct E.
Qed.

Lemma ParseValue_range (tok : list Z) (g : Cmd.globals) :
  0 <= Cmd.Value g < 256 ->
  0 <= Cmd.Value (snd (Cmd.ParseValue tok g)) < 256.
Proof.
  intros Hg. unfold Cmd.ParseValue.
  set (T := if (Cmd.at_ tok 0 =? chr "0") && _ then _ else _).
  assert (U : forall x, 0 <= u8 x < 256)
    by (intros x; unfold u8; apply Z.mod_pos_bound; lia).
  destruct ((length T =? 0)%nat || (2 <? length T)%nat); [exact Hg|].
  destruct (negb (isxdigit (Cmd.at_ T 0))); [exact Hg|].
  cbn [Cmd.nBytes Cmd.out Cmd.Value].
  destruct (length T =? 1)%nat; [apply U|].
  destruct (negb (isxdigit (Cmd.at_ T 1))); apply U.
Qed.

Lemma ParseValue_two_digits (d1 d2 : Z) (g : Cmd.globals) :
  isxdigit d1 = true -> isxdigit d2 = true -> tolower d2 <> chr "x" ->
  Cmd.ParseValue [d1; d2] g =
  (true, Cmd.mkGlobals [d1; d2] (16 * Cmd.digit d1 + Cmd.digit d2)
                       (Cmd.nBytes g) (Cmd.out g)).
Proof.
  intros X1 X2 Hx. pose proof (digit_range d1 X1) as R1.
  pose proof (digit_range d2 X2) as R2.
  unfold Cmd.ParseValue. cbn [Cmd.at_ nth].
  apply Z.eqb_neq in Hx. rewrite Hx, andb_false_r.
  cbn [length Nat.eqb Nat.ltb Nat.leb orb Cmd.at_ nth].
  rewrite X1, X2.
  cbn [negb Cmd.Value Cmd.nBytes Cmd.out length Nat.eqb].
  rewrite (u8_small (Cmd.digit d1)) by lia.
  rewrite shiftl4, (u8_small (16 * _)) by lia.
  rewrite u8_small by lia. reflexivity.
Qed.

Lemma ParseValue_prefixed (x d1 d2 : Z) (g : Cmd.globals) :
  tolower x = chr "x" ->
  Cmd.ParseValue (chr "0" :: x :: [d1; d2]) g =
  let g' := Cmd.mkGlobals [d1; d2] (Cmd.Value g) (Cmd.nBytes g) (Cmd.out g) in
  if negb (isxdigit d1) then (false, g')
  else if negb (isxdigit d2) then
    (false, Cmd.mkGlobals [d1; d2] (u8 (Cmd.digit d1)) (Cmd.nBytes g)
                          (Cmd.out g))
  else
    (true, Cmd.mkGlobals [d1; d2]
             (u8 (u8 (Z.shiftl (u8 (Cmd.digit d1)) 4) + Cmd.digit d2))
             (Cmd.nBytes g) (Cmd.out g)).
Proof.
  intros Hx. unfold Cmd.ParseValue. cbn [Cmd.at_ nth].
  rewrite Hx, !Z.eqb_refl. cbn [andb skipn length Nat.eqb Nat.ltb Nat.leb orb
    Cmd.at_ nth].
  destruct (isxdigit d1); cbn [negb]; [| reflexivity].
  cbn [Cmd.Value Cmd.nBytes Cmd.out].
  destruct (isxdigit d2); reflexivity.
Qed.

(** X16.  Every byte can be entered: for [0 <= v < 256] the two
    hexadecimal digits of [v], in upper or in lower case, with or
    without a [0x] or [0X] in front, are accepted by [ParseValue] and
    give [Value = v]. *)
Theorem ParseValue_reads_every_byte (v : Z) (g : Cmd.globals) :
  0 <= v < 256 ->
  let U := [Cmd.hex_upper (v / 16); Cmd.hex_upper (v mod 16)] in
  let L := [Cmd.hex_lower (v / 16); Cmd.hex_lower (v mod 16)] in
  forall tok,
    In tok [U; L; str "0x" ++ U; str "0X" ++ U; str "0x" ++ L;
            str "0X" ++ L] ->
    fst (Cmd.ParseValue tok g) = true /\
    Cmd.Value (snd (Cmd.ParseValue tok g)) = v.
Proof.
  intros Hv U L tok Hin.
  assert (Hh : 0 <= v / 16 < 16).
  { split; [apply Z.div_pos; lia | apply Z.div_lt_upper_bound; lia]. }
  assert (Hl : 0 <= v mod 16 < 16) by (apply Z.mod_pos_bound; lia).
  assert (Ev : 16 * (v / 16) + v mod 16 = v)
    by (symmetry; apply Z.div_mod; lia).
  destruct (hex_digit_facts (v / 16) Hh) as ((XU1 & DU1 & _) & XL1 & DL1 & _).
  destruct (hex_digit_facts (v mod 16) Hl)
    as ((XU2 & DU2 & NU2) & XL2 & DL2 & NL2).
  assert (PU : Cmd.ParseValue U g =
               (true, Cmd.mkGlobals U v (Cmd.nBytes g) (Cmd.out g))).
  { unfold U. rewrite ParseValue_two_digits by assumption.
    now rewrite DU1, DU2, Ev. }
  assert (PL : Cmd.ParseValue L g =
               (true, Cmd.mkGlobals L v (Cmd.nBytes g) (Cmd.out g))).
  { unfold L. rewrite ParseValue_two_digits by assumption.
    now rewrite DL1, DL2, Ev. }
  assert (QU : forall x, tolower x = chr "x" ->
             Cmd.ParseValue (chr "0" :: x :: U) g =
             (true, Cmd.mkGlobals U v (Cmd.nBytes g) (Cmd.out g))).
  { intros x Hx. unfold U. rewrite (ParseValue_prefixed x _ _ g Hx).
    cbv zeta. rewrite XU1, XU2. cbn [negb]. rewrite DU1, DU2.
    rewrite (u8_small (v / 16)) by lia.
    rewrite shiftl4, (u8_small (16 * _)) by lia.
    rewrite u8_small by lia. now rewrite Ev. }
  assert (QL : forall x, tolower x = chr "x" ->
             Cmd.ParseValue (chr "0" :: x :: L) g =
             (true, Cmd.mkGlobals L v (Cmd.nBytes g) (Cmd.out g))).
  { intros x Hx. unfold L. rewrite (ParseValue_prefixed x _ _ g Hx).
    cbv zeta. rewrite XL1, XL2. cbn [negb]. rewrite DL1, DL2.
    rewrite (u8_small (v / 16)) by lia.
    rewrite shiftl4, (u8_small (16 * _)) by lia.
    rewrite u8_small by lia. now rewrite Ev. }
  cbn [In] in Hin.
  destruct Hin as [<- | [<- | [<- | [<- | [<- | [<- | []]]]]]].
  - now rewrite PU.
  - now rewrite PL.
  - change (str "0x" ++ U) with (chr "0" :: chr "x" :: U).
    now rewrite (QU (chr "x") eq_refl).
  - change (str "0X" ++ U) with (chr "0" :: chr "X" :: U).
    now rewrite (QU (chr "X") eq_refl).
  - change (str "0x" ++ L) with (chr "0" :: chr "x" :: L).
    now rewrite (QL (chr "x") eq_refl).
  - change (str "0X" ++ L) with (chr "0" :: chr "X" :: L).
    now rewrite (QL (chr "X") eq_refl).
Qed.

Lemma ParseValue_reads_every_byte_witness :
  0 <= 0xA7 < 256 /\
  In (str "0xa7") [str "A7"; str "a7"; str "0xA7"; str "0XA7"; str "0xa7";
                   str "0Xa7"] /\
  Cmd.Value (snd (Cmd.ParseValue (str "0xa7") (Cmd.mkGlobals [] 0 0 [])))
  = 0xA7.
Proof.
  assert (Hv : 0 <= 0xA7 < 256) by lia.
  assert (Hin : In (str "0xa7")
                   [str "A7"; str "a7"; str "0xA7"; str "0XA7"; str "0xa7";
                    str "0Xa7"]) by (cbn; tauto).
  split; [exact Hv|]. split; [exact Hin|].
  exact (proj2 (ParseValue_reads_every_byte 0xA7 (Cmd.mkGlobals [] 0 0 [])
                  Hv (str "0xa7") Hin)).
Defined.

Lemma ParseValue_frame (tok : list Z) (g : Cmd.globals) :
  Cmd.nBytes (snd (Cmd.ParseValue tok g)) = Cmd.nBytes g /\
  Cmd.out (snd (Cmd.ParseValue tok g)) = Cmd.out g.
Proof.
  unfold Cmd.ParseValue.
  set (T := if (Cmd.at_ tok 0 =? chr "0") && _ then _ else _).
  destruct ((length T =? 0)%nat || (2 <? length T)%nat); [now split|].
  destruct (negb (isxdigit (Cmd.at_ T 0))); [now split|].
  cbn [Cmd.nBytes Cmd.out Cmd.Value].
  destruct (length T =? 1)%nat; [now split|].
  destruct (negb (isxdigit (Cmd.at_ T 1))); now split.
Qed.

(** X17.  [ParseNBytes] succeeds exactly if [ParseValue] accepts the
    token and the value is between 1 and [MAX_RWBYTES] (0xF0, the size of
    the shell's buffer).  On success the count is that value and nothing
    is printed; on failure the count is left as it was and a message is
    printed, ending with a blank line. *)
Theorem ParseNBytes_guard (tok : list Z) (g : Cmd.globals) :
  0 <= Cmd.Value g < 256 ->
  let pv := Cmd.ParseValue tok g in
  let r := Cmd.ParseNBytes tok g in
  (fst r = true <-> fst pv = true /\ 1 <= Cmd.Value (snd pv) <= 0xF0) /\
  (fst r = true ->
   Cmd.nBytes (snd r) = Cmd.Value (snd pv) /\
   0 < Cmd.nBytes (snd r) <= Cmd.MAX_RWBYTES /\
   Cmd.out (snd r) = Cmd.out g) /\
  (fst r = false ->
   Cmd.nBytes (snd r) = Cmd.nBytes g /\
   exists msg, Cmd.out (snd r) = Cmd.out g ++ msg ++ [PrintCRLF]).
Proof.
  intros Hg. cbv zeta. unfold Cmd.ParseNBytes.
  destruct (ParseValue_frame tok g) as [Fn Fo].
  pose proof (ParseValue_range tok g Hg) as Hr.
  destruct (Cmd.ParseValue tok g) as [ok g1]. cbn [fst snd] in *.
  destruct ok; cbn [negb].
  - unfold Cmd.MAX_RWBYTES. rewrite Z.gtb_ltb.
    destruct (Z.ltb_spec 0xF0 (Cmd.Value g1)) as [Hbig | Hbig].
    + cbn [fst snd Cmd.print Cmd.nBytes Cmd.out].
      split; [split; [intros H; discriminate H | intros [_ H]; lia]|].
      split; [intros H; discriminate H|]. intros _. split; [exact Fn|].
      rewrite Fo.
      exists [PrintString (str "nBytes too big ("); PrintString (Cmd.Token g1);
              PrintString (str "), must <= "); PrintH 240;
              PrintString (str "." ++ Cmd.CRLF);
              PrintString (str "Type '?' for help" ++ Cmd.CRLF)].
      rewrite <- !app_assoc. reflexivity.
    + destruct (Z.eqb_spec (Cmd.Value g1) 0) as [Hz | Hz].
      * cbn [fst snd Cmd.print Cmd.nBytes Cmd.out].
        split; [split; [intros H; discriminate H | intros [_ H]; lia]|].
        split; [intros H; discriminate H|]. intros _. split; [exact Fn|].
        rewrite Fo.
        exists [PrintString
                  (str "nBytes cannot be zero! Causes hang!" ++ Cmd.CRLF);
                PrintString (str "Type '?' for help" ++ Cmd.CRLF)].
        rewrite <- !app_assoc. reflexivity.
      * cbn [fst snd Cmd.nBytes Cmd.out].
        split; [| split; [| intros H; discriminate H]].
        -- split; [intros _ | reflexivity]. split; [reflexivity | lia].
        -- intros _. split; [reflexivity|]. split; [lia | exact Fo].
  - cbn [fst snd Cmd.print Cmd.nBytes Cmd.out].
    split; [split; [intros H; discriminate H | intros [H _]; discriminate H]|].
    split; [intros H; discriminate H|]. intros _. split; [exact Fn|].
    rewrite Fo.
    exists [PrintString (str "Unrecognized nBytes (");
            PrintString (Cmd.Token g1);
            PrintString (str "), must 2 hex chars." ++ Cmd.CRLF);
            PrintString (str "Type '?' for help" ++ Cmd.CRLF)].
    rewrite <- !app_assoc. reflexivity.
Qed.

Lemma ParseNBytes_guard_witness :
  let g := Cmd.mkGlobals [] 0 7 [] in
  0 <= Cmd.Value g < 256 /\
  fst (Cmd.ParseNBytes (str "10") g) = true /\
  Cmd.nBytes (snd (Cmd.ParseNBytes (str "10") g)) = 16 /\
  fst (Cmd.ParseNBytes (str "0") g) = false /\
  Cmd.nBytes (snd (Cmd.ParseNBytes (str "0") g)) = 7.
Proof.
  intros g.
  assert (Hg : 0 <= Cmd.Value g < 256) by (cbn; lia).
  destruct (ParseNBytes_guard (str "10") g Hg) as (_ & T1 & _).
  destruct (ParseNBytes_guard (str "0") g Hg) as (_ & _ & T2).
  assert (E1 : fst (Cmd.ParseNBytes (str "10") g) = true) by reflexivity.
  assert (E2 : fst (Cmd.ParseNBytes (str "0") g) = false) by reflexivity.
  destruct (T1 E1) as (V1 & _). destruct (T2 E2) as (V2 & _).
  split; [exact Hg|]. split; [exact E1|]. split; [exact V1|].
  split; [exact E2 | exact V2].
Defined.

(** ** The line buffer *)

Lemma array_set_mid (l1 l2 : list Z) (x v : Z) :
  array_set (l1 ++ x :: l2) (Z.of_nat (length l1)) v = Some (l1 ++ v :: l2).
Proof.
  unfold array_set. rewrite length_app. cbn [length].
  replace ((0 <=? Z.of_nat (length l1)) &&
           (Z.of_nat (length l1) <? Z.of_nat (length l1 + S (length l2))))
    with true
    by (symmetry; apply andb_true_iff; split;
        [apply Z.leb_le | apply Z.ltb_lt]; lia).
  rewrite Nat2Z.id. f_equal. f_equal.
  - rewrite firstn_app, Nat.sub_diag, firstn_all. cbn [firstn].
    apply app_nil_r.
  - replace (S (length l1)) with (length l1 + 1)%nat by lia.
    rewrite skipn_app, skipn_all2 by lia.
    replace (length l1 + 1 - length l1)%nat with 1%nat by lia.
    reflexivity.
Qed.

Lemma cstr_line (line : list Z) (k : nat) :
  Forall (fun ch => ch <> 0) line -> cstr (line ++ repeat 0 (S k)) = line.
Proof.
  induction 1 as [| ch line Hc _ IH]; cbn [app cstr].
  - cbn. reflexivity.
  - apply Z.eqb_neq in Hc. now rewrite Hc, IH.
Qed.

Lemma strcpy_ESC (a : list Z) :
  (2 <= length a)%nat ->
  exists a', strcpy a 0 ESC_CMD = Some a' /\ cstr a' = [ESC] /\
             length a' = length a.
Proof.
  intros H. destruct a as [| x1 [| x2 a]]; cbn [length] in H; try lia.
  pose proof (array_set_mid [] (x2 :: a) x1 ESC) as E1.
  pose proof (array_set_mid [ESC] a x2 0) as E2.
  cbn [app length Z.of_nat Pos.of_succ_nat] in E1, E2.
  unfold ESC_CMD, strcpy. rewrite E1. cbn [Z.add]. rewrite E2.
  eexists. split; [reflexivity|]. split; reflexivity.
Qed.

Lemma holds_init (c : console) : holds [] (InitLineBuffer c).
Proof. unfold holds. cbn. conjs; try reflexivity; [lia | constructor]. Qed.

Lemma holds_Prompt (line : list Z) (c : console) :
  holds line c -> holds line (Prompt c).
Proof. intros H. exact H. Qed.

Lemma plain_char_spec (ch : Z) :
  plain_char ch = true ->
  ch <> 0 /\ ch <> BACKSPACE /\ ch <> CR /\ ch <> LF /\ ch <> ESC.
Proof.
  unfold plain_char. intros H. apply negb_true_iff in H.
  repeat (apply orb_false_iff in H; destruct H as [H ?]).
  repeat match goal with
         | E : (_ =? _) = false |- _ => apply Z.eqb_neq in E
         end.
  now conjs.
Qed.

Lemma type_plain (line : list Z) (ch : Z) (c : console) :
  holds line c -> plain_char ch = true ->
  exists c',
    ProcessSerialInput ch c = Some c' /\
    holds (if (length line <? 100)%nat then line ++ [ch] else line) c' /\
    calls c' = calls c ++ [PrintString [ch]].
Proof.
  intros (Hb & Hn & Hl & Hz) Hp.
  destruct (plain_char_spec ch Hp) as (P0 & P1 & P2 & P3 & P4).
  unfold ProcessSerialInput, PlotCursor, emit.
  apply Z.eqb_neq in P0, P1, P2, P3, P4. rewrite P0, P1, P2, P3, P4.
  cbn [negb orb LineBuffer nChars calls]. rewrite Hn. unfold MAX_CMD_LENGTH.
  destruct (Nat.ltb_spec (length line) 100) as [Hlt | Hge].
  - replace (Z.of_nat (length line) <? 100) with true by (symmetry; lia).
    rewrite Hb.
    replace (101 - length line)%nat with (S (100 - length line)) by lia.
    cbn [repeat]. rewrite array_set_mid.
    eexists. split; [reflexivity|]. split; [| reflexivity].
    unfold holds. cbn [LineBuffer nChars]. rewrite length_app. cbn [length].
    conjs.
    + rewrite <- app_assoc. cbn [app]. do 3 f_equal. lia.
    + lia.
    + lia.
    + apply Forall_app. split; [exact Hz|]. constructor; [| constructor].
      now apply Z.eqb_neq.
  - replace (Z.of_nat (length line) <? 100) with false by (symmetry; lia).
    eexists. split; [reflexivity|]. split; [| reflexivity].
    unfold holds. cbn [LineBuffer nChars]. now conjs.
Qed.

Lemma type_plain_line (input : list Z) :
  forall (line : list Z) (c : console),
    holds line c -> forallb plain_char input = true ->
    exists c',
      type_chars input c = Some c' /\
      holds (firstn 100 (line ++ input)) c' /\
      calls c' = calls c ++ map (fun ch => PrintString [ch]) input.
Proof.
  induction input as [| ch input IH]; intros line c H Hp.
  - exists c. cbn [type_chars map]. rewrite !app_nil_r.
    destruct H as (Hb & Hn & Hl & Hz). rewrite firstn_all2 by lia.
    now conjs.
  - cbn [forallb] in Hp. apply andb_true_iff in Hp. destruct Hp as [Hc Hp].
    destruct (type_plain line ch c H Hc) as (c1 & E1 & H1 & C1).
    cbn [type_chars]. rewrite E1.
    destruct (IH _ c1 H1 Hp) as (c' & E & H' & C').
    exists c'. split; [exact E|]. split.
    + destruct H as (_ & _ & Hl & _).
      destruct (Nat.ltb_spec (length line) 100) as [Hlt | Hge].
      * rewrite <- app_assoc in H'. exact H'.
      * rewrite firstn_app in H'. rewrite firstn_app.
        replace (100 - length line)%nat with 0%nat in * by lia.
        exact H'.
    + rewrite C', C1, <- app_assoc. reflexivity.
Qed.

(** X18.  [ProcessSerialInput] never writes outside [LineBuffer],
    whatever is typed: after any input the array still holds a line of
    at most 100 characters, none of them NUL, followed by NULs, with
    [nChars] its length; so the line always has its terminating NUL. *)
Theorem line_buffer_safe (input : list Z) (line : list Z) (c : console) :
  holds line c ->
  exists c' line', type_chars input c = Some c' /\ holds line' c'.
Proof.
  revert line c. induction input as [| ch input IH]; intros line c H.
  - exists c, line. now split.
  - cbn [type_chars].
    assert (S : exists c1 line1,
               ProcessSerialInput ch c = Some c1 /\ holds line1 c1).
    { destruct (plain_char ch) eqn:Hp.
      - destruct (type_plain line ch c H Hp) as (c1 & E1 & H1 & _). eauto.
      - unfold ProcessSerialInput, PlotCursor.
        destruct (Z.eqb_spec ch 0); [eauto|].
        destruct (Z.eqb_spec ch BACKSPACE).
        + destruct H as (Hb & Hn & Hl & Hz).
          destruct (Z.eqb_spec (nChars c) 0) as [E0 | E0]; cbn [negb].
          * exists c, line. split; [reflexivity|]. unfold holds. now conjs.
          * destruct (exists_last (l := line)) as (l' & x & ->).
            { intros ->. apply E0. exact Hn. }
            rewrite length_app in Hn, Hl, Hb. cbn [length] in Hn, Hl, Hb.
            rewrite Hn, Hb.
            replace (Z.of_nat (length l' + 1) - 1) with (Z.of_nat (length l'))
              by lia.
            rewrite <- app_assoc. cbn [app]. rewrite array_set_mid.
            eexists. exists l'. split; [reflexivity|].
            unfold holds, emit. cbn [LineBuffer nChars].
            apply Forall_app in Hz. destruct Hz as [Hz _].
            conjs; try lia; try assumption.
            f_equal.
            replace (101 - length l')%nat
              with (S (101 - (length l' + 1))) by lia.
            reflexivity.
        + unfold plain_char in Hp. apply negb_false_iff in Hp.
          destruct (Z.eqb_spec ch CR) as [-> | Hcr].
          * cbn [orb]. change (CR =? ESC) with false. cbv iota.
            eexists. exists []. split; [reflexivity|].
            apply holds_Prompt, holds_init.
          * destruct (Z.eqb_spec ch ESC) as [-> | Hesc].
            -- cbn [orb]. destruct H as (Hb & _ & Hl & _).
               unfold emit. cbn [LineBuffer nChars calls].
               assert (A : exists a, strcpy (LineBuffer c) 0 ESC_CMD = Some a).
               { destruct (strcpy_ESC (LineBuffer c)) as (a & Ea & _);
                   [| eauto].
                 rewrite Hb, length_app, repeat_length. lia. }
               destruct A as [a Ea]. rewrite Ea.
               eexists. exists []. split; [reflexivity|].
               apply holds_Prompt, holds_init.
            -- cbn [orb]. destruct (Z.eqb_spec ch LF) as [-> | Hlf].
               ++ exists (emit (PrintString (if negb true then [LF] else []))
                               c), line.
                  split; [reflexivity | exact H].
               ++ exfalso.
                  repeat match goal with
                         | E : _ <> _ |- _ =>
                             apply Z.eqb_neq in E; try rewrite E in Hp
                         end.
                  discriminate Hp. }
    destruct S as (c1 & line1 & E1 & H1). rewrite E1.
    exact (IH line1 c1 H1).
Qed.

Lemma line_buffer_safe_witness :
  holds [] console0 /\
  exists c' line',
    type_chars (str "R 50 2" ++ [BACKSPACE; CR; ESC; 0; LF]) console0
    = Some c' /\ holds line' c'.
Proof.
  assert (H : holds [] console0) by apply holds_init.
  split; [exact H|].
  exact (line_buffer_safe (str "R 50 2" ++ [BACKSPACE; CR; ESC; 0; LF])
                          [] console0 H).
Defined.

Lemma type_chars_app (a b : list Z) (c : console) :
  type_chars (a ++ b) c =
  match type_chars a c with
  | Some c1 => type_chars b c1
  | None => None
  end.
Proof.
  revert c. induction a as [| ch a IH]; intros c; cbn [app type_chars].
  - reflexivity.
  - destruct (ProcessSerialInput ch c); [apply IH | reflexivity].
Qed.

Lemma type_CR (line : list Z) (c : console) :
  holds line c ->
  exists c',
    ProcessSerialInput CR c = Some c' /\ holds [] c' /\
    calls c' = calls c ++ [PrintString [CR; LF]; Call_SerialCommand line;
                           ClearEOL; PrintString PROMPT].
Proof.
  intros (Hb & Hn & Hl & Hz).
  unfold ProcessSerialInput, PlotCursor, emit.
  change (CR =? 0) with false. change (CR =? BACKSPACE) with false.
  change (CR =? ESC) with false. rewrite Z.eqb_refl.
  cbn [orb LineBuffer nChars calls]. cbv iota.
  eexists. split; [reflexivity|]. split; [apply holds_Prompt, holds_init|].
  unfold Prompt, emit, InitLineBuffer. cbn [LineBuffer nChars calls].
  rewrite Hb.
  replace (101 - length line)%nat with (S (100 - length line)) by lia.
  rewrite (cstr_line line _ Hz), <- !app_assoc. reflexivity.
Qed.

(** X19.  A line typed on an empty buffer and ended with a carriage
    return: every character is echoed, the return is echoed as CR LF,
    [SerialCommand] is called once, with the first 100 characters of
    the line, and the buffer is empty again behind a fresh prompt. *)
Theorem typed_line_is_dispatched (line : list Z) (c : console) :
  holds [] c -> forallb plain_char line = true ->
  exists c',
    type_chars (line ++ [CR]) c = Some c' /\ holds [] c' /\
    calls c' =
      calls c ++ map (fun ch => PrintString [ch]) line ++
      [PrintString [CR; LF]; Call_SerialCommand (firstn 100 line);
       ClearEOL; PrintString PROMPT].
Proof.
  intros H Hp.
  destruct (type_plain_line line [] c H Hp) as (c1 & E1 & H1 & C1).
  cbn [app] in H1.
  destruct (type_CR _ c1 H1) as (c' & E & H' & C').
  exists c'. rewrite type_chars_app, E1. cbn [type_chars]. rewrite E.
  split; [reflexivity|]. split; [exact H'|].
  rewrite C', C1, <- app_assoc. reflexivity.
Qed.

Lemma typed_line_is_dispatched_witness :
  (holds [] console0 /\ forallb plain_char (str "S") = true) /\
  exists c',
    type_chars (str "S" ++ [CR]) console0 = Some c' /\
    calls c' = [PrintString (str "S"); PrintString [CR; LF];
                Call_SerialCommand (str "S"); ClearEOL; PrintString PROMPT].
Proof.
  assert (H : holds [] console0) by apply holds_init.
  assert (Hp : forallb plain_char (str "S") = true) by reflexivity.
  destruct (typed_line_is_dispatched (str "S") console0 H Hp)
    as (c' & E & _ & C).
  split; [split; assumption|]. exists c'. split; [exact E | exact C].
Defined.

Lemma type_BS (line : list Z) (c : console) :
  holds line c ->
  exists c',
    ProcessSerialInput BACKSPACE c = Some c' /\
    holds (removelast line) c' /\
    (line = [] -> c' = c) /\
    (line <> [] ->
     calls c' = calls c ++ [PrintString [BACKSPACE; chr " "; BACKSPACE]]).
Proof.
  intros (Hb & Hn & Hl & Hz).
  unfold ProcessSerialInput, PlotCursor.
  change (BACKSPACE =? 0) with false. rewrite Z.eqb_refl.
  destruct line as [| x0 line0] eqn:El.
  - rewrite Hn. cbn [length Z.of_nat Z.eqb negb].
    exists c. split; [reflexivity|]. split.
    + unfold holds. cbn [removelast]. now conjs.
    + split; [reflexivity | intros H; contradiction].
  - rewrite <- El in *.
    assert (Hne : line <> []) by (rewrite El; discriminate).
    destruct (exists_last Hne) as (l' & x & E). rewrite E in *.
    rewrite length_app in Hn, Hl, Hb. cbn [length] in Hn, Hl, Hb.
    replace (nChars c =? 0) with false by (symmetry; lia).
    cbn [negb]. rewrite Hn, Hb.
    replace (Z.of_nat (length l' + 1) - 1) with (Z.of_nat (length l')) by lia.
    rewrite <- app_assoc. cbn [app]. rewrite array_set_mid.
    eexists. split; [reflexivity|]. rewrite removelast_last. split.
    + unfold holds, emit. cbn [LineBuffer nChars].
      apply Forall_app in Hz. destruct Hz as [Hz _].
      conjs; try lia; try assumption. f_equal.
      replace (101 - length l')%nat with (S (101 - (length l' + 1))) by lia.
      reflexivity.
    + split; [| reflexivity].
      intros H. destruct l'; discriminate H.
Qed.

(** X20.  Backspace erases the last character of the line and echoes
    BS SP BS; on an empty line it does nothing at all.  So a character
    typed while there is room and a backspace after it leave the buffer
    and the count exactly as they were. *)
Theorem backspace_erases (line : list Z) (ch : Z) (c : console) :
  holds line c ->
  (exists c',
     ProcessSerialInput BACKSPACE c = Some c' /\
     holds (removelast line) c' /\
     (line = [] -> c' = c) /\
     (line <> [] ->
      calls c' = calls c ++ [PrintString [BACKSPACE; chr " "; BACKSPACE]])) /\
  (plain_char ch = true -> (length line < 100)%nat ->
   exists c'',
     type_chars [ch; BACKSPACE] c = Some c'' /\
     LineBuffer c'' = LineBuffer c /\ nChars c'' = nChars c).
Proof.
  intros H. split; [now apply type_BS|].
  intros Hp Hlt.
  destruct (type_plain line ch c H Hp) as (c1 & E1 & H1 & _).
  replace (length line <? 100)%nat with true in H1
    by (symmetry; now apply Nat.ltb_lt).
  destruct (type_BS _ c1 H1) as (c2 & E2 & H2 & _).
  rewrite removelast_last in H2.
  exists c2. cbn [type_chars]. rewrite E1, E2. split; [reflexivity|].
  destruct H as (Hb & Hn & _). destruct H2 as (Hb2 & Hn2 & _).
  split; [now rewrite Hb, Hb2 | now rewrite Hn, Hn2].
Qed.

Lemma backspace_erases_witness :
  let c := mkConsole (str "W 5" ++ repeat 0 98) 3 [] in
  (holds (str "W 5") c /\ plain_char (chr "0") = true /\
   (length (str "W 5") < 100)%nat) /\
  exists c'',
    type_chars [chr "0"; BACKSPACE] c = Some c'' /\
    LineBuffer c'' = LineBuffer c.
Proof.
  intros c.
  assert (H : holds (str "W 5") c).
  { unfold holds. cbn [LineBuffer nChars]. conjs; try reflexivity.
    - cbn. lia.
    - repeat constructor; discriminate. }
  assert (Hp : plain_char (chr "0") = true) by reflexivity.
  assert (Hl : (length (str "W 5") < 100)%nat) by (cbn; lia).
  destruct (backspace_erases (str "W 5") (chr "0") c H) as [_ T].
  destruct (T Hp Hl) as (c'' & E & B & _).
  split; [split; [exact H | split; [exact Hp | exact Hl]] |].
  exists c''. split; [exact E | exact B].
Defined.

(** X21.  Escape discards whatever has been typed: [SerialCommand] is
    called with the one-character string ESC, not with the line, and
    the buffer is empty again behind a fresh prompt. *)
Theorem escape_discards_line (line : list Z) (c : console) :
  holds line c ->
  exists c',
    ProcessSerialInput ESC c = Some c' /\ holds [] c' /\
    calls c' = calls c ++ [PrintString [ESC]; Call_SerialCommand [ESC];
                           ClearEOL; PrintString PROMPT].
Proof.
  intros (Hb & Hn & Hl & Hz).
  unfold ProcessSerialInput, PlotCursor, emit.
  change (ESC =? 0) with false. change (ESC =? BACKSPACE) with false.
  change (ESC =? CR) with false. change (ESC =? LF) with false.
  rewrite Z.eqb_refl. cbn [orb negb LineBuffer nChars calls]. cbv iota.
  destruct (strcpy_ESC (LineBuffer c)) as (a & Ea & Ca & _).
  { rewrite Hb, length_app, repeat_length. lia. }
  rewrite Ea. eexists. split; [reflexivity|].
  split; [apply holds_Prompt, holds_init|].
  unfold Prompt, emit, InitLineBuffer. cbn [LineBuffer nChars calls].
  rewrite Ca, <- !app_assoc. reflexivity.
Qed.

Lemma escape_discards_line_witness :
  let c := mkConsole (str "W 50 1" ++ repeat 0 95) 6 [] in
  holds (str "W 50 1") c /\
  exists c',
    ProcessSerialInput ESC c = Some c' /\
    calls c' = [PrintString [ESC]; Call_SerialCommand [ESC]; ClearEOL;
                PrintString PROMPT].
Proof.
  intros c.
  assert (H : holds (str "W 50 1") c).
  { unfold holds. cbn [LineBuffer nChars]. conjs; try reflexivity.
    - cbn. lia.
    - repeat constructor; discriminate. }
  destruct (escape_discards_line (str "W 50 1") c H) as (c' & E & _ & C).
  split; [exact H|]. exists c'. split; [exact E | exact C].
Defined.

(** ** The command handler *)

Lemma wait_idle_NoStop (evs : list event) :
  forall m m' rest,
    wait_idle evs m = Some (m', rest) ->
    NoStop (I2C m') = NoStop (I2C m).
Proof.
  induction evs as [| e evs IH]; intros m m' rest H; cbn [wait_idle] in H.
  - destruct (I2CBusy m); [discriminate H | now inversion H].
  - destruct (I2CBusy m); [| now inversion H].
    rewrite (IH _ _ _ H). apply raise_NoStop.
Qed.

Ltac some_inv H :=
  match type of H with
  | Some ?a = Some ?b =>
      assert (b = a) as ->
        by (symmetry;
            exact (f_equal (fun o => match o with Some x => x | None => a end)
                           H));
      clear H
  end.

Lemma ParseValue_indep (tok : list Z) (g : Cmd.globals) :
  fst (Cmd.ParseValue tok g) = Cmd.is_value tok /\
  (Cmd.is_value tok = true ->
   Cmd.Value (snd (Cmd.ParseValue tok g)) = Cmd.value_of tok).
Proof.
  unfold Cmd.is_value, Cmd.value_of, Cmd.ParseValue.
  set (T := if (Cmd.at_ tok 0 =? chr "0") && _ then _ else _).
  cbv zeta. cbn [Cmd.nBytes Cmd.out Cmd.Value].
  destruct ((length T =? 0)%nat || (2 <? length T)%nat);
    [split; [reflexivity | discriminate]|].
  destruct (negb (isxdigit (Cmd.at_ T 0)));
    [split; [reflexivity | discriminate]|].
  destruct (length T =? 1)%nat; [now split|].
  destruct (negb (isxdigit (Cmd.at_ T 1)));
    [split; [reflexivity | discriminate]|].
  now split.
Qed.

Lemma streq_yes (Command lit : list Z) :
  word Command -> c_string lit -> upcase Command = upcase lit ->
  Cmd.streq Command lit = true.
Proof.
  intros HW HL E. unfold Cmd.streq.
  apply (StrEQ_word Command lit HW HL) in E. now rewrite E.
Qed.

Lemma streq_no (Command lit : list Z) :
  word Command -> c_string lit -> upcase Command <> upcase lit ->
  Cmd.streq Command lit = false.
Proof.
  intros HW HL E. unfold Cmd.streq.
  destruct (StrEQ_total Command lit) as [b Hb]. rewrite Hb.
  destruct b; [| reflexivity].
  now apply (StrEQ_word Command lit HW HL) in Hb.
Qed.

Lemma ram_bytes_nth (r : Z -> Z) (l : list Z) :
  forall p,
    (forall i, (i < length l)%nat -> r (p + Z.of_nat i) = nth i l 0) ->
    ram_bytes r p (length l) = l.
Proof.
  induction l as [| v l IH]; intros p H; [reflexivity|].
  cbn [length ram_bytes]. f_equal.
  - specialize (H 0%nat). cbn [length nth Z.of_nat] in H.
    rewrite Z.add_0_r in H. apply H. lia.
  - apply IH. intros i Hi. specialize (H (S i)). cbn [length nth] in H.
    rewrite <- H by lia. f_equal. lia.
Qed.

Lemma sent_bytes_app (l1 l2 : list hw_action) :
  sent_bytes (l1 ++ l2) = sent_bytes l1 ++ sent_bytes l2.
Proof.
  induction l1 as [| x l1 IH]; cbn [app sent_bytes]; [reflexivity|].
  destruct x; try exact IH. cbn [app]. now rewrite IH.
Qed.

Section ShellFacts.

Variable tokens : Type.
Variable ParseInit : list Z -> tokens.
Variable ParseToken : tokens -> list Z * tokens.
Variable Buffer_addr : Z.
Variable Reg_addr : Z.

Local Abbreviation shell := (Cmd.shell tokens).
Local Abbreviation SerialCommand :=
  (Cmd.SerialCommand ParseInit ParseToken Buffer_addr Reg_addr).

Local Abbreviation no_stop s := (NoStop (I2C (Cmd.hw s))).

Lemma hw_say_all (xs : list ext_call) :
  forall s : shell,
    Cmd.hw (Cmd.say_all xs s) = Cmd.hw s /\
    Cmd.pending (Cmd.say_all xs s) = Cmd.pending s /\
    Cmd.tk (Cmd.say_all xs s) = Cmd.tk s /\
    Cmd.out (Cmd.glob (Cmd.say_all xs s)) = Cmd.out (Cmd.glob s) ++ xs.
Proof.
  induction xs as [| x xs IH]; intros s; cbn [Cmd.say_all].
  - rewrite app_nil_r. now conjs.
  - destruct (IH (Cmd.say x s)) as (H1 & H2 & H3 & H4).
    rewrite H1, H2, H3, H4. cbn. rewrite <- app_assoc. now conjs.
Qed.

Lemma hw_next_value (s : shell) :
  Cmd.hw (snd (Cmd.next_value ParseToken s)) = Cmd.hw s /\
  Cmd.pending (snd (Cmd.next_value ParseToken s)) = Cmd.pending s.
Proof.
  unfold Cmd.next_value. destruct (ParseToken (Cmd.tk s)) as [tok t].
  destruct (Cmd.ParseValue tok (Cmd.glob s)). now split.
Qed.

Lemma hw_next_nbytes (s : shell) :
  Cmd.hw (snd (Cmd.next_nbytes ParseToken s)) = Cmd.hw s /\
  Cmd.pending (snd (Cmd.next_nbytes ParseToken s)) = Cmd.pending s.
Proof.
  unfold Cmd.next_nbytes. destruct (ParseToken (Cmd.tk s)) as [tok t].
  destruct (Cmd.ParseNBytes tok (Cmd.glob s)). now split.
Qed.

Lemma say_all_hw (xs : list ext_call) (s : shell) :
  Cmd.hw (Cmd.say_all xs s) = Cmd.hw s.
Proof. now destruct (hw_say_all xs s) as (H & _). Qed.

Lemma say_all_pending (xs : list ext_call) (s : shell) :
  Cmd.pending (Cmd.say_all xs s) = Cmd.pending s.
Proof. now destruct (hw_say_all xs s) as (_ & H & _). Qed.

Ltac shell_frame :=
  repeat first
    [ rewrite say_all_hw
    | rewrite say_all_pending
    | progress cbn [Cmd.hw Cmd.pending Cmd.with_glob Cmd.say Cmd.set_Status
                    Cmd.set_SlaveAddr Cmd.set_nSlaves Cmd.set_nBytes
                    Cmd.with_hw] ].

Lemma hw_PrintResults (pb : bool) (s : shell) :
  Cmd.hw (Cmd.PrintResults Buffer_addr pb s) = Cmd.hw s /\
  Cmd.pending (Cmd.PrintResults Buffer_addr pb s) = Cmd.pending s.
Proof.
  unfold Cmd.PrintResults. cbv zeta.
  destruct (pb && _); destruct (_ <=? _); shell_frame; now split.
Qed.

Lemma hw_unrecognized (what : list Z) (s : shell) :
  Cmd.hw (Cmd.unrecognized what s) = Cmd.hw s /\
  Cmd.pending (Cmd.unrecognized what s) = Cmd.pending s.
Proof.
  unfold Cmd.unrecognized.
  destruct (hw_say_all
              [PrintString (str "Unrecognized " ++ what ++ str " (");
               PrintString (Cmd.Token (Cmd.glob s));
               PrintString (str "), must 2 hex chars." ++ Cmd.CRLF);
               PrintString (str "Type '?' for help" ++ Cmd.CRLF);
               PrintCRLF] s) as (H1 & H2 & _).
  now split.
Qed.

Lemma NoStop_GetI2CW (a n p : Z) (s s' : shell) :
  Cmd.do_GetI2CW a n p s = Some s' -> no_stop s' = no_stop s.
Proof.
  unfold Cmd.do_GetI2CW, GetI2CW. intros H.
  destruct (wait_idle _ _) as [[m rest] |] eqn:W; [| discriminate H].
  inversion H; subst. cbn [Cmd.hw Cmd.with_hw].
  rewrite (wait_idle_NoStop _ _ _ _ W), GetI2C_eq. reflexivity.
Qed.

Lemma NoStop_PutI2CW (a n p : Z) (ns : bool) (s s' : shell) :
  Cmd.do_PutI2CW a n p ns s = Some s' -> no_stop s' = ns.
Proof.
  unfold Cmd.do_PutI2CW, PutI2CW. intros H.
  destruct (wait_idle _ _) as [[m rest] |] eqn:W; [| discriminate H].
  inversion H; subst. cbn [Cmd.hw Cmd.with_hw].
  rewrite (wait_idle_NoStop _ _ _ _ W), PutI2C_eq. reflexivity.
Qed.

Lemma NoStop_W_loop (k : nat) :
  forall s : shell,
    no_stop (Cmd.W_loop ParseToken Buffer_addr k s) = no_stop s.
Proof.
  induction k as [| k IH]; intros s; cbn [Cmd.W_loop]; [reflexivity|].
  destruct (hw_next_value s) as [H _].
  destruct (Cmd.next_value ParseToken s) as [ok s1]. cbn [snd] in H.
  destruct ok; cbn [negb]; [| now rewrite H].
  rewrite IH. cbn. now rewrite H.
Qed.

Lemma NoStop_S_loop (k : nat) :
  forall s s' : shell,
    Cmd.S_loop Buffer_addr k s = Some s' -> no_stop s' = no_stop s.
Proof.
  induction k as [| k IH]; intros s s' H; cbn [Cmd.S_loop] in H.
  - now inversion H.
  - destruct (Cmd.do_GetI2CW _ _ _ s) as [s1 |] eqn:G; [| discriminate H].
    apply IH in H. rewrite H. rewrite <- (NoStop_GetI2CW _ _ _ _ _ G).
    cbv zeta.
    repeat match goal with
           | |- context [if ?b then _ else _] => destruct b
           end; reflexivity.
Qed.

Lemma NoStop_dump (ns : bool) (s s' : shell) :
  Cmd.dump ParseToken Buffer_addr Reg_addr ns s = Some s' ->
  no_stop s' = no_stop s \/ no_stop s' = ns.
Proof.
  unfold Cmd.dump. intros H.
  destruct (hw_next_value s) as [H1 _].
  destruct (Cmd.next_value ParseToken s) as [ok1 s1]. cbn [snd] in H1.
  destruct ok1; cbn [negb] in H.
  2:{ inversion H; subst. left.
      destruct (hw_unrecognized (str "slave addr") s1) as [-> _].
      now rewrite H1. }
  destruct (hw_next_value (Cmd.set_SlaveAddr (Cmd.Value (Cmd.glob s1)) s1))
    as [H2 _].
  destruct (Cmd.next_value ParseToken _) as [ok2 s2]. cbn [snd] in H2.
  destruct ok2; cbn [negb] in H.
  2:{ inversion H; subst. left.
      destruct (hw_unrecognized (str "reg") s2) as [-> _].
      now rewrite H2, <- H1. }
  match type of H with
  | context [Cmd.next_nbytes ParseToken ?x] =>
      destruct (hw_next_nbytes x) as [H3 _];
      destruct (Cmd.next_nbytes ParseToken x) as [ok3 s3]
  end.
  cbn [snd] in H3. destruct ok3; cbn [negb] in H.
  2:{ inversion H; subst. left. rewrite H3. cbn. now rewrite H2, <- H1. }
  destruct (Cmd.do_PutI2CW _ _ _ ns _) as [s4 |] eqn:P; [| discriminate H].
  apply NoStop_PutI2CW in P.
  destruct (Cmd.do_GetI2CW _ _ _ _) as [s5 |] eqn:G; [| discriminate H].
  apply NoStop_GetI2CW in G. some_inv H. right.
  destruct (hw_PrintResults true (Cmd.say (PrintString (str "Read:  ")) s5))
    as [-> _].
  cbn [Cmd.say Cmd.hw Cmd.with_glob]. rewrite G.
  match goal with
  | |- context [Cmd.PrintResults Buffer_addr false ?x] =>
      destruct (hw_PrintResults false x) as [-> _]
  end.
  exact P.
Qed.

Lemma streq_first (Command : list Z) (l : Z) :
  l <> 0 ->
  hd 0 Command <> chr " " ->
  (if isalpha (hd 0 Command) then toupper (hd 0 Command) else hd 0 Command)
    <> (if isalpha l then toupper l else l) ->
  Cmd.streq Command [l] = false.
Proof.
  intros Hl Hsp Hne. unfold Cmd.streq.
  destruct Command as [| c w]; cbn [StrEQ at_end hd] in *.
  - now apply Z.eqb_neq in Hl as ->.
  - destruct (c =? 0); [now apply Z.eqb_neq in Hl as ->|].
    cbn [next_char]. apply Z.eqb_neq in Hsp as ->. cbv zeta.
    now apply Z.eqb_neq in Hne as ->.
Qed.

Lemma hd_upcase (s : list Z) :
  hd 0 (upcase s) =
  if isalpha (hd 0 s) then toupper (hd 0 s) else hd 0 s.
Proof. destruct s; reflexivity. Qed.

(** X22.  No command line makes the shell ask the driver for a repeated
    start.  Whatever is typed, whatever the tokenizer answers and whatever
    happens on the bus, when [SerialCommand] returns the driver's [NoStop]
    flag is either what it was or cleared: it is never set.  The block
    that the source labels G ("get all registers using repeated start"),
    the only caller of [PutI2CW] with [NoStop] true, repeats the test of
    the D command and is never entered. *)
Theorem shell_never_requests_repeated_start (Line : list Z) (s s' : shell) :
  SerialCommand Line s = Some s' ->
  no_stop s' = no_stop s \/ no_stop s' = false.
Proof.
  unfold Cmd.SerialCommand. cbv zeta. cbn [Cmd.tk Cmd.glob Cmd.SlaveAddr
    Cmd.nSlaves Cmd.Status Cmd.hw Cmd.pending].
  destruct (ParseToken (ParseInit Line)) as [Command t].
  set (s0 := Cmd.mkShell (Cmd.glob s) (Cmd.SlaveAddr s) (Cmd.nSlaves s)
                         (Cmd.Status s) t (Cmd.hw s) (Cmd.pending s)).
  assert (H0 : Cmd.hw s0 = Cmd.hw s) by reflexivity. clearbody s0.
  destruct (Cmd.streq Command (str "R")).
  { destruct (hw_next_value s0) as [H1 _].
    destruct (Cmd.next_value ParseToken s0) as [ok1 s1]. cbn [snd] in H1.
    destruct ok1; cbn [negb]; intros H.
    2:{ some_inv H. left.
        destruct (hw_unrecognized (str "slave addr") s1) as [-> _].
        now rewrite H1, H0. }
    revert H.
    destruct (hw_next_nbytes (Cmd.set_SlaveAddr (Cmd.Value (Cmd.glob s1)) s1))
      as [H2 _].
    destruct (Cmd.next_nbytes ParseToken _) as [ok2 s2]. cbn [snd] in H2.
    destruct ok2; cbn [negb]; intros H.
    2:{ some_inv H. left. rewrite H2. cbn. now rewrite H1, H0. }
    destruct (Cmd.do_GetI2CW _ _ _ _) as [s3 |] eqn:G; [| discriminate H].
    apply NoStop_GetI2CW in G. some_inv H. left.
    destruct (hw_PrintResults true s3) as [-> _]. rewrite G. cbn.
    rewrite H2. cbn. now rewrite H1, H0. }
  destruct (Cmd.streq Command (str "W")).
  { destruct (hw_next_value s0) as [H1 _].
    destruct (Cmd.next_value ParseToken s0) as [ok1 s1]. cbn [snd] in H1.
    destruct ok1; cbn [negb]; intros H.
    2:{ some_inv H. left.
        destruct (hw_unrecognized (str "slave addr") s1) as [-> _].
        now rewrite H1, H0. }
    revert H.
    match goal with
    | |- context [Cmd.next_value ParseToken ?x] =>
        destruct (hw_next_value x) as [H2 _];
        pose proof (NoStop_W_loop (Z.to_nat Cmd.MAX_RWBYTES)
                      (Cmd.set_nBytes 0
                         (Cmd.set_SlaveAddr (Cmd.Value (Cmd.glob s1)) s1)))
          as H3;
        destruct (Cmd.next_value ParseToken x) as [ok2 s2]
    end.
    cbn [snd] in H2. destruct ok2; intros H.
    { some_inv H. left. rewrite say_all_hw, H2, H3. cbn.
      now rewrite H1, H0. }
    destruct (Cmd.do_PutI2CW _ _ _ _ _) as [s3 |] eqn:P; [| discriminate H].
    apply NoStop_PutI2CW in P. some_inv H. right.
    destruct (hw_PrintResults false s3) as [-> _]. exact P. }
  destruct (Cmd.streq Command (str "S")).
  { destruct (Cmd.S_loop _ _ _) as [s1 |] eqn:L; [| discriminate].
    apply NoStop_S_loop in L. intros H. some_inv H. left.
    rewrite say_all_hw, L. cbn. now rewrite H0. }
  destruct (Cmd.streq Command (str "D")).
  { intros H. apply NoStop_dump in H. destruct H as [H | H].
    - left. now rewrite H, H0.
    - now right. }
  destruct (_ || _); intros H; some_inv H; left;
    now rewrite say_all_hw, H0.
Qed.

(** X23.  A command word is recognised by its first character only if
    the whole word matches; a word whose first character, folded to upper
    case, is none of R, W, S, D, H and '?' (and is not a space) is
    answered with the bell and "Unrecognized Command", the word quoted
    back, and neither the driver nor the bus is touched.  The letter G is
    such a word. *)
Theorem unknown_command (Line Command : list Z) (t : tokens) (s : shell) :
  ParseToken (ParseInit Line) = (Command, t) ->
  hd 0 Command <> chr " " ->
  ~ In (hd 0 (upcase Command)) (str "RWSDH?") ->
  exists s',
    SerialCommand Line s = Some s' /\
    Cmd.hw s' = Cmd.hw s /\ Cmd.pending s' = Cmd.pending s /\
    Cmd.SlaveAddr s' = Cmd.SlaveAddr s /\
    Cmd.out (Cmd.glob s') =
      Cmd.out (Cmd.glob s) ++
      [PrintStringP [7];
       PrintStringP (str "Unrecognized Command " ++ [34]);
       PrintString Command;
       PrintStringP ([34; 13; 10]);
       PrintString (str "Type '?' for help" ++ [13; 10]);
       PrintCRLF].
Proof.
  intros HT Hsp Hin. rewrite hd_upcase in Hin.
  assert (F : forall l, In l (str "RWSDH?") ->
                        Cmd.streq Command [l] = false).
  { intros l Hl. apply streq_first; try assumption.
    - cbn in Hl. intuition (subst; discriminate).
    - intros E. apply Hin. rewrite E.
      cbn in Hl. intuition (subst; cbn; auto 10). }
  unfold Cmd.SerialCommand. cbv zeta.
  cbn [Cmd.tk Cmd.glob Cmd.SlaveAddr Cmd.nSlaves Cmd.Status Cmd.hw
       Cmd.pending].
  rewrite HT.
  change (str "R") with [chr "R"]. change (str "W") with [chr "W"].
  change (str "S") with [chr "S"]. change (str "D") with [chr "D"].
  change (str "H") with [chr "H"]. change (str "?") with [chr "?"].
  rewrite !F by (cbn; auto 10). cbn [orb].
  eexists. split; [reflexivity|].
  rewrite say_all_hw, say_all_pending.
  destruct (hw_say_all
              [PrintStringP Cmd.BEEP;
               PrintStringP (str "Unrecognized Command " ++ [34]);
               PrintString Command; PrintStringP ([34] ++ Cmd.CRLF);
               PrintString (str "Type '?' for help" ++ Cmd.CRLF); PrintCRLF]
              (Cmd.mkShell (Cmd.glob s) (Cmd.SlaveAddr s) (Cmd.nSlaves s)
                           (Cmd.Status s) t (Cmd.hw s) (Cmd.pending s)))
    as (_ & _ & _ & ->).
  conjs; reflexivity.
Qed.

Lemma yields_app (xs ys : list (list Z)) :
  forall t t' : tokens,
    Cmd.yields ParseToken t (xs ++ ys) t' ->
    exists tm, Cmd.yields ParseToken t xs tm /\ Cmd.yields ParseToken tm ys t'.
Proof.
  induction xs as [| x xs IH]; intros t t' H; cbn [app Cmd.yields] in *.
  - now exists t.
  - destruct H as (t1 & H1 & H2). destruct (IH _ _ H2) as (tm & H3 & H4).
    exists tm. split; [| exact H4]. now exists t1.
Qed.

Lemma next_value_spec (s : shell) (tok : list Z) (t : tokens) :
  ParseToken (Cmd.tk s) = (tok, t) ->
  exists g,
    Cmd.next_value ParseToken s =
      (Cmd.is_value tok,
       Cmd.mkShell g (Cmd.SlaveAddr s) (Cmd.nSlaves s) (Cmd.Status s) t
                   (Cmd.hw s) (Cmd.pending s)) /\
    Cmd.nBytes g = Cmd.nBytes (Cmd.glob s) /\
    Cmd.out g = Cmd.out (Cmd.glob s) /\
    Cmd.Token g = Cmd.Token (snd (Cmd.ParseValue tok (Cmd.glob s))) /\
    (Cmd.is_value tok = true -> Cmd.Value g = Cmd.value_of tok).
Proof.
  intros HT. unfold Cmd.next_value. rewrite HT.
  destruct (ParseValue_indep tok (Cmd.glob s)) as [H1 H2].
  destruct (ParseValue_frame tok (Cmd.glob s)) as [H3 H4].
  destruct (Cmd.ParseValue tok (Cmd.glob s)) as [ok g]. cbn [fst snd] in *.
  exists g. rewrite H1. now conjs.
Qed.

Lemma next_nbytes_spec (s : shell) (tok : list Z) (t : tokens) :
  ParseToken (Cmd.tk s) = (tok, t) ->
  Cmd.is_value tok = true -> 1 <= Cmd.value_of tok <= 0xF0 ->
  exists g,
    Cmd.next_nbytes ParseToken s =
      (true,
       Cmd.mkShell g (Cmd.SlaveAddr s) (Cmd.nSlaves s) (Cmd.Status s) t
                   (Cmd.hw s) (Cmd.pending s)) /\
    Cmd.nBytes g = Cmd.value_of tok /\
    Cmd.out g = Cmd.out (Cmd.glob s).
Proof.
  intros HT Hv Hr. unfold Cmd.next_nbytes. rewrite HT.
  destruct (ParseValue_indep tok (Cmd.glob s)) as [H1 H2].
  destruct (ParseValue_frame tok (Cmd.glob s)) as [H3 H4].
  unfold Cmd.ParseNBytes.
  destruct (Cmd.ParseValue tok (Cmd.glob s)) as [ok g]. cbn [fst snd] in *.
  rewrite H1, Hv. cbn [negb]. rewrite (H2 Hv).
  unfold Cmd.MAX_RWBYTES.
  replace (Cmd.value_of tok >? 240) with false by (symmetry; lia).
  replace (Cmd.value_of tok =? 0) with false by (symmetry; lia).
  eexists. split; [reflexivity|]. now split.
Qed.

Ltac shell_cbn :=
  cbn [Cmd.say_all Cmd.say Cmd.with_glob Cmd.with_hw Cmd.set_Status
       Cmd.set_SlaveAddr Cmd.set_nSlaves Cmd.set_nBytes Cmd.print
       Cmd.glob Cmd.SlaveAddr Cmd.nSlaves Cmd.Status Cmd.tk Cmd.hw
       Cmd.pending Cmd.Token Cmd.Value Cmd.nBytes Cmd.out fst snd].

Ltac shell_cbn_in H :=
  cbn [Cmd.say_all Cmd.say Cmd.with_glob Cmd.with_hw Cmd.set_Status
       Cmd.set_SlaveAddr Cmd.set_nSlaves Cmd.set_nBytes Cmd.print
       Cmd.glob Cmd.SlaveAddr Cmd.nSlaves Cmd.Status Cmd.tk Cmd.hw
       Cmd.pending Cmd.Token Cmd.Value Cmd.nBytes Cmd.out fst snd] in H.

Lemma PrintResults_spec (pb : bool) (s : shell) :
  let s' := Cmd.PrintResults Buffer_addr pb s in
  let st := I2CStatus (Cmd.hw s) in
  Cmd.hw s' = Cmd.hw s /\ Cmd.pending s' = Cmd.pending s /\
  Cmd.SlaveAddr s' = Cmd.SlaveAddr s /\ Cmd.Status s' = st /\
  Cmd.nBytes (Cmd.glob s') = Cmd.nBytes (Cmd.glob s) /\
  Cmd.out (Cmd.glob s') =
    Cmd.out (Cmd.glob s) ++
    [PrintString (Cmd.StatusText st); PrintString (str " (");
     PrintH (Cmd.status_code st); PrintString (str ")" ++ Cmd.CRLF)] ++
    (if pb && I2C_STATUS_eqb st I2C_COMPLETE
     then PrintString (str "Data:" ++ Cmd.CRLF)
            :: Cmd.data_lines Buffer_addr s ++ [PrintCRLF]
     else []).
Proof.
  destruct s as [[T V n o] sa nsl st0 t m pend].
  unfold Cmd.PrintResults. cbv zeta. shell_cbn.
  replace (Cmd.status_code (I2CStatus m) <=? Cmd.I2C_LAST_ERROR) with true
    by (now destruct (I2CStatus m)).
  shell_cbn.
  destruct (pb && I2C_STATUS_eqb (I2CStatus m) I2C_COMPLETE).
  - shell_cbn.
    match goal with
    | |- context [Cmd.say_all ?xs ?x] =>
        destruct (hw_say_all xs x) as (-> & -> & _ & E)
    end.
    assert (F : forall xs (x : shell),
               Cmd.SlaveAddr (Cmd.say_all xs x) = Cmd.SlaveAddr x /\
               Cmd.Status (Cmd.say_all xs x) = Cmd.Status x /\
               Cmd.nBytes (Cmd.glob (Cmd.say_all xs x)) =
                 Cmd.nBytes (Cmd.glob x)).
    { induction xs as [| y xs IH]; intros x; cbn [Cmd.say_all];
        [now conjs|]. destruct (IH (Cmd.say y x)) as (-> & -> & ->).
      now conjs. }
    match goal with
    | |- context [Cmd.say_all ?xs ?x] =>
        destruct (F xs x) as (-> & -> & ->)
    end.
    rewrite E. shell_cbn. unfold Cmd.data_lines. shell_cbn.
    rewrite <- !app_assoc. cbn [app]. now conjs.
  - shell_cbn. rewrite <- !app_assoc. cbn [app]. now conjs.
Qed.

Lemma flat_map_map_in {A B C : Type} (f : B -> list C) (g : A -> B)
    (h : A -> list C) (l : list A) :
  (forall a, In a l -> f (g a) = h a) ->
  flat_map f (map g l) = flat_map h l.
Proof.
  induction l as [| a l IH]; intros H; [reflexivity|].
  cbn [map flat_map]. rewrite (H a) by now left.
  rewrite IH; [reflexivity|]. intros b Hb. apply H. now right.
Qed.

Ltac recognise HW HC :=
  repeat match goal with
    | |- context [Cmd.streq ?c ?lit] =>
        first
          [ rewrite (streq_yes c lit HW)
              by (try (rewrite HC; reflexivity);
                  repeat constructor; discriminate)
          | rewrite (streq_no c lit HW)
              by (try (rewrite HC; discriminate);
                  repeat constructor; discriminate) ]
    end.

(** X24.  The R command, end to end.  For a line whose words are R (in
    either case), a slave address and a byte count [n] from 1 to 0xF0, and
    a slave that acknowledges its address and delivers [n] bytes,
    [SerialCommand] returns; the address byte with the read bit set is the
    only byte put on the bus; the [n] bytes are in [Buffer] in the order
    of arrival and the rest of [Buffer] holds 0xFF; and the report printed
    is the status line COMPLETE followed by one line per byte received. *)
Theorem R_command_reads (Line Command addr ntok : list Z) (t' : tokens)
    (s : shell) (st sla : event) (bs rest : list event) :
  word Command -> upcase Command = str "R" ->
  Cmd.yields ParseToken (ParseInit Line) [Command; addr; ntok] t' ->
  Cmd.is_value addr = true -> Cmd.is_value ntok = true ->
  1 <= Cmd.value_of ntok <= 0xF0 ->
  ev_code st = TW_START \/ ev_code st = TW_REP_START ->
  ev_code sla = TW_MR_SLA_ACK -> Forall data_event bs ->
  Z.of_nat (length bs) = Cmd.value_of ntok ->
  Cmd.pending s = st :: sla :: bs ++ rest ->
  exists s',
    SerialCommand Line s = Some s' /\
    Cmd.pending s' = rest /\
    Cmd.SlaveAddr s' = Cmd.value_of addr /\
    sent_bytes (actions (Cmd.hw s')) =
      sent_bytes (actions (Cmd.hw s)) ++
      [u8 (Z.lor (Z.shiftl (Cmd.value_of addr) 1) 1)] /\
    ram_bytes (ram (Cmd.hw s')) Buffer_addr (length bs) = map ev_TWDR bs /\
    (forall i, Z.of_nat (length bs) <= i < 0xF0 ->
               ram (Cmd.hw s') (Buffer_addr + i) = 0xFF) /\
    Cmd.out (Cmd.glob s') =
      Cmd.out (Cmd.glob s) ++
      [PrintString (str "I2C_COMPLETE"); PrintString (str " ("); PrintH 0;
       PrintString (str ")" ++ [13; 10]);
       PrintString (str "Data:" ++ [13; 10])] ++
      flat_map
        (fun i =>
           [PrintString (str "  0x"); PrintH (Z.of_nat i);
            PrintString (str ": 0x"); PrintH (ev_TWDR (nth i bs st));
            PrintString (str "  0b"); PrintB (ev_TWDR (nth i bs st));
            PrintCRLF])
        (seq 0 (length bs)) ++
      [PrintCRLF].
Proof.
  intros HW HC HY Ha Hn Hr Hst Hsla Hbs Hlen Hp.
  cbn [Cmd.yields] in HY.
  destruct HY as (t1 & HT & t2 & Had & t3 & HN & <-).
  unfold Cmd.SerialCommand. cbv zeta. shell_cbn. rewrite HT.
  recognise HW HC.
  match goal with
  | |- context [Cmd.next_value ParseToken ?x] =>
      destruct (next_value_spec x addr t2 Had) as (g1 & -> & N1 & O1 & _ & V1)
  end.
  rewrite Ha. cbn [negb]. shell_cbn. specialize (V1 Ha).
  match goal with
  | |- context [Cmd.next_nbytes ParseToken ?x] =>
      destruct (next_nbytes_spec x ntok t3 HN Hn Hr) as (g2 & -> & N2 & O2)
  end.
  cbn [negb]. shell_cbn. unfold Cmd.do_GetI2CW. shell_cbn.
  rewrite Hp, N2, V1. shell_cbn_in O1. shell_cbn_in O2.
  unfold GetI2CW. rewrite GetI2C_eq.
  set (m := Cmd.memset Buffer_addr 255 Cmd.MAX_RWBYTES (Cmd.hw s)).
  match goal with
  | |- context [wait_idle _ ?m1] =>
      destruct (read_from_submitted m1 _ (Cmd.value_of ntok) Buffer_addr
                  (NoStop (I2C m)) st sla bs rest eq_refl Hst Hsla Hbs)
        as (W & D & R1 & R2 & l & A & _ & SB); [lia | lia |];
      cbv zeta in W, D, R1, R2, A;
      remember (run (st :: sla :: bs) m1) as m' eqn:Em'
  end.
  rewrite W. eexists. split; [reflexivity|].
  match goal with
  | |- context [Cmd.PrintResults Buffer_addr true ?x] =>
      destruct (PrintResults_spec true x) as (P1 & P2 & P3 & P4 & P5 & P6)
  end.
  cbv zeta in P6. shell_cbn_in P1. shell_cbn_in P2. shell_cbn_in P3.
  shell_cbn_in P6.
  rewrite P1, P2, P3, P6. clear P1 P2 P3 P4 P5 P6.
  cbn [actions ram] in A, R2.
  unfold I2CStatus. rewrite D. cbn [Status I2C_STATUS_eqb andb].
  conjs; try reflexivity.
  - rewrite A, !sent_bytes_app. cbn [sent_bytes app]. rewrite SB.
    unfold START. cbn [sent_bytes]. now rewrite app_nil_r.
  - rewrite <- (length_map ev_TWDR bs). apply ram_bytes_nth. intros i Hi.
    rewrite length_map in Hi.
    rewrite (R1 i Hi). rewrite (nth_indep _ 0 (ev_TWDR st))
      by now rewrite length_map.
    now rewrite map_nth.
  - intros i Hi. rewrite R2 by lia. unfold m, Cmd.memset. cbn [ram].
    unfold Cmd.MAX_RWBYTES.
    replace ((Buffer_addr <=? Buffer_addr + i) &&
             (Buffer_addr + i <? Buffer_addr + 240)) with true; [reflexivity|].
    symmetry. apply andb_true_iff. split; [apply Z.leb_le | apply Z.ltb_lt];
      lia.
  - rewrite O2, O1. f_equal. cbn [Cmd.StatusText Cmd.status_code app].
    do 5 f_equal. unfold Cmd.data_lines. shell_cbn. rewrite N2, <- Hlen.
    rewrite Nat2Z.id.
    erewrite flat_map_map_in; [reflexivity|].
    intros i Hi. apply in_seq in Hi. cbv beta.
    now rewrite (R1 i) by lia.
Qed.

(** The loop of the W command on [bytes], all accepted.  It ends either
    because the next token [b] is rejected ([stop = Some b], a token the
    loop has then used up) or because the buffer is full
    ([stop = None]). *)
Lemma W_loop_values (bytes : list (list Z)) :
  forall (left : nat) (s : shell) (t' : tokens) (stop : option (list Z)),
    Forall (fun b => Cmd.is_value b = true) bytes ->
    Cmd.yields ParseToken (Cmd.tk s)
      (bytes ++ match stop with Some b => [b] | None => [] end) t' ->
    match stop with
    | Some b => Cmd.is_value b = false /\ (length bytes < left)%nat
    | None => length bytes = left
    end ->
    0 <= Cmd.nBytes (Cmd.glob s) ->
    Cmd.nBytes (Cmd.glob s) + Z.of_nat left <= 255 ->
    let s' := Cmd.W_loop ParseToken Buffer_addr left s in
    let n0 := Cmd.nBytes (Cmd.glob s) in
    Cmd.tk s' = t' /\
    Cmd.nBytes (Cmd.glob s') = n0 + Z.of_nat (length bytes) /\
    Cmd.out (Cmd.glob s') = Cmd.out (Cmd.glob s) /\
    Cmd.SlaveAddr s' = Cmd.SlaveAddr s /\
    Cmd.nSlaves s' = Cmd.nSlaves s /\ Cmd.Status s' = Cmd.Status s /\
    Cmd.pending s' = Cmd.pending s /\
    I2C (Cmd.hw s') = I2C (Cmd.hw s) /\
    actions (Cmd.hw s') = actions (Cmd.hw s) /\
    (forall i, (i < length bytes)%nat ->
               ram (Cmd.hw s') (Buffer_addr + n0 + Z.of_nat i) =
               Cmd.value_of (nth i bytes [])) /\
    (forall x, x < Buffer_addr + n0 \/
               Buffer_addr + n0 + Z.of_nat (length bytes) <= x ->
               ram (Cmd.hw s') x = ram (Cmd.hw s) x).
Proof.
  induction bytes as [| b bytes IH]; intros left s t' stop Hall HY Hstop H0 H1;
    cbv zeta.
  - cbn [app length Z.of_nat] in *. rewrite Z.add_0_r.
    destruct stop as [b |].
    + destruct Hstop as [Hb Hl]. destruct left as [| left]; [lia|].
      cbn [Cmd.yields] in HY. destruct HY as (t1 & HT & <-).
      cbn [Cmd.W_loop].
      destruct (next_value_spec s b t1 HT) as (g & -> & N & O & _ & _).
      rewrite Hb. cbn [negb]. shell_cbn.
      conjs; try reflexivity; try assumption. intros i Hi. lia.
    + subst left. cbn [Cmd.yields] in HY. subst t'. cbn [Cmd.W_loop].
      conjs; try reflexivity. intros i Hi. lia.
  - inversion Hall as [| ? ? Hb Hall']; subst.
    cbn [app Cmd.yields] in HY. destruct HY as (t1 & HT & HY).
    destruct left as [| left];
      [destruct stop; cbn [length] in Hstop; [lia | discriminate]|].
    cbn [Cmd.W_loop].
    destruct (next_value_spec s b t1 HT) as (g & -> & N & O & _ & V).
    rewrite Hb. cbn [negb]. shell_cbn. specialize (V Hb).
    rewrite N, V.
    set (n0 := Cmd.nBytes (Cmd.glob s)) in *.
    assert (E : u8 (n0 + 1) = n0 + 1) by (unfold u8; apply Z.mod_small; lia).
    rewrite E.
    match goal with
    | |- context [Cmd.W_loop ParseToken Buffer_addr left ?x] =>
        specialize (IH left x t' stop Hall')
    end.
    cbv zeta in IH. shell_cbn_in IH.
    destruct IH as (I1 & I2 & I3 & I4 & I5 & I6 & I7 & I8 & I9 & I10 & I11).
    + exact HY.
    + destruct stop; cbn [length] in Hstop; [split; [tauto | lia] | lia].
    + lia.
    + lia.
    + rewrite I1, I2, I3, I4, I5, I6, I7, I8, I9. unfold Cmd.poke.
      cbn [I2C actions length]. conjs; try reflexivity; try assumption.
      * lia.
      * intros [| i] Hi.
        -- rewrite I11 by lia. unfold Cmd.poke. cbn [ram nth Z.of_nat].
           rewrite Z.add_0_r, Z.eqb_refl. reflexivity.
        -- cbn [nth]. rewrite <- (I10 i) by (cbn [length] in Hi; lia).
           f_equal. lia.
      * intros x Hx. rewrite I11 by lia. unfold Cmd.poke. cbn [ram].
        replace (x =? Buffer_addr + n0) with false by (symmetry; lia).
        reflexivity.
Qed.

(** The W command up to the test that follows its loop: the address and
    the bytes are parsed and stored, the token that stopped the loop is
    used up, and the next token [last] has been given to [ParseValue]. *)
Lemma W_command_parsed (Line Command addr bad last : list Z)
    (bytes : list (list Z)) (t' : tokens) (s : shell) :
  word Command -> upcase Command = str "W" ->
  (length bytes <= 240)%nat ->
  Cmd.yields ParseToken (ParseInit Line)
    (Command :: addr :: bytes ++
     (if (length bytes <? 240)%nat then [bad] else []) ++ [last]) t' ->
  Cmd.is_value addr = true ->
  Forall (fun b => Cmd.is_value b = true) bytes ->
  Cmd.is_value bad = false ->
  exists (s2 : shell) (g : Cmd.globals),
    SerialCommand Line s =
      (if Cmd.is_value last then
         Some (Cmd.say_all
                 [PrintString (str "Too much data (");
                  PrintString (Cmd.Token g);
                  PrintString (str "), must <= ");
                  PrintH Cmd.MAX_RWBYTES;
                  PrintString (str "." ++ Cmd.CRLF);
                  PrintString (str "Type '?' for help" ++ Cmd.CRLF);
                  PrintCRLF]
                 (Cmd.mkShell g (Cmd.value_of addr) (Cmd.nSlaves s)
                              (Cmd.Status s) t' (Cmd.hw s2) (Cmd.pending s)))
       else
         match Cmd.do_PutI2CW (Cmd.value_of addr) (Cmd.nBytes g) Buffer_addr
                 false
                 (Cmd.mkShell g (Cmd.value_of addr) (Cmd.nSlaves s)
                              (Cmd.Status s) t' (Cmd.hw s2) (Cmd.pending s))
         with
         | None => None
         | Some s4 => Some (Cmd.PrintResults Buffer_addr false s4)
         end) /\
    Cmd.nBytes g = Z.of_nat (length bytes) /\
    Cmd.out g = Cmd.out (Cmd.glob s) /\
    Cmd.Token g =
      (if (Cmd.at_ last 0 =? chr "0") && (tolower (Cmd.at_ last 1) =? chr "x")
       then skipn 2 last else last) /\
    I2C (Cmd.hw s2) = I2C (Cmd.hw s) /\
    actions (Cmd.hw s2) = actions (Cmd.hw s) /\
    ram_bytes (ram (Cmd.hw s2)) Buffer_addr (length bytes) =
      map Cmd.value_of bytes /\
    (forall x, x < Buffer_addr \/ Buffer_addr + 0xF0 <= x ->
               ram (Cmd.hw s2) x = ram (Cmd.hw s) x).
Proof.
  intros HW HC Hlen HY Ha Hall Hbad.
  cbn [Cmd.yields] in HY. destruct HY as (t1 & HT & t2 & Had & HY).
  rewrite app_assoc in HY. apply yields_app in HY.
  destruct HY as (t3 & HY & t4 & HL & <-).
  unfold Cmd.SerialCommand. cbv zeta. shell_cbn. rewrite HT.
  recognise HW HC.
  match goal with
  | |- context [Cmd.next_value ParseToken ?x] =>
      destruct (next_value_spec x addr t2 Had) as (g1 & -> & N1 & O1 & _ & V1)
  end.
  rewrite Ha. cbn [negb]. shell_cbn. specialize (V1 Ha).
  shell_cbn_in O1. rewrite V1.
  change (Z.to_nat Cmd.MAX_RWBYTES) with 240%nat.
  match goal with
  | |- context [Cmd.W_loop ParseToken Buffer_addr 240 ?x] =>
      pose proof (W_loop_values bytes 240 x t3
                    (if (length bytes <? 240)%nat then Some bad else None)
                    Hall) as L;
      remember (Cmd.W_loop ParseToken Buffer_addr 240 x) as s2 eqn:Es2
  end.
  cbv zeta in L. shell_cbn_in L.
  destruct L as (L1 & L2 & L3 & L4 & L5 & L6 & L7 & L8 & L9 & L10 & L11).
  { destruct (length bytes <? 240)%nat; exact HY. }
  { destruct (length bytes <? 240)%nat eqn:E.
    - apply Nat.ltb_lt in E. now split.
    - apply Nat.ltb_ge in E. lia. }
  { lia. }
  { lia. }
  assert (HL' : ParseToken (Cmd.tk s2) = (last, t4)) by now rewrite L1.
  destruct (next_value_spec s2 last t4 HL') as (g & NV & N & O & T & _).
  rewrite L4, L5, L6, L7 in NV.
  exists s2, g. rewrite NV. split; [reflexivity|].
  rewrite N, O, T, L2, L3, O1, ParseValue_Token.
  conjs; try reflexivity; try assumption.
  - rewrite <- (length_map Cmd.value_of bytes). apply ram_bytes_nth.
    intros i Hi. rewrite length_map in Hi.
    rewrite Z.add_0_r in L10. rewrite (L10 i Hi).
    rewrite (nth_indep _ 0 (Cmd.value_of [])) by now rewrite length_map.
    now rewrite map_nth.
  - intros x Hx. rewrite L11 by lia. reflexivity.
Qed.

(** X25.  The W command, end to end.  The words after the address are
    parsed as bytes until one is rejected or 0xF0 bytes are stored; the
    word that stops the loop is used up by it.  If the word after that is
    rejected as well (the end of the line, say) and the slave acknowledges
    the address and every byte, [SerialCommand] returns and the bus has
    seen, in this order, START, the address byte with the write bit, the
    bytes as typed, and STOP; the report is the status line COMPLETE. *)
Theorem W_command_sends (Line Command addr bad last : list Z)
    (bytes : list (list Z)) (t' : tokens) (s : shell)
    (st : event) (acks rest : list event) :
  word Command -> upcase Command = str "W" ->
  (length bytes <= 240)%nat ->
  Cmd.yields ParseToken (ParseInit Line)
    (Command :: addr :: bytes ++
     (if (length bytes <? 240)%nat then [bad] else []) ++ [last]) t' ->
  Cmd.is_value addr = true ->
  Forall (fun b => Cmd.is_value b = true) bytes ->
  Cmd.is_value bad = false -> Cmd.is_value last = false ->
  ev_code st = TW_START \/ ev_code st = TW_REP_START ->
  Forall write_ack acks -> length acks = S (length bytes) ->
  Cmd.pending s = st :: acks ++ rest ->
  exists s',
    SerialCommand Line s = Some s' /\
    Cmd.pending s' = rest /\
    Cmd.SlaveAddr s' = Cmd.value_of addr /\
    actions (Cmd.hw s') =
      actions (Cmd.hw s) ++
      [START; WRITE_TWDR (u8 (Z.shiftl (Cmd.value_of addr) 1));
       CLR_BIT_TWCR TWSTA] ++
      flat_map (fun b => [WRITE_TWDR b; STEP]) (map Cmd.value_of bytes) ++
      [STOP] /\
    Cmd.out (Cmd.glob s') =
      Cmd.out (Cmd.glob s) ++
      [PrintString (str "I2C_COMPLETE"); PrintString (str " ("); PrintH 0;
       PrintString (str ")" ++ [13; 10])].
Proof.
  intros HW HC Hlen HY Ha Hall Hbad Hlast Hst Hacks Hn Hp.
  destruct (W_command_parsed Line Command addr bad last bytes t' s
              HW HC Hlen HY Ha Hall Hbad)
    as (s2 & g & -> & N & O & _ & D & A & R & _).
  rewrite Hlast. unfold Cmd.do_PutI2CW. shell_cbn. rewrite Hp.
  destruct (blocking_write (Cmd.hw s2) (Cmd.value_of addr) (Cmd.nBytes g)
              Buffer_addr false st acks rest Hst Hacks)
    as (W & D' & R' & A'); [lia | lia |].
  cbv zeta in W, D', R', A'. rewrite W.
  eexists. split; [reflexivity|].
  match goal with
  | |- context [Cmd.PrintResults Buffer_addr false ?x] =>
      destruct (PrintResults_spec false x) as (P1 & P2 & P3 & _ & _ & P6)
  end.
  cbv zeta in P6. shell_cbn_in P1. shell_cbn_in P2. shell_cbn_in P3.
  shell_cbn_in P6. rewrite P1, P2, P3, P6. clear P1 P2 P3 P6.
  unfold I2CStatus. rewrite D'. cbn [Status].
  rewrite A', A, N, Nat2Z.id, R, O, <- !app_assoc. cbn [andb app].
  conjs; reflexivity.
Qed.

(** X26.  "Too much data" is decided by the word after the one that
    stopped the loop of the W command.  If that word is a byte, the
    message is printed with it and nothing is sent: no bus condition is
    used up and no register of the peripheral is touched.  So 0xF1 bytes
    are refused, and so is a malformed byte that is followed by a
    well-formed one. *)
Theorem W_command_too_much_data (Line Command addr bad last : list Z)
    (bytes : list (list Z)) (t' : tokens) (s : shell) :
  word Command -> upcase Command = str "W" ->
  (length bytes <= 240)%nat ->
  Cmd.yields ParseToken (ParseInit Line)
    (Command :: addr :: bytes ++
     (if (length bytes <? 240)%nat then [bad] else []) ++ [last]) t' ->
  Cmd.is_value addr = true ->
  Forall (fun b => Cmd.is_value b = true) bytes ->
  Cmd.is_value bad = false -> Cmd.is_value last = true ->
  exists s',
    SerialCommand Line s = Some s' /\
    Cmd.pending s' = Cmd.pending s /\
    actions (Cmd.hw s') = actions (Cmd.hw s) /\
    I2C (Cmd.hw s') = I2C (Cmd.hw s) /\
    Cmd.out (Cmd.glob s') =
      Cmd.out (Cmd.glob s) ++
      [PrintString (str "Too much data (");
       PrintString
         (if (Cmd.at_ last 0 =? chr "0") &&
             (tolower (Cmd.at_ last 1) =? chr "x")
          then skipn 2 last else last);
       PrintString (str "), must <= "); PrintH 0xF0;
       PrintString (str "." ++ [13; 10]);
       PrintString (str "Type '?' for help" ++ [13; 10]); PrintCRLF].
Proof.
  intros HW HC Hlen HY Ha Hall Hbad Hlast.
  destruct (W_command_parsed Line Command addr bad last bytes t' s
              HW HC Hlen HY Ha Hall Hbad)
    as (s2 & g & -> & N & O & T & D & A & R & _).
  rewrite Hlast. eexists. split; [reflexivity|].
  match goal with
  | |- context [Cmd.say_all ?xs ?x] =>
      destruct (hw_say_all xs x) as (-> & -> & _ & ->)
  end.
  shell_cbn. rewrite D, A, O, T. conjs; reflexivity.
Qed.

Lemma probe_step (m : machine) (a p : Z) (ans : option Z)
    (rest : list event) :
  exists m',
    GetI2CW a 1 p (probe_events ans ++ rest) m = Some (m', rest) /\
    I2CStatus m' =
      (if present ans then I2C_COMPLETE else I2C_NO_SLAVE_ACK) /\
    sent_bytes (actions m') =
      sent_bytes (actions m) ++ [u8 (Z.lor (Z.shiftl a 1) 1)] /\
    count_STOP (actions m') = S (count_STOP (actions m)).
Proof.
  unfold GetI2CW. rewrite GetI2C_eq.
  assert (K : (START_MASK =? STOP_MASK) = false) by reflexivity.
  assert (K' : (STOP_MASK =? STOP_MASK) = true) by reflexivity.
  destruct ans as [d |]; cbn [probe_events app present].
  - match goal with
    | |- context [wait_idle _ ?m1] =>
        destruct (read_from_submitted m1 _ 1 p (NoStop (I2C m))
                    (mkEvent TW_START 0) (mkEvent TW_MR_SLA_ACK 0)
                    [mkEvent TW_MR_DATA_NACK d] rest eq_refl)
          as (W & D & _ & _ & l & A & C & SB);
          [now left | reflexivity | repeat constructor; now right
          | lia | reflexivity |];
        cbv zeta in W, D, A;
        remember (run [mkEvent TW_START 0; mkEvent TW_MR_SLA_ACK 0;
                       mkEvent TW_MR_DATA_NACK d] m1) as m' eqn:Em'
    end.
    cbn [app] in W. exists m'. rewrite W. unfold I2CStatus. rewrite D, A.
    cbn [actions Status].
    unfold START, STOP.
    repeat first [ rewrite sent_bytes_app | rewrite count_STOP_app
                 | progress cbn [sent_bytes count_STOP app] ].
    rewrite SB, C, K, K'. cbn [app]. rewrite ?app_nil_r.
    conjs; try reflexivity. lia.
  - match goal with
    | |- context [wait_idle _ ?m1] =>
        destruct (blocking_nack m1 (mkEvent TW_START 0)
                    (mkEvent TW_MR_SLA_NACK 0) rest)
          as (W & D & _ & _ & A);
          [now left | now right | reflexivity |];
        cbv zeta in W, D, A;
        remember (raise (mkEvent TW_MR_SLA_NACK 0)
                        (raise (mkEvent TW_START 0) m1)) as m' eqn:Em'
    end.
    exists m'. rewrite W, D, A. cbn [actions I2C SlaveAddr].
    unfold START, STOP.
    repeat first [ rewrite sent_bytes_app | rewrite count_STOP_app
                 | progress cbn [sent_bytes count_STOP app] ].
    rewrite K, K'. rewrite ?app_nil_r. conjs; try reflexivity. lia.
Qed.

Lemma S_loop_scan (answers : list (option Z)) :
  forall (s : shell) (rest : list event),
    Cmd.pending s = flat_map probe_events answers ++ rest ->
    0 <= Cmd.SlaveAddr s ->
    Cmd.SlaveAddr s + Z.of_nat (length answers) <= 255 ->
    0 <= Cmd.nSlaves s ->
    Cmd.nSlaves s + Z.of_nat (length answers) <= 255 ->
    exists s',
      Cmd.S_loop Buffer_addr (length answers) s = Some s' /\
      Cmd.pending s' = rest /\
      Cmd.SlaveAddr s' = Cmd.SlaveAddr s + Z.of_nat (length answers) /\
      Cmd.nSlaves s' =
        Cmd.nSlaves s + Z.of_nat (length (filter present answers)) /\
      Cmd.out (Cmd.glob s') =
        Cmd.out (Cmd.glob s) ++ scan_report (Cmd.SlaveAddr s) answers /\
      sent_bytes (actions (Cmd.hw s')) =
        sent_bytes (actions (Cmd.hw s)) ++
        map (fun i => u8 (Z.lor (Z.shiftl (Cmd.SlaveAddr s + Z.of_nat i) 1) 1))
            (seq 0 (length answers)) /\
      count_STOP (actions (Cmd.hw s')) =
        (count_STOP (actions (Cmd.hw s)) + length answers)%nat.
Proof.
  induction answers as [| ans answers IH]; intros s rest Hp Ha0 Ha1 Hn0 Hn1.
  - cbn [flat_map app length] in *. exists s.
    cbn [Cmd.S_loop map seq filter scan_report].
    change (Z.of_nat 0) with 0.
    rewrite !app_nil_r, !Z.add_0_r, Nat.add_0_r. now conjs.
  - rewrite length_cons, Nat2Z.inj_succ in Ha1, Hn1.
    cbn [flat_map length Cmd.S_loop].
    cbn [flat_map] in Hp. rewrite <- app_assoc in Hp.
    unfold Cmd.do_GetI2CW. rewrite Hp.
    set (a := Cmd.SlaveAddr s) in *.
    assert (Ea : u8 (a + 1) = a + 1) by (unfold u8; apply Z.mod_small; lia).
    assert (En : u8 (Cmd.nSlaves s + 1) = Cmd.nSlaves s + 1)
      by (unfold u8; apply Z.mod_small; lia).
    destruct (probe_step (Cmd.hw s) a Buffer_addr ans
                (flat_map probe_events answers ++ rest))
      as (m' & -> & D & SB & C).
    cbv zeta. shell_cbn. rewrite D. fold a.
    destruct ans as [d |]; cbn [present I2C_STATUS_eqb negb]; shell_cbn;
      fold a; rewrite Ea, ?En;
      match goal with
      | |- context [Cmd.S_loop Buffer_addr (length answers) ?x] =>
          destruct (IH x rest) as (s' & L & I1 & I2 & I3 & I4 & I5 & I6)
      end; shell_cbn; try reflexivity; try lia;
      shell_cbn_in I2; shell_cbn_in I3; shell_cbn_in I4; shell_cbn_in I5;
      shell_cbn_in I6;
      exists s'; rewrite L, I1, I2, I3, I4, I5, I6, SB, C;
      cbn [filter present length scan_report app seq map];
      rewrite <- ?app_assoc; cbn [app];
      rewrite <- seq_shift, map_map, ?Nat2Z.inj_succ;
      change (Z.of_nat 0) with 0; rewrite Z.add_0_r;
      (conjs; try reflexivity; try lia);
      do 2 f_equal; apply map_ext; intros i; do 3 f_equal; lia.
Qed.

(** X27.  The S command.  It probes the 128 addresses 0..127 in
    ascending order with a one-byte read, each probe closed by its own
    STOP, and waits for each probe to end.  For every address that
    answers it prints one line, the address and I2C_COMPLETE, nothing for
    the others; the total it prints is the number of addresses that
    answered, and [SlaveAddr] is left at 128. *)
Theorem S_command_scans (Line Command : list Z) (t : tokens) (s : shell)
    (answers : list (option Z)) (rest : list event) :
  word Command -> upcase Command = str "S" ->
  ParseToken (ParseInit Line) = (Command, t) ->
  length answers = 128%nat ->
  Cmd.pending s = flat_map probe_events answers ++ rest ->
  exists s',
    SerialCommand Line s = Some s' /\
    Cmd.pending s' = rest /\
    Cmd.SlaveAddr s' = 128 /\
    Cmd.nSlaves s' = Z.of_nat (length (filter present answers)) /\
    sent_bytes (actions (Cmd.hw s')) =
      sent_bytes (actions (Cmd.hw s)) ++
      map (fun i => 2 * Z.of_nat i + 1) (seq 0 128) /\
    count_STOP (actions (Cmd.hw s')) =
      (count_STOP (actions (Cmd.hw s)) + 128)%nat /\
    Cmd.out (Cmd.glob s') =
      Cmd.out (Cmd.glob s) ++
      [PrintString (str "Addr: Result" ++ [13; 10])] ++
      scan_report 0 answers ++
      [PrintD (Z.of_nat (length (filter present answers))) 0;
       PrintString (str " responses" ++ [13; 10]); PrintCRLF].
Proof.
  intros HW HC HT Hlen Hp.
  unfold Cmd.SerialCommand. cbv zeta. shell_cbn. rewrite HT.
  recognise HW HC. rewrite <- Hlen.
  match goal with
  | |- context [Cmd.S_loop Buffer_addr (length answers) ?x] =>
      destruct (S_loop_scan answers x rest)
        as (s' & -> & I1 & I2 & I3 & I4 & I5 & I6)
  end; shell_cbn; try assumption; try lia.
  shell_cbn_in I2. shell_cbn_in I3. shell_cbn_in I4. shell_cbn_in I5.
  shell_cbn_in I6.
  eexists. split; [reflexivity|]. shell_cbn.
  rewrite I1, I2, I3, I4, I5, I6, Hlen, <- !app_assoc. cbn [app].
  conjs; try reflexivity.
Qed.

(** X28.  The D command, end to end.  For a slave that acknowledges, the
    register number is sent in a write transfer of its own, closed by a
    STOP, and the data bytes are then read in a second transfer that
    opens with its own START: the bus is released between the two, and
    the driver's [NoStop] flag stays clear.  The bytes put on the bus are
    the address with the write bit, the register number and the address
    with the read bit; the bytes received are in [Buffer] in the order of
    arrival, and both status lines report COMPLETE. *)
Theorem D_command_dumps (Line Command addr reg ntok : list Z) (t' : tokens)
    (s : shell) (st1 st2 sla : event) (acks bs rest : list event) :
  word Command -> upcase Command = str "D" ->
  Cmd.yields ParseToken (ParseInit Line) [Command; addr; reg; ntok] t' ->
  Cmd.is_value addr = true -> Cmd.is_value reg = true ->
  Cmd.is_value ntok = true -> 1 <= Cmd.value_of ntok <= 0xF0 ->
  Reg_addr < Buffer_addr \/ Buffer_addr + 0xF0 <= Reg_addr ->
  ev_code st1 = TW_START \/ ev_code st1 = TW_REP_START ->
  Forall write_ack acks -> length acks = 2%nat ->
  ev_code st2 = TW_START \/ ev_code st2 = TW_REP_START ->
  ev_code sla = TW_MR_SLA_ACK -> Forall data_event bs ->
  Z.of_nat (length bs) = Cmd.value_of ntok ->
  Cmd.pending s = st1 :: acks ++ st2 :: sla :: bs ++ rest ->
  exists s',
    SerialCommand Line s = Some s' /\
    Cmd.pending s' = rest /\
    no_stop s' = false /\
    (exists l,
       actions (Cmd.hw s') =
         actions (Cmd.hw s) ++
         [START; WRITE_TWDR (u8 (Z.shiftl (Cmd.value_of addr) 1));
          CLR_BIT_TWCR TWSTA; WRITE_TWDR (Cmd.value_of reg); STEP; STOP;
          START; WRITE_TWDR (u8 (Z.lor (Z.shiftl (Cmd.value_of addr) 1) 1));
          CLR_BIT_TWCR TWSTA] ++ l ++ [STOP] /\
       sent_bytes l = [] /\ count_STOP l = 0%nat) /\
    ram_bytes (ram (Cmd.hw s')) Buffer_addr (length bs) = map ev_TWDR bs /\
    Cmd.out (Cmd.glob s') =
      Cmd.out (Cmd.glob s) ++
      [PrintString (str "Write: ");
       PrintString (str "I2C_COMPLETE"); PrintString (str " ("); PrintH 0;
       PrintString (str ")" ++ [13; 10]);
       PrintString (str "Read:  ");
       PrintString (str "I2C_COMPLETE"); PrintString (str " ("); PrintH 0;
       PrintString (str ")" ++ [13; 10]);
       PrintString (str "Data:" ++ [13; 10])] ++
      flat_map
        (fun i =>
           [PrintString (str "  0x"); PrintH (Z.of_nat i);
            PrintString (str ": 0x"); PrintH (ev_TWDR (nth i bs st2));
            PrintString (str "  0b"); PrintB (ev_TWDR (nth i bs st2));
            PrintCRLF])
        (seq 0 (length bs)) ++
      [PrintCRLF].
Proof.
  intros HW HC HY Ha Hreg Hn Hr Hsep Hst1 Hacks Hla Hst2 Hsla Hbs Hlen Hp.
  cbn [Cmd.yields] in HY.
  destruct HY as (t1 & HT & t2 & Had & t3 & HR & t4 & HN & <-).
  unfold Cmd.SerialCommand. cbv zeta. shell_cbn. rewrite HT.
  recognise HW HC. unfold Cmd.dump.
  match goal with
  | |- context [Cmd.next_value ParseToken ?x] =>
      destruct (next_value_spec x addr t2 Had) as (g1 & -> & N1 & O1 & _ & V1)
  end.
  rewrite Ha. cbn [negb]. shell_cbn. specialize (V1 Ha). shell_cbn_in O1.
  match goal with
  | |- context [Cmd.next_value ParseToken ?x] =>
      destruct (next_value_spec x reg t3 HR) as (g2 & -> & N2 & O2 & _ & V2)
  end.
  rewrite Hreg. cbn [negb]. shell_cbn. specialize (V2 Hreg). shell_cbn_in O2.
  match goal with
  | |- context [Cmd.next_nbytes ParseToken ?x] =>
      destruct (next_nbytes_spec x ntok t4 HN Hn Hr) as (g3 & -> & N3 & O3)
  end.
  cbn [negb]. shell_cbn. shell_cbn_in O3.
  unfold Cmd.do_PutI2CW. shell_cbn. rewrite Hp, V1, V2.
  set (m := Cmd.memset Buffer_addr 255 Cmd.MAX_RWBYTES
              (Cmd.poke Reg_addr (Cmd.value_of reg) (Cmd.hw s))).
  destruct (blocking_write m (Cmd.value_of addr) 1 Reg_addr false st1 acks
              (st2 :: sla :: bs ++ rest) Hst1 Hacks)
    as (W & D1 & R1 & A1); [lia | lia |].
  cbv zeta in W, D1, R1, A1.
  remember (run (st1 :: acks) (exec (PutI2C (Cmd.value_of addr) 1 Reg_addr
                                            false) m)) as m1 eqn:Em1.
  rewrite W.
  match goal with
  | |- context [Cmd.PrintResults Buffer_addr false ?x] =>
      destruct (PrintResults_spec false x) as (P1 & P2 & P3 & _ & P5 & P6);
      remember (Cmd.PrintResults Buffer_addr false x) as s1 eqn:Es1
  end.
  cbv zeta in P6. shell_cbn_in P1. shell_cbn_in P2. shell_cbn_in P3.
  shell_cbn_in P5. shell_cbn_in P6.
  unfold Cmd.do_GetI2CW. rewrite P1, P2, P3, P5, N3.
  unfold GetI2CW. rewrite GetI2C_eq.
  match goal with
  | |- context [wait_idle _ ?m2] =>
      destruct (read_from_submitted m2 _ (Cmd.value_of ntok) Buffer_addr
                  (NoStop (I2C m1)) st2 sla bs rest eq_refl Hst2 Hsla Hbs)
        as (W2 & D2 & R2 & _ & l & A2 & C2 & SB2); [lia | lia |];
      cbv zeta in W2, D2, R2, A2;
      remember (run (st2 :: sla :: bs) m2) as m' eqn:Em'
  end.
  rewrite W2. eexists. split; [reflexivity|].
  match goal with
  | |- context [Cmd.PrintResults Buffer_addr true ?x] =>
      destruct (PrintResults_spec true x) as (Q1 & Q2 & _ & _ & _ & Q6)
  end.
  cbv zeta in Q6. shell_cbn_in Q1. shell_cbn_in Q2. shell_cbn_in Q6.
  rewrite Q1, Q2, Q6. clear Q1 Q2 Q6.
  cbn [actions] in A2.
  unfold I2CStatus in *. rewrite D2. rewrite D1 in P6.
  cbn [Status I2C_STATUS_eqb andb NoStop] in *.
  conjs; try reflexivity.
  - now rewrite D1.
  - exists l. rewrite A2, A1. unfold m, Cmd.memset, Cmd.poke.
    change (Z.to_nat 1) with 1%nat. cbn [actions ram ram_bytes flat_map app].
    replace ((Buffer_addr <=? Reg_addr) &&
             (Reg_addr <? Buffer_addr + Cmd.MAX_RWBYTES)) with false.
    2:{ symmetry. apply andb_false_iff. unfold Cmd.MAX_RWBYTES.
        destruct Hsep; [left; apply Z.leb_gt | right; apply Z.ltb_ge]; lia. }
    rewrite Z.eqb_refl, <- !app_assoc. cbn [app]. now conjs.
  - rewrite <- (length_map ev_TWDR bs). apply ram_bytes_nth. intros i Hi.
    rewrite length_map in Hi.
    rewrite (R2 i Hi). rewrite (nth_indep _ 0 (ev_TWDR st2))
      by now rewrite length_map.
    now rewrite map_nth.
  - rewrite P6, O3, O2, O1, <- !app_assoc.
    cbn [Cmd.StatusText Cmd.status_code app].
    do 11 f_equal. unfold Cmd.data_lines. shell_cbn.
    rewrite P5, N3, <- Hlen, Nat2Z.id.
    erewrite flat_map_map_in; [reflexivity|].
    intros i Hi. apply in_seq in Hi. cbv beta.
    now rewrite (R2 i) by lia.
Qed.

(** X29.  The R command when nobody answers.  If the address is not
    acknowledged, [SerialCommand] returns after the START and the NACK,
    reports I2C_NO_SLAVE_ACK with its code 02 and prints no data; every
    cell of [Buffer] holds the 0xFF it was filled with. *)
Theorem R_command_no_slave (Line Command addr ntok : list Z) (t' : tokens)
    (s : shell) (st nack : event) (rest : list event) :
  word Command -> upcase Command = str "R" ->
  Cmd.yields ParseToken (ParseInit Line) [Command; addr; ntok] t' ->
  Cmd.is_value addr = true -> Cmd.is_value ntok = true ->
  1 <= Cmd.value_of ntok <= 0xF0 ->
  ev_code st = TW_START \/ ev_code st = TW_REP_START ->
  ev_code nack = TW_MR_SLA_NACK ->
  Cmd.pending s = st :: nack :: rest ->
  exists s',
    SerialCommand Line s = Some s' /\
    Cmd.pending s' = rest /\
    Cmd.Status s' = I2C_NO_SLAVE_ACK /\
    (forall i, 0 <= i < 0xF0 -> ram (Cmd.hw s') (Buffer_addr + i) = 0xFF) /\
    count_STOP (actions (Cmd.hw s')) =
      S (count_STOP (actions (Cmd.hw s))) /\
    Cmd.out (Cmd.glob s') =
      Cmd.out (Cmd.glob s) ++
      [PrintString (str "I2C_NO_SLAVE_ACK"); PrintString (str " (");
       PrintH 2; PrintString (str ")" ++ [13; 10])].
Proof.
  intros HW HC HY Ha Hn Hr Hst Hnack Hp.
  cbn [Cmd.yields] in HY.
  destruct HY as (t1 & HT & t2 & Had & t3 & HN & <-).
  unfold Cmd.SerialCommand. cbv zeta. shell_cbn. rewrite HT.
  recognise HW HC.
  match goal with
  | |- context [Cmd.next_value ParseToken ?x] =>
      destruct (next_value_spec x addr t2 Had) as (g1 & -> & N1 & O1 & _ & V1)
  end.
  rewrite Ha. cbn [negb]. shell_cbn. specialize (V1 Ha).
  match goal with
  | |- context [Cmd.next_nbytes ParseToken ?x] =>
      destruct (next_nbytes_spec x ntok t3 HN Hn Hr) as (g2 & -> & N2 & O2)
  end.
  cbn [negb]. shell_cbn. unfold Cmd.do_GetI2CW. shell_cbn.
  rewrite Hp, N2, V1. shell_cbn_in O1. shell_cbn_in O2.
  unfold GetI2CW. rewrite GetI2C_eq.
  set (m := Cmd.memset Buffer_addr 255 Cmd.MAX_RWBYTES (Cmd.hw s)).
  match goal with
  | |- context [wait_idle _ ?m1] =>
      destruct (blocking_nack m1 st nack rest Hst (or_intror Hnack) eq_refl)
        as (W & D & R & _ & A);
      cbv zeta in W, D, R, A;
      remember (raise nack (raise st m1)) as m' eqn:Em'
  end.
  rewrite W. eexists. split; [reflexivity|].
  match goal with
  | |- context [Cmd.PrintResults Buffer_addr true ?x] =>
      destruct (PrintResults_spec true x) as (P1 & P2 & _ & P4 & _ & P6)
  end.
  cbv zeta in P6. shell_cbn_in P1. shell_cbn_in P2. shell_cbn_in P4.
  shell_cbn_in P6. rewrite P1, P2, P4, P6, D. clear P1 P2 P4 P6.
  cbn [actions ram I2C SlaveAddr] in A, R.
  cbn [I2C_STATUS_eqb andb Cmd.StatusText Cmd.status_code].
  rewrite app_nil_r, O2, O1, A, R.
  assert (K : (START_MASK =? STOP_MASK) = false) by reflexivity.
  assert (K' : (STOP_MASK =? STOP_MASK) = true) by reflexivity.
  unfold START, STOP.
  repeat first [ rewrite count_STOP_app
               | progress cbn [count_STOP app] ].
  rewrite K, K'. conjs; try reflexivity.
  - intros i Hi. unfold m, Cmd.memset. cbn [ram]. unfold Cmd.MAX_RWBYTES.
    replace ((Buffer_addr <=? Buffer_addr + i) &&
             (Buffer_addr + i <? Buffer_addr + 240)) with true; [reflexivity|].
    symmetry. apply andb_true_iff. split; [apply Z.leb_le | apply Z.ltb_lt];
      lia.
  - unfold m, Cmd.memset. cbn [actions]. lia.
Qed.

End ShellFacts.

Ltac tokens_yield :=
  cbn [Cmd.yields];
  repeat (eexists; split; [vm_compute; reflexivity|]);
  try reflexivity.

Lemma shell_never_requests_repeated_start_witness :
  exists s',
    Cmd.SerialCommand Cmd.list_ParseInit Cmd.list_ParseToken 1000 999
      (str "D 68 00 01")
      (shell0 [mkEvent 0x08 0; mkEvent 0x18 0; mkEvent 0x28 0;
               mkEvent 0x08 0; mkEvent 0x40 0; mkEvent 0x58 0x5A]) =
    Some s' /\
    NoStop (I2C (Cmd.hw s')) = false.
Proof.
  destruct (Cmd.SerialCommand Cmd.list_ParseInit Cmd.list_ParseToken 1000 999
              (str "D 68 00 01")
              (shell0 [mkEvent 0x08 0; mkEvent 0x18 0; mkEvent 0x28 0;
                       mkEvent 0x08 0; mkEvent 0x40 0; mkEvent 0x58 0x5A]))
    as [s' |] eqn:E.
  - exists s'. split; [reflexivity|].
    destruct (shell_never_requests_repeated_start _ _ _ _ _ _ _ _ E)
      as [H | H]; [rewrite H; reflexivity | exact H].
  - vm_compute in E. discriminate E.
Defined.

Lemma unknown_command_witness :
  exists s',
    Cmd.SerialCommand Cmd.list_ParseInit Cmd.list_ParseToken 1000 999
      (str "G 68 00 01") (shell0 []) = Some s' /\
    Cmd.hw s' = m0 /\
    Cmd.out (Cmd.glob s') =
      [PrintStringP [7];
       PrintStringP (str "Unrecognized Command " ++ [34]);
       PrintString (str "G");
       PrintStringP ([34; 13; 10]);
       PrintString (str "Type '?' for help" ++ [13; 10]);
       PrintCRLF].
Proof.
  destruct (unknown_command _ Cmd.list_ParseInit Cmd.list_ParseToken 1000 999
              (str "G 68 00 01") (str "G")
              [str "68"; str "00"; str "01"] (shell0 []))
    as (s' & H1 & H2 & _ & _ & H5).
  - reflexivity.
  - vm_compute. discriminate.
  - vm_compute. intuition discriminate.
  - exists s'. split; [exact H1|]. split; [exact H2 | exact H5].
Defined.

Lemma R_command_reads_witness :
  exists s',
    Cmd.SerialCommand Cmd.list_ParseInit Cmd.list_ParseToken 1000 999
      (str "r 68 02")
      (shell0 [mkEvent 0x08 0; mkEvent 0x40 0; mkEvent 0x50 0xAB;
               mkEvent 0x58 0xCD]) = Some s' /\
    ram_bytes (ram (Cmd.hw s')) 1000 2 = [0xAB; 0xCD] /\
    sent_bytes (actions (Cmd.hw s')) = [0xD1].
Proof.
  destruct (R_command_reads _ Cmd.list_ParseInit Cmd.list_ParseToken 1000 999
              (str "r 68 02") (str "r") (str "68") (str "02") []
              (shell0 [mkEvent 0x08 0; mkEvent 0x40 0; mkEvent 0x50 0xAB;
                       mkEvent 0x58 0xCD])
              (mkEvent 0x08 0) (mkEvent 0x40 0)
              [mkEvent 0x50 0xAB; mkEvent 0x58 0xCD] [])
    as (s' & H1 & _ & _ & H4 & H5 & _).
  - repeat constructor; vm_compute; discriminate.
  - reflexivity.
  - tokens_yield.
  - reflexivity.
  - reflexivity.
  - vm_compute. split; discriminate.
  - left. reflexivity.
  - reflexivity.
  - apply Forall_cons; [left; reflexivity|].
    apply Forall_cons; [right; reflexivity | apply Forall_nil].
  - reflexivity.
  - reflexivity.
  - exists s'. split; [exact H1|]. split; [exact H5 | exact H4].
Defined.

Lemma W_command_sends_witness :
  exists s',
    Cmd.SerialCommand Cmd.list_ParseInit Cmd.list_ParseToken 1000 999
      (str "W 68 0e 0x10")
      (shell0 [mkEvent 0x08 0; mkEvent 0x18 0; mkEvent 0x28 0;
               mkEvent 0x28 0]) = Some s' /\
    sent_bytes (actions (Cmd.hw s')) = [0xD0; 0x0E; 0x10].
Proof.
  destruct (W_command_sends _ Cmd.list_ParseInit Cmd.list_ParseToken 1000 999
              (str "W 68 0e 0x10") (str "W") (str "68") [] []
              [str "0e"; str "0x10"] []
              (shell0 [mkEvent 0x08 0; mkEvent 0x18 0; mkEvent 0x28 0;
                       mkEvent 0x28 0])
              (mkEvent 0x08 0)
              [mkEvent 0x18 0; mkEvent 0x28 0; mkEvent 0x28 0] [])
    as (s' & H1 & _ & _ & H4 & _).
  - repeat constructor; vm_compute; discriminate.
  - reflexivity.
  - cbn [length]. lia.
  - tokens_yield.
  - reflexivity.
  - repeat constructor.
  - reflexivity.
  - reflexivity.
  - left. reflexivity.
  - apply Forall_cons; [left; reflexivity|].
    apply Forall_cons; [right; reflexivity|].
    apply Forall_cons; [right; reflexivity | apply Forall_nil].
  - reflexivity.
  - reflexivity.
  - exists s'. split; [exact H1|]. rewrite H4. reflexivity.
Defined.

Lemma W_command_too_much_data_witness :
  exists s',
    Cmd.SerialCommand Cmd.list_ParseInit Cmd.list_ParseToken 1000 999
      (str "W 68 0e 1g 10")
      (shell0 [mkEvent 0x08 0; mkEvent 0x18 0; mkEvent 0x28 0]) = Some s' /\
    actions (Cmd.hw s') = [] /\
    Cmd.pending s' = [mkEvent 0x08 0; mkEvent 0x18 0; mkEvent 0x28 0].
Proof.
  destruct (W_command_too_much_data _ Cmd.list_ParseInit Cmd.list_ParseToken
              1000 999 (str "W 68 0e 1g 10") (str "W") (str "68")
              (str "1g") (str "10") [str "0e"] []
              (shell0 [mkEvent 0x08 0; mkEvent 0x18 0; mkEvent 0x28 0]))
    as (s' & H1 & H2 & H3 & _).
  - repeat constructor; vm_compute; discriminate.
  - reflexivity.
  - cbn [length]. lia.
  - tokens_yield.
  - reflexivity.
  - repeat constructor.
  - reflexivity.
  - reflexivity.
  - exists s'. split; [exact H1|]. split; [exact H3 | exact H2].
Defined.

Lemma S_command_scans_witness :
  exists s',
    Cmd.SerialCommand Cmd.list_ParseInit Cmd.list_ParseToken 1000 999
      (str "s")
      (shell0 (flat_map probe_events
                 (repeat None 0x68 ++ [Some 0x5A] ++ repeat None 23) ++ [])) =
    Some s' /\
    Cmd.nSlaves s' = 1 /\ Cmd.SlaveAddr s' = 128 /\
    Cmd.out (Cmd.glob s') =
      [PrintString (str "Addr: Result" ++ [13; 10]);
       PrintH 0x68; PrintString (str "  : ");
       PrintString (str "I2C_COMPLETE"); PrintCRLF;
       PrintD 1 0; PrintString (str " responses" ++ [13; 10]); PrintCRLF].
Proof.
  destruct (S_command_scans _ Cmd.list_ParseInit Cmd.list_ParseToken 1000 999
              (str "s") (str "s") []
              (shell0 (flat_map probe_events
                         (repeat None 0x68 ++ [Some 0x5A] ++ repeat None 23)
                       ++ []))
              (repeat None 0x68 ++ [Some 0x5A] ++ repeat None 23) [])
    as (s' & H1 & _ & H3 & H4 & _ & _ & H7).
  - repeat constructor; vm_compute; discriminate.
  - reflexivity.
  - reflexivity.
  - reflexivity.
  - reflexivity.
  - exists s'. split; [exact H1|]. split; [exact H4|]. split; [exact H3|].
    rewrite H7. reflexivity.
Defined.

Lemma D_command_dumps_witness :
  exists s',
    Cmd.SerialCommand Cmd.list_ParseInit Cmd.list_ParseToken 1000 999
      (str "D 68 00 01")
      (shell0 [mkEvent 0x08 0; mkEvent 0x18 0; mkEvent 0x28 0;
               mkEvent 0x08 0; mkEvent 0x40 0; mkEvent 0x58 0x5A]) =
    Some s' /\
    ram_bytes (ram (Cmd.hw s')) 1000 1 = [0x5A] /\
    count_STOP (actions (Cmd.hw s')) = 2%nat.
Proof.
  destruct (D_command_dumps _ Cmd.list_ParseInit Cmd.list_ParseToken 1000 999
              (str "D 68 00 01") (str "D") (str "68") (str "00") (str "01") []
              (shell0 [mkEvent 0x08 0; mkEvent 0x18 0; mkEvent 0x28 0;
                       mkEvent 0x08 0; mkEvent 0x40 0; mkEvent 0x58 0x5A])
              (mkEvent 0x08 0) (mkEvent 0x08 0) (mkEvent 0x40 0)
              [mkEvent 0x18 0; mkEvent 0x28 0] [mkEvent 0x58 0x5A] [])
    as (s' & H1 & _ & _ & (l & H4 & _ & H4') & H5 & _).
  - repeat constructor; vm_compute; discriminate.
  - reflexivity.
  - tokens_yield.
  - reflexivity.
  - reflexivity.
  - reflexivity.
  - vm_compute. split; discriminate.
  - left. lia.
  - left. reflexivity.
  - apply Forall_cons; [left; reflexivity|].
    apply Forall_cons; [right; reflexivity | apply Forall_nil].
  - reflexivity.
  - left. reflexivity.
  - reflexivity.
  - apply Forall_cons; [right; reflexivity | apply Forall_nil].
  - reflexivity.
  - reflexivity.
  - exists s'. split; [exact H1|]. split; [exact H5|].
    rewrite H4. cbn [shell0 Cmd.hw m0 actions app].
    unfold START, STOP. cbn [count_STOP]. rewrite count_STOP_app, H4'.
    reflexivity.
Defined.

Lemma R_command_no_slave_witness :
  exists s',
    Cmd.SerialCommand Cmd.list_ParseInit Cmd.list_ParseToken 1000 999
      (str "R 68 02")
      (shell0 [mkEvent 0x08 0; mkEvent 0x48 0]) = Some s' /\
    Cmd.Status s' = I2C_NO_SLAVE_ACK /\
    Cmd.out (Cmd.glob s') =
      [PrintString (str "I2C_NO_SLAVE_ACK"); PrintString (str " (");
       PrintH 2; PrintString (str ")" ++ [13; 10])].
Proof.
  destruct (R_command_no_slave _ Cmd.list_ParseInit Cmd.list_ParseToken
              1000 999 (str "R 68 02") (str "R") (str "68") (str "02") []
              (shell0 [mkEvent 0x08 0; mkEvent 0x48 0])
              (mkEvent 0x08 0) (mkEvent 0x48 0) [])
    as (s' & H1 & _ & H3 & _ & _ & H6).
  - repeat constructor; vm_compute; discriminate.
  - reflexivity.
  - tokens_yield.
  - reflexivity.
  - reflexivity.
  - vm_compute. split; discriminate.
  - left. reflexivity.
  - reflexivity.
  - reflexivity.
  - exists s'. split; [exact H1|]. split; [exact H3 | exact H6].
Defined.
